(** * rgbpp-sdk, package btc: address classification and UTXO adaptation

    A shallow embedding of [packages/btc/src/address.ts] and
    [packages/btc/src/transaction/utxo.ts], together with executable models
    of the third-party functions they call (Node's [Buffer.from(s, 'hex')],
    bs58check, bech32 and the [address] / [payments] / [networks] modules of
    bitcoinjs-lib 6), and the properties of the specification proved or
    refuted over them.

    Conventions.
    - A JavaScript [string] is a [string]; a [Buffer] is a [list byte].
    - A JavaScript [number] holding an integer is a [Z].
    - An optional field ([pubkey?: string], a property that may be
      [undefined]) is an [option].
    - A function that may [throw] returns a [result]; [try { } catch { }]
      is a [match] on that result.
    - An object used as a map ([Record<string, string>]) is a finite map of
      its own entries; the keys it is read at, addresses, are taken to be
      no names of members of [Object.prototype]. *)

From Stdlib Require Import ZArith NArith List Ascii String Lia Bool DecimalString.
From Stdlib.Strings Require Import Byte.
From Bignums Require Import BigZ.
From stdpp Require Import gmap strings.
Import ListNotations.

Local Open Scope string_scope.
Local Open Scope Z_scope.
Local Open Scope list_scope.

(** ** Errors and results *)

(** [ErrorCodes] of [../error]: the three codes used by the two files. *)
Inductive ErrorCodes : Type :=
| MISSING_PUBKEY
| UNSUPPORTED_ADDRESS_TYPE
| UNCONFIRMED_UTXO.

(** What a [throw] carries: a [TxBuildError] with its code and the optional
    comment of [TxBuildError.withComment], a [TypeError] or [Error] raised
    by a library, or an error of the external data source. *)
Inductive exn : Type :=
| TxBuildError (code : ErrorCodes) (comment : option string)
| TypeError (message : string)
| Error (message : string)
| TransportError (message : string).

Inductive result (A : Type) : Type :=
| Ok (a : A)
| Throw (e : exn).

Arguments Ok {A} a.
Arguments Throw {A} e.

#[global] Instance result_ret : MRet result := fun A a => Ok a.

#[global] Instance result_bind : MBind result := fun A B k r =>
  match r with
  | Ok a => k a
  | Throw e => Throw e
  end.

(** [new TxBuildError(code)] and [TxBuildError.withComment(code, comment)]. *)
Definition newTxBuildError (code : ErrorCodes) : exn := TxBuildError code None.
Definition withComment (code : ErrorCodes) (comment : string) : exn :=
  TxBuildError code (Some comment).

(** JavaScript truthiness of a string that may be [undefined]:
    [!s] holds for [undefined] and for the empty string. *)
Definition truthy (s : option string) : bool :=
  match s with
  | Some EmptyString => false
  | Some _ => true
  | None => false
  end.

(** ** Bytes *)

Definition bytes : Type := list byte.

Definition Z_of_byte (b : byte) : Z := Z.of_N (Byte.to_N b).

Definition byte_of_Z (z : Z) : byte :=
  match Byte.of_N (Z.to_N (z mod 256)) with
  | Some b => b
  | None => x00
  end.

(** Big-endian and little-endian readings of a byte string. *)
Definition Z_of_be (bs : bytes) : Z :=
  fold_left (fun acc b => acc * 256 + Z_of_byte b) bs 0.

(** The [n] low bytes of [z], most significant first. *)
Fixpoint be_of_Z (n : nat) (z : Z) : bytes :=
  match n with
  | O => []
  | S n' => be_of_Z n' (z / 256) ++ [byte_of_Z z]
  end.

(** The [n] low bytes of [z], least significant first. *)
Fixpoint le_of_Z (n : nat) (z : Z) : bytes :=
  match n with
  | O => []
  | S n' => byte_of_Z z :: le_of_Z n' (z / 256)
  end.

Definition Z_of_le (bs : bytes) : Z :=
  fold_right (fun b acc => Z_of_byte b + 256 * acc) 0 bs.

(** Cut a list into chunks of [n] elements ([fuel] bounds the number of
    chunks; the last one may be short). *)
Fixpoint chunks {A : Type} (fuel n : nat) (l : list A) : list (list A) :=
  match fuel, l with
  | O, _ => []
  | _, [] => []
  | S f, _ => firstn n l :: chunks f n (skipn n l)
  end.

Definition bytes_of_string (s : string) : bytes :=
  map byte_of_ascii (list_ascii_of_string s).

#[global] Instance byte_eq_dec : EqDecision byte.
Proof.
  intros a b. destruct (N.eq_dec (Byte.to_N a) (Byte.to_N b)) as [H | H].
  - left. apply (f_equal Byte.of_N) in H. rewrite !Byte.of_to_N in H. congruence.
  - right. congruence.
Defined.

(** ** Node's Buffer *)

Module Buffer.

(** One hexadecimal digit, either case. *)
Definition unhex (c : ascii) : option Z :=
  let n := Z.of_N (N_of_ascii c) in
  if (48 <=? n) && (n <=? 57) then Some (n - 48)
  else if (65 <=? n) && (n <=? 70) then Some (n - 55)
  else if (97 <=? n) && (n <=? 102) then Some (n - 87)
  else None.

(** [Buffer.from(s, 'hex')]: the string is read two characters at a time;
    decoding stops at the first pair that is not two hexadecimal digits, and
    a trailing single character is dropped. It never throws. *)
Fixpoint from_hex (s : string) : bytes :=
  match s with
  | String a (String b rest) =>
      match unhex a, unhex b with
      | Some hi, Some lo => byte_of_Z (16 * hi + lo) :: from_hex rest
      | _, _ => []
      end
  | _ => []
  end.

Definition hexdigit (n : Z) : ascii :=
  ascii_of_N (Z.to_N (if n <? 10 then 48 + n else 87 + n)).

(** [buf.toString('hex')]. *)
Fixpoint to_hex (bs : bytes) : string :=
  match bs with
  | [] => EmptyString
  | b :: rest =>
      String (hexdigit (Z_of_byte b / 16))
        (String (hexdigit (Z_of_byte b mod 16)) (to_hex rest))
  end.

(** [buf.subarray(start, end)] for [0 <= start <= end]. *)
Definition subarray (start stop : nat) (bs : bytes) : bytes :=
  firstn (stop - start) (skipn start bs).

End Buffer.

(** ** Hash functions

    bitcoinjs-lib's [crypto.sha256], [crypto.ripemd160] and
    [crypto.hash160], written out from FIPS 180-4 and the RIPEMD-160
    definition. Words are 32-bit values held in [Z]; additions wrap. *)

Module Crypto.

Definition add32 (x y : Z) : Z := (x + y) mod 4294967296.
Definition not32 (x : Z) : Z := Z.lxor x 0xffffffff.
Definition rotr32 (n x : Z) : Z :=
  Z.lor (Z.shiftr x n) ((Z.shiftl x (32 - n)) mod 4294967296).
Definition rotl32 (n x : Z) : Z :=
  Z.lor ((Z.shiftl x n) mod 4294967296) (Z.shiftr x (32 - n)).

Definition sum32 (xs : list Z) : Z := fold_left add32 xs 0.

(** Message padding shared by both functions: a [0x80] byte, zero bytes up
    to 56 modulo 64, then the bit length on 8 bytes written by [len64]. *)
Definition pad (len64 : Z -> bytes) (msg : bytes) : bytes :=
  let l := Z.of_nat (length msg) in
  msg ++ [x80] ++ repeat x00 (Z.to_nat ((55 - l) mod 64)) ++ len64 (8 * l).

Definition blocks (padded : bytes) : list bytes :=
  chunks (length padded) 64 padded.

(** *** SHA-256 *)

Definition Ch (x y z : Z) : Z := Z.lxor (Z.land x y) (Z.land (not32 x) z).
Definition Maj (x y z : Z) : Z :=
  Z.lxor (Z.lxor (Z.land x y) (Z.land x z)) (Z.land y z).
Definition Sigma0 (x : Z) : Z :=
  Z.lxor (Z.lxor (rotr32 2 x) (rotr32 13 x)) (rotr32 22 x).
Definition Sigma1 (x : Z) : Z :=
  Z.lxor (Z.lxor (rotr32 6 x) (rotr32 11 x)) (rotr32 25 x).
Definition sigma0 (x : Z) : Z :=
  Z.lxor (Z.lxor (rotr32 7 x) (rotr32 18 x)) (Z.shiftr x 3).
Definition sigma1 (x : Z) : Z :=
  Z.lxor (Z.lxor (rotr32 17 x) (rotr32 19 x)) (Z.shiftr x 10).

(** The first 64 primes. *)
Definition is_prime (n : Z) : bool :=
  (1 <? n) && forallb (fun d => negb (n mod Z.of_nat d =? 0)) (seq 2 (Z.to_nat n - 2)).

Definition primes : list Z :=
  Eval vm_compute in filter is_prime (map Z.of_nat (seq 2 310)).

(** Integer cube root, one bit at a time from bit [bits - 1] down. *)
Fixpoint cbrt_bits (bits : nat) (n r : Z) : Z :=
  match bits with
  | O => r
  | S b =>
      let c := r + 2 ^ Z.of_nat b in
      if c * c * c <=? n then cbrt_bits b n c else cbrt_bits b n r
  end.

(** The round constants: the first 32 bits of the fractional parts of the
    cube roots of the first 64 primes. *)
Definition K256 : list Z :=
  Eval vm_compute in
    map (fun p => cbrt_bits 36 (p * 2 ^ 96) 0 mod 2 ^ 32) primes.

Record state256 : Type := State256
  { s_a : Z; s_b : Z; s_c : Z; s_d : Z; s_e : Z; s_f : Z; s_g : Z; s_h : Z }.

(** The initial hash value: the first 32 bits of the fractional parts of
    the square roots of the first 8 primes. *)
Definition frac_sqrt (i : nat) : Z := Z.sqrt (nth i primes 0 * 2 ^ 64) mod 2 ^ 32.

Definition init256 : state256 :=
  Eval vm_compute in
    State256 (frac_sqrt 0) (frac_sqrt 1) (frac_sqrt 2) (frac_sqrt 3)
             (frac_sqrt 4) (frac_sqrt 5) (frac_sqrt 6) (frac_sqrt 7).

(** The message schedule is kept newest word first. *)
Definition extend256 (w : list Z) : list Z :=
  let g i := nth i w 0 in
  sum32 [sigma1 (g 1%nat); g 6%nat; sigma0 (g 14%nat); g 15%nat] :: w.

Definition schedule256 (block : bytes) : list Z :=
  rev (Nat.iter 48 extend256 (rev (map Z_of_be (chunks 16 4 block)))).

Definition round256 (s : state256) (kw : Z * Z) : state256 :=
  let '(State256 a b c d e f g h) := s in
  let t1 := sum32 [h; Sigma1 e; Ch e f g; fst kw; snd kw] in
  let t2 := add32 (Sigma0 a) (Maj a b c) in
  State256 (add32 t1 t2) a b c (add32 d t1) e f g.

Definition compress256 (s : state256) (block : bytes) : state256 :=
  let '(State256 a b c d e f g h) :=
    fold_left round256 (combine K256 (schedule256 block)) s in
  State256 (add32 (s_a s) a) (add32 (s_b s) b) (add32 (s_c s) c)
           (add32 (s_d s) d) (add32 (s_e s) e) (add32 (s_f s) f)
           (add32 (s_g s) g) (add32 (s_h s) h).

Definition digest256 (s : state256) : bytes :=
  be_of_Z 4 (s_a s) ++ be_of_Z 4 (s_b s) ++ be_of_Z 4 (s_c s) ++
  be_of_Z 4 (s_d s) ++ be_of_Z 4 (s_e s) ++ be_of_Z 4 (s_f s) ++
  be_of_Z 4 (s_g s) ++ be_of_Z 4 (s_h s).

Definition sha256 (msg : bytes) : bytes :=
  digest256 (fold_left compress256 (blocks (pad (be_of_Z 8) msg)) init256).

(** *** RIPEMD-160 *)

Definition rmd_f (j : nat) (x y z : Z) : Z :=
  match (j / 16)%nat with
  | 0%nat => Z.lxor (Z.lxor x y) z
  | 1%nat => Z.lor (Z.land x y) (Z.land (not32 x) z)
  | 2%nat => Z.lxor (Z.lor x (not32 y)) z
  | 3%nat => Z.lor (Z.land x z) (Z.land y (not32 z))
  | _ => Z.lxor x (Z.lor y (not32 z))
  end.

Definition rmd_Kl : list Z :=
  [0x00000000; 0x5a827999; 0x6ed9eba1; 0x8f1bbcdc; 0xa953fd4e].
Definition rmd_Kr : list Z :=
  [0x50a28be6; 0x5c4dd124; 0x6d703ef3; 0x7a6d76e9; 0x00000000].

Definition rmd_rl : list nat :=
  [ 0; 1; 2; 3; 4; 5; 6; 7; 8; 9; 10; 11; 12; 13; 14; 15;
    7; 4; 13; 1; 10; 6; 15; 3; 12; 0; 9; 5; 2; 14; 11; 8;
    3; 10; 14; 4; 9; 15; 8; 1; 2; 7; 0; 6; 13; 11; 5; 12;
    1; 9; 11; 10; 0; 8; 12; 4; 13; 3; 7; 15; 14; 5; 6; 2;
    4; 0; 5; 9; 7; 12; 2; 10; 14; 1; 3; 8; 11; 6; 15; 13 ]%nat.
Definition rmd_rr : list nat :=
  [ 5; 14; 7; 0; 9; 2; 11; 4; 13; 6; 15; 8; 1; 10; 3; 12;
    6; 11; 3; 7; 0; 13; 5; 10; 14; 15; 8; 12; 4; 9; 1; 2;
    15; 5; 1; 3; 7; 14; 6; 9; 11; 8; 12; 2; 10; 0; 4; 13;
    8; 6; 4; 1; 3; 11; 15; 0; 5; 12; 2; 13; 9; 7; 10; 14;
    12; 15; 10; 4; 1; 5; 8; 7; 6; 2; 13; 14; 0; 3; 9; 11 ]%nat.
Definition rmd_sl : list Z :=
  [ 11; 14; 15; 12; 5; 8; 7; 9; 11; 13; 14; 15; 6; 7; 9; 8;
    7; 6; 8; 13; 11; 9; 7; 15; 7; 12; 15; 9; 11; 7; 13; 12;
    11; 13; 6; 7; 14; 9; 13; 15; 14; 8; 13; 6; 5; 12; 7; 5;
    11; 12; 14; 15; 14; 15; 9; 8; 9; 14; 5; 6; 8; 6; 5; 12;
    9; 15; 5; 11; 6; 8; 13; 12; 5; 12; 13; 14; 11; 8; 5; 6 ].
Definition rmd_sr : list Z :=
  [ 8; 9; 9; 11; 13; 15; 15; 5; 7; 7; 8; 11; 14; 14; 12; 6;
    9; 13; 15; 7; 12; 8; 9; 11; 7; 7; 12; 7; 6; 15; 13; 11;
    9; 7; 15; 11; 8; 6; 6; 14; 12; 13; 5; 14; 13; 13; 7; 5;
    15; 5; 8; 11; 14; 14; 6; 14; 6; 9; 12; 9; 12; 5; 15; 8;
    8; 5; 12; 9; 12; 5; 14; 6; 8; 13; 6; 5; 15; 13; 11; 11 ].

Record state160 : Type := State160
  { r_a : Z; r_b : Z; r_c : Z; r_d : Z; r_e : Z }.

Definition init160 : state160 :=
  State160 0x67452301 0xefcdab89 0x98badcfe 0x10325476 0xc3d2e1f0.

(** One step of a line: [fj] is the index given to [rmd_f] (it runs
    backwards on the right line). *)
Definition step160 (x : list Z) (ks : list Z) (r : list nat) (sh : list Z)
    (fj : nat -> nat) (s : state160) (j : nat) : state160 :=
  let '(State160 a b c d e) := s in
  let t :=
    add32 (rotl32 (nth j sh 0)
             (sum32 [a; rmd_f (fj j) b c d; nth (nth j r 0%nat) x 0;
                     nth (j / 16)%nat ks 0])) e in
  State160 e t b (rotl32 10 c) d.

Definition compress160 (s : state160) (block : bytes) : state160 :=
  let x := map Z_of_le (chunks 16 4 block) in
  let l := fold_left (step160 x rmd_Kl rmd_rl rmd_sl (fun j => j)) (seq 0 80) s in
  let r := fold_left (step160 x rmd_Kr rmd_rr rmd_sr (fun j => (79 - j)%nat))
             (seq 0 80) s in
  State160 (sum32 [r_b s; r_c l; r_d r]) (sum32 [r_c s; r_d l; r_e r])
           (sum32 [r_d s; r_e l; r_a r]) (sum32 [r_e s; r_a l; r_b r])
           (sum32 [r_a s; r_b l; r_c r]).

Definition digest160 (s : state160) : bytes :=
  le_of_Z 4 (r_a s) ++ le_of_Z 4 (r_b s) ++ le_of_Z 4 (r_c s) ++
  le_of_Z 4 (r_d s) ++ le_of_Z 4 (r_e s).

Definition ripemd160 (msg : bytes) : bytes :=
  digest160 (fold_left compress160 (blocks (pad (le_of_Z 8) msg)) init160).

(** [hash160] and [hash256] of bitcoinjs-lib. *)
Definition hash160 (msg : bytes) : bytes := ripemd160 (sha256 msg).
Definition hash256 (msg : bytes) : bytes := sha256 (sha256 msg).

(** BIP-340 tagged hash, [crypto.taggedHash(tag, data)]. *)
Definition taggedHash (tag : string) (data : bytes) : bytes :=
  let t := sha256 (bytes_of_string tag) in
  sha256 (t ++ t ++ data).

End Crypto.

(** ** secp256k1

    The curve arithmetic behind the ECC library that bitcoinjs-lib is
    initialised with ([isXOnlyPoint], [xOnlyPointAddTweak]) and the byte
    range check [isPoint] of bitcoinjs-lib's [types]. Field elements are
    [bigZ] so that the model runs on real keys; points are kept in Jacobian
    coordinates, [Z = 0] being the point at infinity. *)

Module Ecc.

Definition P : Z :=
  0xfffffffffffffffffffffffffffffffffffffffffffffffffffffffefffffc2f.
Definition N : Z :=
  0xfffffffffffffffffffffffffffffffebaaedce6af48a03bbfd25e8cd0364141.
Definition Gx : Z :=
  0x79be667ef9dcbbac55a06295ce870b07029bfcdb2dce28d959f2815b16f81798.
Definition Gy : Z :=
  0x483ada7726a3c4655da4fbfc0e1108a8fd17b448a68554199c47d08ffb10d4b8.

Definition bP : bigZ := BigZ.of_Z P.

Definition fmul (a b : bigZ) : bigZ := BigZ.modulo (BigZ.mul a b) bP.
Definition fsub (a b : bigZ) : bigZ := BigZ.modulo (BigZ.sub a b) bP.
Definition fnum (z : Z) : bigZ := BigZ.of_Z z.

Fixpoint fpow_pos (b : bigZ) (e : positive) : bigZ :=
  match e with
  | xH => BigZ.modulo b bP
  | xO e' => let r := fpow_pos b e' in fmul r r
  | xI e' => let r := fpow_pos b e' in fmul (fmul r r) b
  end.

Definition fpow (b : bigZ) (e : Z) : bigZ :=
  match e with
  | Zpos q => fpow_pos b q
  | _ => BigZ.one
  end.

Definition finv (a : bigZ) : bigZ := fpow a (P - 2).

Record point : Type := Jac { jx : bigZ; jy : bigZ; jz : bigZ }.

Definition infinity : point := Jac BigZ.one BigZ.one BigZ.zero.
Definition G : point := Jac (fnum Gx) (fnum Gy) BigZ.one.

Definition is0 (a : bigZ) : bool := BigZ.eqb a BigZ.zero.

Definition double (p : point) : point :=
  let '(Jac x y z) := p in
  if is0 z || is0 y then infinity
  else
    let yy := fmul y y in
    let s := fmul (fnum 4) (fmul x yy) in
    let m := fmul (fnum 3) (fmul x x) in
    let x3 := fsub (fmul m m) (fmul (fnum 2) s) in
    Jac x3 (fsub (fmul m (fsub s x3)) (fmul (fnum 8) (fmul yy yy)))
        (fmul (fnum 2) (fmul y z)).

Definition add (p q : point) : point :=
  let '(Jac x1 y1 z1) := p in
  let '(Jac x2 y2 z2) := q in
  if is0 z1 then q
  else if is0 z2 then p
  else
    let z1z1 := fmul z1 z1 in
    let z2z2 := fmul z2 z2 in
    let u1 := fmul x1 z2z2 in
    let u2 := fmul x2 z1z1 in
    let s1 := fmul y1 (fmul z2 z2z2) in
    let s2 := fmul y2 (fmul z1 z1z1) in
    if BigZ.eqb u1 u2 then (if BigZ.eqb s1 s2 then double p else infinity)
    else
      let h := fsub u2 u1 in
      let r := fsub s2 s1 in
      let hh := fmul h h in
      let hhh := fmul h hh in
      let v := fmul u1 hh in
      let x3 := fsub (fsub (fmul r r) hhh) (fmul (fnum 2) v) in
      Jac x3 (fsub (fmul r (fsub v x3)) (fmul s1 hhh)) (fmul h (fmul z1 z2)).

Fixpoint mul_pos (k : positive) (p : point) : point :=
  match k with
  | xH => p
  | xO k' => double (mul_pos k' p)
  | xI k' => add (double (mul_pos k' p)) p
  end.

Definition mul (k : Z) (p : point) : point :=
  match k with
  | Zpos q => mul_pos q p
  | _ => infinity
  end.

(** Affine coordinates of a finite point. *)
Definition affine (p : point) : option (Z * Z) :=
  if is0 (jz p) then None
  else
    let zi := finv (jz p) in
    let zi2 := fmul zi zi in
    Some (BigZ.to_Z (fmul (jx p) zi2), BigZ.to_Z (fmul (jy p) (fmul zi zi2))).

(** The point of even [y] with the given [x], if [x] is on the curve. *)
Definition lift_x (x : Z) : option point :=
  if (x <=? 0) || (P <=? x) then None
  else
    let bx := fnum x in
    let c := BigZ.modulo (BigZ.add (fmul bx (fmul bx bx)) (fnum 7)) bP in
    let y := fpow c ((P + 1) / 4) in
    if BigZ.eqb (fmul y y) c
    then Some (Jac bx (if Z.even (BigZ.to_Z y) then y else BigZ.sub bP y) BigZ.one)
    else None.

Definition isXOnlyPoint (p : bytes) : bool :=
  (length p =? 32)%nat &&
  match lift_x (Z_of_be p) with Some _ => true | None => false end.

(** [xOnlyPointAddTweak(p, tweak)]: the x coordinate of [p + tweak * G],
    or nothing when [p] is not a point, the tweak is not below the group
    order, or the sum is the point at infinity. *)
Definition xOnlyPointAddTweak (p tweak : bytes) : option bytes :=
  if negb (length p =? 32)%nat then None
  else
    match lift_x (Z_of_be p) with
    | None => None
    | Some pt =>
        let t := Z_of_be tweak in
        if N <=? t then None
        else
          match affine (add pt (mul t G)) with
          | None => None
          | Some (x, _) => Some (be_of_Z 32 x)
          end
    end.

(** [isPoint] of bitcoinjs-lib's [types]: a range check on the bytes of a
    compressed (33-byte) or uncompressed (65-byte) key. *)
Definition isPoint (p : bytes) : bool :=
  if (length p <? 33)%nat then false
  else
    let t := Z_of_byte (nth 0 p x00) in
    let x := Z_of_be (Buffer.subarray 1 33 p) in
    if (x =? 0) || (P <=? x) then false
    else if ((t =? 2) || (t =? 3)) && (length p =? 33)%nat then true
    else
      let y := Z_of_be (skipn 33 p) in
      if (y =? 0) || (P <=? y) then false
      else (t =? 4) && (length p =? 65)%nat.

End Ecc.

(** ** Positional notation *)

(** Digits of [n] in base [b], most significant first; zero has none. *)
Fixpoint to_base (b : Z) (fuel : nat) (n : Z) : list Z :=
  match fuel with
  | O => []
  | S f => if n <=? 0 then [] else to_base b f (n / b) ++ [n mod b]
  end.

Definition of_base (b : Z) (ds : list Z) : Z :=
  fold_left (fun acc d => acc * b + d) ds 0.

(** Enough fuel for [to_base] in any base from 2 up. *)
Definition digits_fuel (n : Z) : nat := S (Z.to_nat (Z.log2 n)).

(** Length of the longest prefix whose elements satisfy [f]. *)
Fixpoint leading {A : Type} (f : A -> bool) (l : list A) : nat :=
  match l with
  | x :: r => if f x then S (leading f r) else O
  | [] => O
  end.

Fixpoint indexOf (c : ascii) (l : list ascii) : option Z :=
  match l with
  | [] => None
  | x :: r => if Ascii.eqb c x then Some 0 else option_map Z.succ (indexOf c r)
  end.

(** ** base-x with the Bitcoin alphabet, and bs58check *)

Module Base58.

Definition ALPHABET : list ascii :=
  list_ascii_of_string
    "123456789ABCDEFGHJKLMNPQRSTUVWXYZabcdefghijkmnopqrstuvwxyz".

Definition charAt (d : Z) : ascii := nth (Z.to_nat d) ALPHABET "1"%char.

(** [encode]: one ['1'] per leading zero byte, then the bytes read as a
    big-endian number and written in base 58. *)
Definition encode (source : bytes) : string :=
  let zeroes := leading (fun b => Z_of_byte b =? 0) source in
  let n := Z_of_be source in
  string_of_list_ascii
    (repeat "1"%char zeroes ++ map charAt (to_base 58 (digits_fuel n) n)).

(** [decodeUnsafe]: nothing when a character is outside the alphabet;
    otherwise one zero byte per leading ['1'], then the number in base 256
    without leading zero bytes. *)
Definition decodeUnsafe (source : string) : option bytes :=
  match mapM (fun c => indexOf c ALPHABET) (list_ascii_of_string source) with
  | None => None
  | Some ds =>
      let zeroes := leading (fun d => d =? 0) ds in
      let n := of_base 58 ds in
      Some (repeat x00 zeroes ++ map byte_of_Z (to_base 256 (digits_fuel n) n))
  end.

End Base58.

Module Bs58check.

(** The checksum: the first four bytes of the double SHA-256. *)
Definition checksumFn (payload : bytes) : bytes :=
  firstn 4 (Crypto.hash256 payload).

Definition encode (payload : bytes) : string :=
  Base58.encode (payload ++ checksumFn payload).

(** [decodeRaw]: [payload = buffer.slice(0, -4)], [checksum =
    buffer.slice(-4)]; the four checksum bytes are compared one by one, a
    missing byte reading as [undefined], which [^] takes as 0. *)
Definition decodeRaw (buffer : bytes) : option bytes :=
  let payload := firstn (length buffer - 4) buffer in
  let checksum := skipn (length buffer - 4) buffer in
  let newChecksum := Crypto.hash256 payload in
  let differ i :=
    Z.lxor (Z_of_byte (nth i checksum x00)) (Z_of_byte (nth i newChecksum x00)) in
  if Z.lor (Z.lor (Z.lor (differ 0%nat) (differ 1%nat)) (differ 2%nat))
       (differ 3%nat) =? 0
  then Some payload
  else None.

Definition decode (s : string) : result bytes :=
  match Base58.decodeUnsafe s with
  | None => Throw (Error "Non-base58 character")
  | Some buffer =>
      match decodeRaw buffer with
      | None => Throw (Error "Invalid checksum")
      | Some payload => Ok payload
      end
  end.

End Bs58check.

(** ** bech32 and bech32m *)

Module Bech32.

Inductive encoding : Type := bech32 | bech32m.

Definition ENCODING_CONST (e : encoding) : Z :=
  match e with
  | bech32 => 1
  | bech32m => 0x2bc830a3
  end.

Definition ALPHABET : list ascii :=
  list_ascii_of_string "qpzry9x8gf2tvdw0s3jn54khce6mua7l".

Definition charAt (v : Z) : ascii := nth (Z.to_nat v) ALPHABET "q"%char.

Definition charCode (c : ascii) : Z := Z.of_N (N_of_ascii c).

Definition polymodStep (pre : Z) : Z :=
  let b := Z.shiftr pre 25 in
  Z.lxor (Z.lxor (Z.lxor (Z.lxor (Z.lxor
    (Z.shiftl (Z.land pre 0x1ffffff) 5)
    (Z.land (- Z.land (Z.shiftr b 0) 1) 0x3b6a57b2))
    (Z.land (- Z.land (Z.shiftr b 1) 1) 0x26508e6d))
    (Z.land (- Z.land (Z.shiftr b 2) 1) 0x1ea119fa))
    (Z.land (- Z.land (Z.shiftr b 3) 1) 0x3d4233dd))
    (Z.land (- Z.land (Z.shiftr b 4) 1) 0x2a1462b3).

Definition prefixChk (prefix : list ascii) : result Z :=
  if forallb (fun c => (33 <=? charCode c) && (charCode c <=? 126)) prefix
  then
    let chk :=
      fold_left (fun chk c => Z.lxor (polymodStep chk) (Z.shiftr (charCode c) 5))
        prefix 1 in
    let chk := polymodStep chk in
    Ok (fold_left (fun chk c => Z.lxor (polymodStep chk) (Z.land (charCode c) 0x1f))
          prefix chk)
  else Throw (Error "Invalid prefix").

(** [toLowerCase] and [toUpperCase] on the ASCII letters. A character
    above 126 makes [decode] fail whatever its case, so the two functions
    need not be exact on it. *)
Definition lower (c : ascii) : ascii :=
  let n := charCode c in
  if (65 <=? n) && (n <=? 90) then ascii_of_N (Z.to_N (n + 32)) else c.

Definition upper (c : ascii) : ascii :=
  let n := charCode c in
  if (97 <=? n) && (n <=? 122) then ascii_of_N (Z.to_N (n - 32)) else c.

Definition LIMIT : nat := 90.

(** [encode(prefix, words)] of the library built for the encoding [e]. *)
Definition encode (e : encoding) (prefix : string) (words : list Z) : result string :=
  let pre := map lower (list_ascii_of_string prefix) in
  if (LIMIT <? length pre + 7 + length words)%nat
  then Throw (TypeError "Exceeds length limit")
  else
    chk ← prefixChk pre;
    if negb (forallb (fun x => Z.shiftr x 5 =? 0) words)
    then Throw (Error "Non 5-bit word")
    else
      let chk := fold_left (fun chk x => Z.lxor (polymodStep chk) x) words chk in
      let chk := Nat.iter 6 polymodStep chk in
      let chk := Z.lxor chk (ENCODING_CONST e) in
      let tail :=
        map (fun i => Z.land (Z.shiftr chk ((5 - i) * 5)) 0x1f) [0; 1; 2; 3; 4; 5] in
      Ok (string_of_list_ascii (pre ++ ["1"%char] ++ map charAt (words ++ tail))).

(** [str.lastIndexOf(c)], nothing for -1. *)
Fixpoint lastIndexOf (c : ascii) (l : list ascii) : option nat :=
  match l with
  | [] => None
  | x :: r =>
      match lastIndexOf c r with
      | Some i => Some (S i)
      | None => if Ascii.eqb x c then Some O else None
      end
  end.

Record Decoded : Type := { prefix : string; words : list Z }.

(** [decode(str)] of the library built for the encoding [e]. *)
Definition decode (e : encoding) (str : string) : result Decoded :=
  let cs := list_ascii_of_string str in
  if (length cs <? 8)%nat then Throw (Error "too short")
  else if (LIMIT <? length cs)%nat then Throw (Error "Exceeds length limit")
  else
    let lowered := map lower cs in
    let uppered := map upper cs in
    if negb (bool_decide (cs = lowered)) && negb (bool_decide (cs = uppered))
    then Throw (Error "Mixed-case string")
    else
      match lastIndexOf "1"%char lowered with
      | None => Throw (Error "No separator character")
      | Some O => Throw (Error "Missing prefix")
      | Some split =>
          let pre := firstn split lowered in
          let wordChars := skipn (S split) lowered in
          if (length wordChars <? 6)%nat then Throw (Error "Data too short")
          else
            chk ← prefixChk pre;
            match mapM (fun c => indexOf c ALPHABET) wordChars with
            | None => Throw (Error "Unknown character")
            | Some vs =>
                let chk := fold_left (fun chk v => Z.lxor (polymodStep chk) v) vs chk in
                if chk =? ENCODING_CONST e
                then Ok {| prefix := string_of_list_ascii pre;
                           words := firstn (length vs - 6) vs |}
                else Throw (Error "Invalid checksum")
            end
      end.

(** The [while (bits >= outBits)] loop of [convert]: the words it pushes
    and the bits left. *)
Fixpoint drain (fuel : nat) (outBits value bits : Z) : list Z * Z :=
  match fuel with
  | O => ([], bits)
  | S f =>
      if outBits <=? bits
      then
        let bits' := bits - outBits in
        let '(ws, b) := drain f outBits value bits' in
        (Z.land (Z.shiftr value bits') (Z.shiftl 1 outBits - 1) :: ws, b)
      else ([], bits)
  end.

Record Acc : Type := { value : Z; nbits : Z; out : list Z }.

Definition convert_step (inBits outBits : Z) (a : Acc) (d : Z) : Acc :=
  let v := Z.lor (Z.shiftl (value a) inBits) d in
  let '(ws, b) := drain (Z.to_nat (nbits a + inBits)) outBits v (nbits a + inBits) in
  {| value := v; nbits := b; out := out a ++ ws |}.

(** [convert(data, inBits, outBits, pad)]. The accumulator is not masked
    in the library either; only its low [bits] bits are ever read. *)
Definition convert (data : list Z) (inBits outBits : Z) (pad : bool) : result (list Z) :=
  let a := fold_left (convert_step inBits outBits) data
             {| value := 0; nbits := 0; out := [] |} in
  let maxV := Z.shiftl 1 outBits - 1 in
  if pad
  then
    if 0 <? nbits a
    then Ok (out a ++ [Z.land (Z.shiftl (value a) (outBits - nbits a)) maxV])
    else Ok (out a)
  else
    if inBits <=? nbits a then Throw (Error "Excess padding")
    else if negb (Z.land (Z.shiftl (value a) (outBits - nbits a)) maxV =? 0)
    then Throw (Error "Non-zero padding")
    else Ok (out a).

Definition toWords (data : bytes) : list Z :=
  match convert (map Z_of_byte data) 8 5 true with
  | Ok ws => ws
  | Throw _ => []
  end.

Definition fromWords (ws : list Z) : result bytes :=
  r ← convert ws 5 8 false; Ok (map byte_of_Z r).

End Bech32.

(** ** bitcoinjs-lib: networks, address, payments *)

Module Bitcoin.

Record Network : Type :=
  { bech32 : string; pubKeyHash : Z; scriptHash : Z }.

(** [bitcoin.networks]. The test network and the regression-test network
    share their two version bytes. *)
Definition bitcoin : Network :=
  {| bech32 := "bc"; pubKeyHash := 0x00; scriptHash := 0x05 |}.
Definition testnet : Network :=
  {| bech32 := "tb"; pubKeyHash := 0x6f; scriptHash := 0xc4 |}.
Definition regtest : Network :=
  {| bech32 := "bcrt"; pubKeyHash := 0x6f; scriptHash := 0xc4 |}.

Record Base58CheckResult : Type := { hash : bytes; version58 : Z }.

(** [version] is [words[0]], which is [undefined] when there are no words. *)
Record Bech32Result : Type :=
  { version : option Z; prefix : string; data : bytes }.

(** [address.fromBase58Check]. *)
Definition fromBase58Check (address : string) : result Base58CheckResult :=
  payload ← Bs58check.decode address;
  if (length payload <? 21)%nat then Throw (TypeError "is too short")
  else if (21 <? length payload)%nat then Throw (TypeError "is too long")
  else Ok {| version58 := Z_of_byte (nth 0 payload x00); hash := skipn 1 payload |}.

(** [address.toBase58Check]. *)
Definition toBase58Check (h : bytes) (v : Z) : string :=
  Bs58check.encode (byte_of_Z v :: h).

Definition is_version (v : option Z) (n : Z) : bool :=
  match v with
  | Some x => x =? n
  | None => false
  end.

(** [address.fromBech32]: the string is read as bech32 first, which must
    carry witness version 0, and as bech32m when that fails, which must
    not. *)
Definition fromBech32 (address : string) : result Bech32Result :=
  r ← match Bech32.decode Bech32.bech32 address with
      | Ok r =>
          if negb (is_version (head (Bech32.words r)) 0)
          then Throw (TypeError "uses wrong encoding")
          else Ok r
      | Throw _ =>
          r ← Bech32.decode Bech32.bech32m address;
          if is_version (head (Bech32.words r)) 0
          then Throw (TypeError "uses wrong encoding")
          else Ok r
      end;
  d ← Bech32.fromWords (skipn 1 (Bech32.words r));
  Ok {| version := head (Bech32.words r); prefix := Bech32.prefix r; data := d |}.

(** [address.toBech32]. *)
Definition toBech32 (d : bytes) (v : Z) (pre : string) : result string :=
  Bech32.encode (if v =? 0 then Bech32.bech32 else Bech32.bech32m) pre
    (v :: Bech32.toWords d).

(** A payment, reduced to the two properties the callers read. [address]
    is computed on access, hence a [result] of its own. *)
Record Payment : Type :=
  { address : result string; output : bytes }.

(** [payments.p2pkh({ pubkey, network })]. *)
Definition p2pkh (pubkey : bytes) (network : Network) : result Payment :=
  if negb (Ecc.isPoint pubkey)
  then Throw (TypeError "Expected property pubkey of type ?isPoint")
  else
    let h := Crypto.hash160 pubkey in
    Ok {| address := Ok (toBase58Check h (pubKeyHash network));
          output := [x76; xa9; x14] ++ h ++ [x88; xac] |}.

(** [payments.p2wpkh({ pubkey, network })]. *)
Definition p2wpkh (pubkey : bytes) (network : Network) : result Payment :=
  if negb (Ecc.isPoint pubkey)
  then Throw (TypeError "Expected property pubkey of type ?isPoint")
  else if negb (length pubkey =? 33)%nat
  then Throw (TypeError "Invalid pubkey for p2wpkh")
  else
    let h := Crypto.hash160 pubkey in
    Ok {| address := toBech32 h 0 (bech32 network);
          output := [x00; x14] ++ h |}.

(** [payments.p2sh({ network, redeem })] for a redeem payment made on the
    same network and carrying an output but no input. *)
Definition p2sh (redeem : Payment) (network : Network) : result Payment :=
  if (length (output redeem) <? 1)%nat
  then Throw (TypeError "Redeem.output too short")
  else if (520 <? length (output redeem))%nat
  then Throw (TypeError "Redeem.output unspendable if larger than 520 bytes")
  else
    let h := Crypto.hash160 (output redeem) in
    Ok {| address := Ok (toBase58Check h (scriptHash network));
          output := [xa9; x14] ++ h ++ [x87] |}.

(** [tweakKey(pubKey, undefined)] of [payments/bip341]. *)
Definition tweakKey (pubKey : bytes) : option bytes :=
  if negb (length pubKey =? 32)%nat then None
  else Ecc.xOnlyPointAddTweak pubKey (Crypto.taggedHash "TapTweak" pubKey).

(** [payments.p2tr({ internalPubkey, network })]. *)
Definition p2tr (internalPubkey : bytes) (network : Network) : result Payment :=
  if negb (length internalPubkey =? 32)%nat
  then Throw (TypeError "Expected property internalPubkey of type Buffer(Length: 32)")
  else
    match tweakKey internalPubkey with
    | None => Throw (TypeError "Cannot read properties of null")
    | Some pubkey =>
        if negb (Ecc.isXOnlyPoint pubkey)
        then Throw (TypeError "Invalid pubkey for p2tr")
        else
          Ok {| address := toBech32 pubkey 1 (bech32 network);
                output := [x51; x20] ++ pubkey |}
    end.

(** [address.toOutputScript(address, network)]. The base58check reading
    is tried first and, when it succeeds, decides alone; the bech32 reading
    is tried only when the first one throws. The payments are made from a
    hash, or for taproot from the output key, which [payments.p2tr] checks
    to be a point. A witness program of a version from 2 to 16 and of 2 to
    40 bytes is compiled as it is (with a warning on the console). *)
Definition toOutputScript (address : string) (network : Network) : result bytes :=
  match fromBase58Check address with
  | Ok decodeBase58 =>
      if version58 decodeBase58 =? pubKeyHash network
      then Ok ([x76; xa9; x14] ++ hash decodeBase58 ++ [x88; xac])
      else if version58 decodeBase58 =? scriptHash network
      then Ok ([xa9; x14] ++ hash decodeBase58 ++ [x87])
      else Throw (Error (address ++ " has no matching Script"))
  | Throw _ =>
      match fromBech32 address with
      | Ok decodeBech32 =>
          if negb (String.eqb (prefix decodeBech32) (bech32 network))
          then Throw (Error (address ++ " has an invalid prefix"))
          else if is_version (version decodeBech32) 0 then
            if (length (data decodeBech32) =? 20)%nat
            then Ok ([x00; x14] ++ data decodeBech32)
            else if (length (data decodeBech32) =? 32)%nat
            then Ok ([x00; x20] ++ data decodeBech32)
            else Throw (Error (address ++ " has no matching Script"))
          else if is_version (version decodeBech32) 1 then
            if (length (data decodeBech32) =? 32)%nat
            then
              if negb (Ecc.isXOnlyPoint (data decodeBech32))
              then Throw (TypeError "Invalid pubkey for p2tr")
              else Ok ([x51; x20] ++ data decodeBech32)
            else Throw (Error (address ++ " has no matching Script"))
          else
            match version decodeBech32 with
            | Some v =>
                if (2 <=? v) && (v <=? 16)
                   && (2 <=? length (data decodeBech32))%nat
                   && (length (data decodeBech32) <=? 40)%nat
                then Ok ([byte_of_Z (v + 0x50);
                          byte_of_Z (Z.of_nat (length (data decodeBech32)))]
                           ++ data decodeBech32)
                else Throw (Error (address ++ " has no matching Script"))
            | None => Throw (Error (address ++ " has no matching Script"))
            end
      | Throw _ => Throw (Error (address ++ " has no matching Script"))
      end
  end.

End Bitcoin.

(** ** Helpers of the package that are not among the sources *)

(** Modelled from the spec: [remove0x] of [../utils], of which only the
    calls are in the sources. It strips an optional ['0x'] prefix. *)
Definition remove0x (hex : string) : string :=
  match hex with
  | String "0" (String "x" rest) => rest
  | _ => hex
  end.

(** Modelled from the spec: [toXOnly] of [../utils]. The x-only form of a
    public key: a 32-byte key as it is, otherwise the 32 bytes that follow
    the parity byte. *)
Definition toXOnly (pubKey : bytes) : bytes :=
  if (length pubKey =? 32)%nat then pubKey else Buffer.subarray 1 33 pubKey.

(** Modelled from the spec: [NetworkType] of [../preset/types]. *)
Inductive NetworkType : Type := MAINNET | TESTNET | REGTEST.

(** Modelled from the spec: [networkTypeToNetwork] of [../preset/network],
    the prefix table of each network type. *)
Definition networkTypeToNetwork (networkType : NetworkType) : Bitcoin.Network :=
  match networkType with
  | MAINNET => Bitcoin.bitcoin
  | TESTNET => Bitcoin.testnet
  | REGTEST => Bitcoin.regtest
  end.

(** ** address.ts *)

Module Address.

Inductive AddressType : Type :=
| P2PKH
| P2WPKH
| P2TR
| P2SH_P2WPKH
| P2WSH
| P2SH
| UNKNOWN.

#[global] Instance AddressType_eq_dec : EqDecision AddressType.
Proof. solve_decision. Defined.

#[global] Instance NetworkType_eq_dec : EqDecision NetworkType.
Proof. solve_decision. Defined.

(** [AddressToPubkeyMap = Record<string, string>]. *)
Abbreviation AddressToPubkeyMap := (gmap string string).

Record DecodedAddress : Type :=
  { networkType : NetworkType; addressType : AddressType; dust : Z }.

Definition getAddressTypeDust (addressType : AddressType) : Z :=
  match addressType with
  | P2WPKH => 294
  | P2TR => 330
  | _ => 546
  end.

(** [publicKeyToPayment]; [undefined] is [None]. *)
Definition publicKeyToPayment (publicKey : string) (addressType : AddressType)
    (networkType : NetworkType) : result (option Bitcoin.Payment) :=
  if negb (truthy (Some publicKey)) then Ok None
  else
    let network := networkTypeToNetwork networkType in
    let pubkey := Buffer.from_hex (remove0x publicKey) in
    match addressType with
    | P2PKH => p ← Bitcoin.p2pkh pubkey network; Ok (Some p)
    | P2WPKH => p ← Bitcoin.p2wpkh pubkey network; Ok (Some p)
    | P2TR => p ← Bitcoin.p2tr (toXOnly pubkey) network; Ok (Some p)
    | P2SH_P2WPKH =>
        data ← Bitcoin.p2wpkh pubkey network;
        p ← Bitcoin.p2sh data network;
        Ok (Some p)
    | _ => Ok None
    end.

Definition publicKeyToAddress (publicKey : string) (addressType : AddressType)
    (networkType : NetworkType) : result string :=
  payment ← publicKeyToPayment publicKey addressType networkType;
  match payment with
  | Some p =>
      a ← Bitcoin.address p;
      if truthy (Some a) then Ok a
      else Throw (newTxBuildError UNSUPPORTED_ADDRESS_TYPE)
  | None => Throw (newTxBuildError UNSUPPORTED_ADDRESS_TYPE)
  end.

(** The two [if] chains of the bech32 branch of [decodeAddress]. *)
Definition bech32NetworkType (decodeBech32 : Bitcoin.Bech32Result)
    : option NetworkType :=
  if String.eqb (Bitcoin.prefix decodeBech32) (Bitcoin.bech32 Bitcoin.bitcoin)
  then Some MAINNET
  else if String.eqb (Bitcoin.prefix decodeBech32) (Bitcoin.bech32 Bitcoin.testnet)
  then Some TESTNET
  else if String.eqb (Bitcoin.prefix decodeBech32) (Bitcoin.bech32 Bitcoin.regtest)
  then Some REGTEST
  else None.

Definition bech32AddressType (decodeBech32 : Bitcoin.Bech32Result)
    : option AddressType :=
  if Bitcoin.is_version (Bitcoin.version decodeBech32) 0 then
    if (length (Bitcoin.data decodeBech32) =? 20)%nat then Some P2WPKH
    else if (length (Bitcoin.data decodeBech32) =? 32)%nat then Some P2WSH
    else None
  else if Bitcoin.is_version (Bitcoin.version decodeBech32) 1 then
    if (length (Bitcoin.data decodeBech32) =? 32)%nat then Some P2TR
    else None
  else None.

(** The [if] chain of the base58check branch: it sets the network type
    and the address type together. *)
Definition base58Types (decodeBase58 : Bitcoin.Base58CheckResult)
    : option NetworkType * option AddressType :=
  let version := Bitcoin.version58 decodeBase58 in
  if version =? Bitcoin.pubKeyHash Bitcoin.bitcoin then (Some MAINNET, Some P2PKH)
  else if version =? Bitcoin.pubKeyHash Bitcoin.testnet then (Some TESTNET, Some P2PKH)
  else if version =? Bitcoin.pubKeyHash Bitcoin.regtest then (Some REGTEST, Some P2PKH)
  else if version =? Bitcoin.scriptHash Bitcoin.bitcoin
  then (Some MAINNET, Some P2SH_P2WPKH)
  else if version =? Bitcoin.scriptHash Bitcoin.testnet
  then (Some TESTNET, Some P2SH_P2WPKH)
  else if version =? Bitcoin.scriptHash Bitcoin.regtest
  then (Some REGTEST, Some P2SH_P2WPKH)
  else (None, None).

(** What a branch of [decodeAddress] leaves in its variables [networkType]
    and [addressType] when its [try] block reaches the final test; a [Throw]
    is an exception raised inside the block. They serve to state what
    [decodeAddress] returns. *)
Definition bech32Branch (address : string)
    : result (option NetworkType * option AddressType) :=
  decodeBech32 ← Bitcoin.fromBech32 address;
  Ok (bech32NetworkType decodeBech32, bech32AddressType decodeBech32).

Definition base58Branch (address : string)
    : result (option NetworkType * option AddressType) :=
  decodeBase58 ← Bitcoin.fromBase58Check address;
  Ok (base58Types decodeBase58).

Definition isBech32Prefixed (address : string) : bool :=
  String.prefix "bc1" address || String.prefix "tb1" address
  || String.prefix "bcrt1" address.

(** The branch that [decodeAddress] takes for this address. *)
Definition takenBranch (address : string)
    : result (option NetworkType * option AddressType) :=
  if isBech32Prefixed address then bech32Branch address else base58Branch address.

Definition fallback : DecodedAddress :=
  {| addressType := UNKNOWN; networkType := MAINNET; dust := 546 |}.

(** [decodeAddress]. A [try] block yields [Some d] when it returns [d]
    from the function and [None] when it runs to its end; a [Throw] inside
    it is caught by a [catch] that does nothing. The last two reach the
    final [return]. *)
Definition decodeAddress (address : string) : result DecodedAddress :=
  if String.prefix "bc1" address || String.prefix "tb1" address
     || String.prefix "bcrt1" address
  then
    match
      decodeBech32 ← Bitcoin.fromBech32 address;
      match bech32NetworkType decodeBech32, bech32AddressType decodeBech32 with
      | Some networkType, Some addressType =>
          Ok (Some {| networkType := networkType;
                      addressType := addressType;
                      dust := getAddressTypeDust addressType |})
      | _, _ => Ok None
      end
    with
    | Ok (Some d) => Ok d
    | Ok None => Ok fallback
    | Throw _ => Ok fallback
    end
  else
    match
      decodeBase58 ← Bitcoin.fromBase58Check address;
      match base58Types decodeBase58 with
      | (Some networkType, Some addressType) =>
          Ok (Some {| networkType := networkType;
                      addressType := addressType;
                      dust := getAddressTypeDust addressType |})
      | _ => Ok None
      end
    with
    | Ok (Some d) => Ok d
    | Ok None => Ok fallback
    | Throw _ => Ok fallback
    end.

Definition getAddressType (address : string) : result AddressType :=
  d ← decodeAddress address; Ok (addressType d).

Definition isSupportedFromAddress (address : string) : result bool :=
  d ← decodeAddress address;
  Ok (bool_decide (addressType d = P2WPKH) || bool_decide (addressType d = P2TR)
      || bool_decide (addressType d = P2SH)
      || bool_decide (addressType d = P2SH_P2WPKH)).

(** [addAddressToPubkeyMap]. *)
Definition addAddressToPubkeyMap (pubkeyMap : AddressToPubkeyMap)
    (address : string) (pubkey : option string) : AddressToPubkeyMap :=
  match pubkey with
  | Some pk => if truthy pubkey then <[address := pk]> pubkeyMap else pubkeyMap
  | None => pubkeyMap
  end.

(** [addressToScriptPublicKey]. *)
Definition addressToScriptPublicKey (address : string) (networkType : NetworkType)
    : result bytes :=
  let network := networkTypeToNetwork networkType in
  Bitcoin.toOutputScript address network.

(** [addressToScriptPublicKeyHex]. *)
Definition addressToScriptPublicKeyHex (address : string)
    (networkType : NetworkType) : result string :=
  scriptPk ← addressToScriptPublicKey address networkType;
  Ok (Buffer.to_hex scriptPk).

(** [isValidAddress]. *)
Definition isValidAddress (address : string) (networkType : NetworkType)
    : result bool :=
  match Bitcoin.toOutputScript address (networkTypeToNetwork networkType) with
  | Ok _ => Ok true
  | Throw _ => Ok false
  end.

End Address.

(** ** script.ts and the PSBT input *)

Module Script.

(** Modelled from the spec: [isP2trScript] of [../script], of which only
    the call is in the sources. A script is taproot-shaped when it is
    [OP_1] followed by the push of 32 bytes. The functions of [utxo.ts]
    below take the predicate as a parameter; this one serves to run them. *)
Definition isP2trScript (script : string) : bool :=
  let b := Buffer.from_hex (remove0x script) in
  (length b =? 34)%nat && (Z_of_byte (nth 0 b x00) =? 0x51)
  && (Z_of_byte (nth 1 b x00) =? 0x20).

End Script.

Module Psbt.

Record WitnessUtxo : Type := { value : Z; script : bytes }.

(** The object literal [data] that [utxoToInput] builds; a property it
    does not set is [None]. *)
Record PsbtInput : Type :=
  { hash : string;
    index : Z;
    witnessUtxo : WitnessUtxo;
    tapInternalKey : option bytes;
    redeemScript : option bytes }.

End Psbt.

(** ** transaction/utxo.ts *)

Module Utxo.

Import Address.

Record Utxo : Type :=
  { txid : string;
    vout : Z;
    value : Z;
    scriptPk : string;
    addressType : AddressType;
    address : string;
    pubkey : option string }.

(** [TxInput] of [./build]. *)
Record TxInput : Type := { data : Psbt.PsbtInput; utxo : Utxo }.

Definition utxoToInput (utxo : Utxo) : result TxInput :=
  match addressType utxo with
  | P2WPKH =>
      let data :=
        {| Psbt.hash := txid utxo;
           Psbt.index := vout utxo;
           Psbt.witnessUtxo :=
             {| Psbt.value := value utxo;
                Psbt.script := Buffer.from_hex (remove0x (scriptPk utxo)) |};
           Psbt.tapInternalKey := None;
           Psbt.redeemScript := None |} in
      Ok {| data := data; utxo := utxo |}
  | P2TR =>
      match pubkey utxo with
      | Some pk =>
          if negb (truthy (pubkey utxo))
          then Throw (withComment MISSING_PUBKEY (address utxo))
          else
            let data :=
              {| Psbt.hash := txid utxo;
                 Psbt.index := vout utxo;
                 Psbt.witnessUtxo :=
                   {| Psbt.value := value utxo;
                      Psbt.script := Buffer.from_hex (remove0x (scriptPk utxo)) |};
                 Psbt.tapInternalKey :=
                   Some (toXOnly (Buffer.from_hex (remove0x pk)));
                 Psbt.redeemScript := None |} in
            Ok {| data := data; utxo := utxo |}
      | None => Throw (withComment MISSING_PUBKEY (address utxo))
      end
  | P2SH =>
      let data :=
        {| Psbt.hash := txid utxo;
           Psbt.index := vout utxo;
           Psbt.witnessUtxo :=
             {| Psbt.value := value utxo;
                Psbt.script := Buffer.from_hex (scriptPk utxo) |};
           Psbt.tapInternalKey := None;
           Psbt.redeemScript := None |} in
      Ok {| data := data; utxo := utxo |}
  | P2SH_P2WPKH =>
      match pubkey utxo with
      | Some pk =>
          if negb (truthy (pubkey utxo))
          then Throw (withComment MISSING_PUBKEY (address utxo))
          else
            redeemData ← Bitcoin.p2wpkh (Buffer.from_hex pk) Bitcoin.bitcoin;
            let data :=
              {| Psbt.hash := txid utxo;
                 Psbt.index := vout utxo;
                 Psbt.witnessUtxo :=
                   {| Psbt.value := value utxo;
                      Psbt.script := Buffer.from_hex (scriptPk utxo) |};
                 Psbt.tapInternalKey := None;
                 Psbt.redeemScript := Some (Bitcoin.output redeemData) |} in
            Ok {| data := data; utxo := utxo |}
      | None => Throw (withComment MISSING_PUBKEY (address utxo))
      end
  | _ => Throw (newTxBuildError UNSUPPORTED_ADDRESS_TYPE)
  end.

(** The [options] argument of [fillUtxoPubkey]. *)
Record FillOptions : Type := { requirePubkey : option bool }.

(** [options?.requirePubkey] as a condition. *)
Definition requiresPubkey (options : option FillOptions) : bool :=
  match options with
  | Some o => default false (requirePubkey o)
  | None => false
  end.

(** The external data source, reduced to the capability used here. A
    rejected promise is a [Throw]. *)
Record DataSource : Type :=
  { isTransactionConfirmed : string -> result bool }.

Record PrepareProps : Type :=
  { utxos : list Utxo;
    source : DataSource;
    props_requirePubkey : option bool;
    requireConfirmed : option bool;
    pubkeyMap : option AddressToPubkeyMap }.

(** [`${n}`] for an integer. *)
Definition numberToString (n : Z) : string := NilZero.string_of_int (Z.to_int n).

(** [Promise.all] over promises whose outcomes are [outcomes] and which
    settle in the order [settled] (positions in the list): it rejects with
    the reason of the first promise to reject and otherwise resolves with
    every value. A rejected promise left out of [settled] still rejects the
    whole. *)
Fixpoint firstRejection {A : Type} (outcomes : list (result A))
    (settled : list nat) : option exn :=
  match settled with
  | [] => None
  | i :: rest =>
      match outcomes !! i with
      | Some (Throw e) => Some e
      | _ => firstRejection outcomes rest
      end
  end.

Definition promiseAll {A : Type} (outcomes : list (result A))
    (settled : list nat) : result (list A) :=
  match firstRejection outcomes settled with
  | Some e => Throw e
  | None => mapM (fun o => o) outcomes
  end.

Section WithScript.

(** [isP2trScript] of [../script] is a parameter. *)
Variable isP2trScript : string -> bool.

(** [cloneDeep] copies a value; values are immutable here. *)
Definition fillUtxoPubkey (utxo : Utxo) (pubkeyMap : AddressToPubkeyMap)
    (options : option FillOptions) : result Utxo :=
  let newUtxo := utxo in
  if isP2trScript (scriptPk newUtxo) && negb (truthy (pubkey newUtxo))
  then
    let pubkey := pubkeyMap !! address newUtxo in
    if requiresPubkey options && negb (truthy pubkey)
    then Throw (withComment MISSING_PUBKEY (address newUtxo))
    else if truthy pubkey
    then Ok {| txid := txid newUtxo;
               vout := vout newUtxo;
               value := value newUtxo;
               scriptPk := scriptPk newUtxo;
               addressType := addressType newUtxo;
               address := address newUtxo;
               pubkey := pubkey |}
    else Ok newUtxo
  else Ok newUtxo.

(** The task handed to [limitPromiseBatchSize] for one UTXO. *)
Definition confirmationCheck (source : DataSource) (utxo : Utxo) : result unit :=
  transactionConfirmed ← isTransactionConfirmed source (txid utxo);
  if negb transactionConfirmed
  then Throw (withComment UNCONFIRMED_UTXO
                ("hash: " ++ txid utxo ++ ", index: " ++ numberToString (vout utxo))%string)
  else Ok tt.

(** [prepareUtxoInputs]. [settled] is the order in which the confirmation
    checks settle, which the data source decides. *)
Definition prepareUtxoInputs (props : PrepareProps) (settled : list nat)
    : result (list Utxo) :=
  let pubkeyMap := default ∅ (pubkeyMap props) in
  utxos ← mapM (fun utxo =>
                  fillUtxoPubkey utxo pubkeyMap
                    (Some {| requirePubkey := props_requirePubkey props |}))
            (utxos props);
  if default false (requireConfirmed props)
  then
    _ ← promiseAll (map (confirmationCheck (source props)) utxos) settled;
    Ok utxos
  else Ok utxos.

End WithScript.

End Utxo.

(** * Notions used in the statements and the proofs *)

(** ** Digits *)

(** A digit list that does not start with a zero. *)
Definition no_leading_zero (l : list Z) : Prop :=
  match l with
  | [] => True
  | d :: _ => d <> 0
  end.

(** The [q] low digits of [x] in base [2 ^ w], most significant first. *)
Fixpoint fixed_digits (w : Z) (q : nat) (x : Z) : list Z :=
  match q with
  | O => []
  | S q' => fixed_digits w q' (Z.shiftr x w) ++ [Z.land x (Z.ones w)]
  end.

(** The zero bits that [toWords] appends to [n] bytes, and the number of
    words it returns. *)
Definition padding (n : nat) : Z := (- (8 * Z.of_nat n)) mod 5.

Definition word_count (n : nat) : nat :=
  Z.to_nat ((8 * Z.of_nat n + padding n) / 5).

Section Reads.

Variables inBits outBits : Z.

(** What the accumulator of [convert] holds after the digits [pre]: their
    value, the number of bits not yet written, and the digits written. *)
Definition reads (pre : list Z) (a : Bech32.Acc) : Prop :=
  Bech32.value a = of_base (2 ^ inBits) pre
  /\ Bech32.nbits a = (inBits * Z.of_nat (length pre)) mod outBits
  /\ Bech32.out a
     = fixed_digits outBits
         (Z.to_nat ((inBits * Z.of_nat (length pre)) / outBits))
         (Z.shiftr (Bech32.value a) (Bech32.nbits a)).

End Reads.

(** ** bech32 *)

(** One step of the checksum over a word, as in [encode] and [decode]. *)
Definition checksumStep (chk v : Z) : Z := Z.lxor (Bech32.polymodStep chk) v.

Definition encoding_eqb (e e' : Bech32.encoding) : bool :=
  match e, e' with
  | Bech32.bech32, Bech32.bech32 | Bech32.bech32m, Bech32.bech32m => true
  | _, _ => false
  end.

(** ** Keys that give an address *)


(** ** Keys, UTXOs and data sources of the examples *)

(** The generator point of the curve as a public key, compressed and
    uncompressed. *)
Definition generator_key : string :=
  "0279be667ef9dcbbac55a06295ce870b07029bfcdb2dce28d959f2815b16f81798".

Definition uncompressed_generator_key : string :=
  "0479be667ef9dcbbac55a06295ce870b07029bfcdb2dce28d959f2815b16f81798483ada7726a3c4655da4fbfc0e1108a8fd17b448a68554199c47d08ffb10d4b8".

Module Samples.

Import Address Utxo.

(** The network type that [decodeAddress] reports for an address made for
    [networkType]: the regression-test network has the base58 version bytes
    of the test network, which [decodeAddress] tests first. *)
Definition decodedNetworkType (addressType : AddressType)
    (networkType : NetworkType) : NetworkType :=
  match addressType, networkType with
  | P2PKH, REGTEST | P2SH_P2WPKH, REGTEST => TESTNET
  | _, _ => networkType
  end.

(** The input built for [P2WPKH] and [P2SH]: the signing reference and the
    witness UTXO, nothing else. *)
Definition plainInput (utxo : Utxo) (script : bytes) : TxInput :=
  {| data :=
       {| Psbt.hash := txid utxo;
          Psbt.index := vout utxo;
          Psbt.witnessUtxo := {| Psbt.value := value utxo; Psbt.script := script |};
          Psbt.tapInternalKey := None;
          Psbt.redeemScript := None |};
     utxo := utxo |}.

(** A UTXO with another public key, another script, or both. *)
Definition withPubkey (utxo : Utxo) (pk : option string) : Utxo :=
  {| txid := txid utxo; vout := vout utxo; value := value utxo;
     scriptPk := scriptPk utxo; addressType := addressType utxo;
     address := address utxo; pubkey := pk |}.



(** The comment of the [UNCONFIRMED_UTXO] error raised for a UTXO. *)
Definition unconfirmedComment (utxo : Utxo) : string :=
  ("hash: " ++ txid utxo ++ ", index: " ++ numberToString (vout utxo))%string.

(** UTXOs locked to the generator key: native segwit, taproot (without
    its public key), and segwit wrapped in P2SH (with the uncompressed
    key). *)
Definition p2wpkh_utxo : Utxo :=
  {| txid := "96bccaadd3c8f59b2411e3d64ae4c1743532415f953fc4f9741a5fd7a0a34483";
     vout := 0;
     value := 10000;
     scriptPk := "0014751e76e8199196d454941c45d1b3a323f1433bd6";
     addressType := P2WPKH;
     address := "tb1qw508d6qejxtdg4y5r3zarvary0c5xw7kxpjzsx";
     pubkey := None |}.

Definition taproot_utxo : Utxo :=
  {| txid := "96bccaadd3c8f59b2411e3d64ae4c1743532415f953fc4f9741a5fd7a0a34483";
     vout := 0;
     value := 10000;
     scriptPk :=
       "5120da4710964f7852695de2da025290e24af6d8c281de5a0b902b7135fd9fd74d21";
     addressType := P2TR;
     address := "bc1pmfr3p9j00pfxjh0zmgp99y8zftmd3s5pmedqhyptwy6lm87hf5sspknck9";
     pubkey := None |}.

Definition wrapped_utxo : Utxo :=
  {| txid := "96bccaadd3c8f59b2411e3d64ae4c1743532415f953fc4f9741a5fd7a0a34483";
     vout := 1;
     value := 10000;
     scriptPk := "a914bcfeb728b584253d5f3f70bcb780e9ef218a68f487";
     addressType := P2SH_P2WPKH;
     address := "3JvL6Ymt8MVWiCNHC7oWU6nLeHNJKLZGLN";
     pubkey := Some uncompressed_generator_key |}.

Definition other_utxo : Utxo :=
  {| txid := "bc5168a4f90116fada921e185d4b018e784dc0f6266e539a3c092321c932700a";
     vout := 2;
     value := 546;
     scriptPk := "0014751e76e8199196d454941c45d1b3a323f1433bd6";
     addressType := P2WPKH;
     address := "tb1qw508d6qejxtdg4y5r3zarvary0c5xw7kxpjzsx";
     pubkey := None |}.



(** A source that reports the transaction of [taproot_utxo] as confirmed
    and every other one as unconfirmed, and a batch of two UTXOs of which
    it reports the second as unconfirmed. *)
Definition second_unconfirmed : DataSource :=
  {| isTransactionConfirmed := fun t => Ok (String.eqb t (txid taproot_utxo)) |}.

Definition two_utxos : PrepareProps :=
  {| utxos := [taproot_utxo; other_utxo];
     source := second_unconfirmed;
     props_requirePubkey := None;
     requireConfirmed := Some true;
     pubkeyMap := None |}.

End Samples.

(** ** The two steps of prepareUtxoInputs *)

(** The first statement of [prepareUtxoInputs]: the batch after
    [fillUtxoPubkey], or the error of the first UTXO that it rejects. *)
Definition filledUtxos (isP2trScript : string -> bool)
    (props : Utxo.PrepareProps) : result (list Utxo.Utxo) :=
  mapM (fun utxo =>
          Utxo.fillUtxoPubkey isP2trScript utxo
            (default ∅ (Utxo.pubkeyMap props))
            (Some {| Utxo.requirePubkey := Utxo.props_requirePubkey props |}))
       (Utxo.utxos props).

(** The same call on another batch. *)
Definition withUtxos (props : Utxo.PrepareProps) (batch : list Utxo.Utxo)
    : Utxo.PrepareProps :=
  {| Utxo.utxos := batch;
     Utxo.source := Utxo.source props;
     Utxo.props_requirePubkey := Utxo.props_requirePubkey props;
     Utxo.requireConfirmed := Utxo.requireConfirmed props;
     Utxo.pubkeyMap := Utxo.pubkeyMap props |}.

(** What [fillUtxoPubkey] may change in a UTXO: nothing, or the [pubkey] of
    a UTXO that had none, to the entry of the map for its address. *)
Definition filledFrom (pubkeyMap : Address.AddressToPubkeyMap)
    (u filled : Utxo.Utxo) : Prop :=
  filled = u
  \/ (truthy (Utxo.pubkey u) = false
      /\ truthy (pubkeyMap !! Utxo.address u) = true
      /\ filled = Samples.withPubkey u (pubkeyMap !! Utxo.address u)).

(** ** Further calls of the examples *)

Module Batches.

Import Address Utxo Samples.

(** A source that reports every transaction as confirmed. *)
Definition always_confirmed : DataSource :=
  {| isTransactionConfirmed := fun _ => Ok true |}.

(** A taproot UTXO without its key and a native segwit one, prepared with
    the key of the first in the map, both requirements set. *)
Definition keyed_batch : PrepareProps :=
  {| utxos := [taproot_utxo; p2wpkh_utxo];
     source := always_confirmed;
     props_requirePubkey := Some true;
     requireConfirmed := Some true;
     pubkeyMap := Some {[ address taproot_utxo := generator_key ]} |}.

Definition keyed_batch_prepared : list Utxo :=
  [withPubkey taproot_utxo (Some generator_key); p2wpkh_utxo].

(** The same batch without the map. *)
Definition keyless_batch : PrepareProps :=
  {| utxos := [p2wpkh_utxo; taproot_utxo];
     source := always_confirmed;
     props_requirePubkey := Some true;
     requireConfirmed := Some true;
     pubkeyMap := None |}.



(** The taproot UTXO with its key, and its input. *)
Definition taproot_input : TxInput :=
  {| data :=
       {| Psbt.hash := txid taproot_utxo;
          Psbt.index := vout taproot_utxo;
          Psbt.witnessUtxo :=
            {| Psbt.value := value taproot_utxo;
               Psbt.script := Buffer.from_hex (scriptPk taproot_utxo) |};
          Psbt.tapInternalKey :=
            Some (Buffer.from_hex
                    "79be667ef9dcbbac55a06295ce870b07029bfcdb2dce28d959f2815b16f81798");
          Psbt.redeemScript := None |};
     utxo := withPubkey taproot_utxo (Some generator_key) |}.

End Batches.

(** * Test vectors

    Published vectors of the hash functions and of the two encodings, and
    the addresses of the key of the generator point. *)

Example from_hex_plain : Buffer.from_hex "0014aB" = [x00; x14; xab].
Proof. reflexivity. Qed.

Example from_hex_0x : Buffer.from_hex "0x0014ab" = [].
Proof. reflexivity. Qed.

Example from_hex_odd : Buffer.from_hex "0014a" = [x00; x14].
Proof. reflexivity. Qed.

Example sha256_abc :
  Buffer.to_hex (Crypto.sha256 (bytes_of_string "abc"))
  = "ba7816bf8f01cfea414140de5dae2223b00361a396177a9cb410ff61f20015ad".
Proof. vm_compute. reflexivity. Qed.

Example sha256_two_blocks :
  Buffer.to_hex (Crypto.sha256 (bytes_of_string
    "abcdbcdecdefdefgefghfghighijhijkijkljklmklmnlmnomnopnopq"))
  = "248d6a61d20638b8e5c026930c3e6039a33ce45964ff2167f6ecedd419db06c1".
Proof. vm_compute. reflexivity. Qed.

Example ripemd160_abc :
  Buffer.to_hex (Crypto.ripemd160 (bytes_of_string "abc"))
  = "8eb208f7e05d987a9b044a8e98c6b087f15a0bfc".
Proof. vm_compute. reflexivity. Qed.

Example hash160_generator_key :
  Buffer.to_hex (Crypto.hash160 (Buffer.from_hex
    "0279be667ef9dcbbac55a06295ce870b07029bfcdb2dce28d959f2815b16f81798"))
  = "751e76e8199196d454941c45d1b3a323f1433bd6".
Proof. vm_compute. reflexivity. Qed.

Example tweak_generator_key :
  option_map Buffer.to_hex
    (Ecc.xOnlyPointAddTweak (be_of_Z 32 Ecc.Gx)
       (Crypto.taggedHash "TapTweak" (be_of_Z 32 Ecc.Gx)))
  = Some "da4710964f7852695de2da025290e24af6d8c281de5a0b902b7135fd9fd74d21".
Proof. vm_compute. reflexivity. Qed.

Example base58check_encode_p2pkh :
  Bs58check.encode
    (x00 :: Buffer.from_hex "751e76e8199196d454941c45d1b3a323f1433bd6")
  = "1BgGZ9tcN4rm9KBzDn7KprQz87SZ26SAMH".
Proof. vm_compute. reflexivity. Qed.

Example base58check_decode_p2pkh :
  Bs58check.decode "1BgGZ9tcN4rm9KBzDn7KprQz87SZ26SAMH"
  = Ok (x00 :: Buffer.from_hex "751e76e8199196d454941c45d1b3a323f1433bd6").
Proof. vm_compute. reflexivity. Qed.

Example base58check_bad_checksum :
  Bs58check.decode "1BgGZ9tcN4rm9KBzDn7KprQz87SZ26SAMJ"
  = Throw (Error "Invalid checksum").
Proof. vm_compute. reflexivity. Qed.

Example bech32_encode_p2wpkh :
  Bech32.encode Bech32.bech32 "bc"
    (0 :: Bech32.toWords
            (Buffer.from_hex "751e76e8199196d454941c45d1b3a323f1433bd6"))
  = Ok "bc1qw508d6qejxtdg4y5r3zarvary0c5xw7kv8f3t4".
Proof. vm_compute. reflexivity. Qed.

Example bech32_decode_p2wpkh :
  Bech32.decode Bech32.bech32 "tb1qw508d6qejxtdg4y5r3zarvary0c5xw7kxpjzsx"
  = Ok {| Bech32.prefix := "tb";
          Bech32.words := 0 :: Bech32.toWords
            (Buffer.from_hex "751e76e8199196d454941c45d1b3a323f1433bd6") |}.
Proof. vm_compute. reflexivity. Qed.

Example bech32m_encode_p2tr :
  Bech32.encode Bech32.bech32m "bc"
    (1 :: Bech32.toWords (Buffer.from_hex
       "da4710964f7852695de2da025290e24af6d8c281de5a0b902b7135fd9fd74d21"))
  = Ok "bc1pmfr3p9j00pfxjh0zmgp99y8zftmd3s5pmedqhyptwy6lm87hf5sspknck9".
Proof. vm_compute. reflexivity. Qed.

Example address_p2pkh_mainnet :
  Address.publicKeyToAddress generator_key Address.P2PKH MAINNET
  = Ok "1BgGZ9tcN4rm9KBzDn7KprQz87SZ26SAMH".
Proof. vm_compute. reflexivity. Qed.

Example address_p2pkh_testnet :
  Address.publicKeyToAddress generator_key Address.P2PKH TESTNET
  = Ok "mrCDrCybB6J1vRfbwM5hemdJz73FwDBC8r".
Proof. vm_compute. reflexivity. Qed.

Example address_p2wpkh_testnet :
  Address.publicKeyToAddress ("0x" ++ generator_key) Address.P2WPKH TESTNET
  = Ok "tb1qw508d6qejxtdg4y5r3zarvary0c5xw7kxpjzsx".
Proof. vm_compute. reflexivity. Qed.

Example address_p2sh_p2wpkh_mainnet :
  Address.publicKeyToAddress generator_key Address.P2SH_P2WPKH MAINNET
  = Ok "3JvL6Ymt8MVWiCNHC7oWU6nLeHNJKLZGLN".
Proof. vm_compute. reflexivity. Qed.

Example address_p2tr_mainnet :
  Address.publicKeyToAddress generator_key Address.P2TR MAINNET
  = Ok "bc1pmfr3p9j00pfxjh0zmgp99y8zftmd3s5pmedqhyptwy6lm87hf5sspknck9".
Proof. vm_compute. reflexivity. Qed.

Example decode_p2tr_mainnet :
  Address.decodeAddress
    "bc1pmfr3p9j00pfxjh0zmgp99y8zftmd3s5pmedqhyptwy6lm87hf5sspknck9"
  = Ok {| Address.networkType := MAINNET;
          Address.addressType := Address.P2TR;
          Address.dust := 330 |}.
Proof. vm_compute. reflexivity. Qed.

Example decode_p2sh_testnet :
  Address.decodeAddress "2NAUYAHhujozruyzpsFRP63mbrdaU5wnEpN"
  = Ok {| Address.networkType := TESTNET;
          Address.addressType := Address.P2SH_P2WPKH;
          Address.dust := 546 |}.
Proof. vm_compute. reflexivity. Qed.

Example decode_empty : Address.decodeAddress "" = Ok Address.fallback.
Proof. vm_compute. reflexivity. Qed.

(** * Properties *)

(** ** The result monad *)

Lemma bind_Ok {A B : Type} (a : A) (k : A -> result B) : (Ok a ≫= k) = k a.
Proof. reflexivity. Qed.

Lemma bind_Throw {A B : Type} (e : exn) (k : A -> result B) :
  (Throw e ≫= k) = Throw e.
Proof. reflexivity. Qed.

Lemma bind_Ok_inv {A B : Type} (r : result A) (k : A -> result B) (b : B) :
  (r ≫= k) = Ok b -> exists a, r = Ok a /\ k a = Ok b.
Proof. destruct r as [a | e]; [eauto | discriminate]. Qed.

(** ** Bytes and positional notation *)

Lemma Z_of_byte_range (b : byte) : 0 <= Z_of_byte b < 256.
Proof.
  unfold Z_of_byte. pose proof (Byte.to_N_bounded b). lia.
Qed.

Lemma byte_of_Z_of_byte (b : byte) : byte_of_Z (Z_of_byte b) = b.
Proof.
  unfold byte_of_Z. pose proof (Z_of_byte_range b) as Hr.
  rewrite Z.mod_small by exact Hr. unfold Z_of_byte.
  rewrite N2Z.id, Byte.of_to_N. reflexivity.
Qed.

Lemma Z_of_byte_of_Z (z : Z) : 0 <= z < 256 -> Z_of_byte (byte_of_Z z) = z.
Proof.
  intros Hr. unfold byte_of_Z. rewrite Z.mod_small by exact Hr.
  destruct (Byte.of_N (Z.to_N z)) as [b |] eqn:Hb.
  - apply Byte.to_of_N in Hb. unfold Z_of_byte. rewrite Hb. lia.
  - exfalso. pose proof (Byte.of_N_None_iff (Z.to_N z)) as [Hn _].
    specialize (Hn Hb). lia.
Qed.

Lemma map_byte_of_Z_of_byte (bs : bytes) : map byte_of_Z (map Z_of_byte bs) = bs.
Proof.
  induction bs as [| b bs IH]; cbn; [reflexivity |].
  now rewrite byte_of_Z_of_byte, IH.
Qed.

Lemma length_be_of_Z (n : nat) (z : Z) : length (be_of_Z n z) = n.
Proof.
  revert z. induction n as [| n IH]; intros z; cbn; [reflexivity |].
  rewrite length_app, IH. cbn. lia.
Qed.

Lemma length_le_of_Z (n : nat) (z : Z) : length (le_of_Z n z) = n.
Proof.
  revert z. induction n as [| n IH]; intros z; cbn; [reflexivity |].
  now rewrite IH.
Qed.

Lemma of_base_app (b : Z) (l : list Z) (d : Z) :
  of_base b (l ++ [d]) = of_base b l * b + d.
Proof. unfold of_base. now rewrite fold_left_app. Qed.

Lemma of_base_nonneg (b : Z) (l : list Z) :
  0 <= b -> Forall (fun d => 0 <= d) l -> 0 <= of_base b l.
Proof.
  intros Hb. induction l as [| d l IH] using rev_ind; intros Hl; [cbn; lia |].
  rewrite of_base_app. apply Forall_app in Hl as [Hl Hd].
  apply Forall_inv in Hd. specialize (IH Hl). nia.
Qed.

Lemma Z_of_be_of_base (bs : bytes) : Z_of_be bs = of_base 256 (map Z_of_byte bs).
Proof.
  unfold Z_of_be, of_base. generalize 0.
  induction bs as [| b bs IH]; intros acc; cbn; [reflexivity | apply IH].
Qed.

(** Leading zero digits do not change the value. *)
Lemma of_base_zeros (b : Z) (z : nat) (l : list Z) :
  of_base b (repeat 0 z ++ l) = of_base b l.
Proof.
  unfold of_base. induction z as [| z IH]; cbn; [reflexivity | exact IH].
Qed.

Lemma to_base_zero (b : Z) (fuel : nat) (n : Z) : n <= 0 -> to_base b fuel n = [].
Proof.
  intros Hn. destruct fuel; cbn; [reflexivity |].
  destruct (Z.leb_spec n 0); [reflexivity | lia].
Qed.

Lemma to_base_pos (b : Z) (fuel : nat) (n : Z) :
  0 < n -> to_base b (S fuel) n = to_base b fuel (n / b) ++ [n mod b].
Proof.
  intros Hn. cbn. destruct (Z.leb_spec n 0); [lia | reflexivity].
Qed.

Lemma to_base_range (b : Z) (fuel : nat) (n : Z) :
  0 < b -> Forall (fun d => 0 <= d < b) (to_base b fuel n).
Proof.
  intros Hb. revert n. induction fuel as [| f IH]; intros n; cbn; [constructor |].
  destruct (n <=? 0); [constructor |].
  apply Forall_app. split; [apply IH |].
  constructor; [| constructor]. apply Z.mod_pos_bound. exact Hb.
Qed.

Lemma div_lt_pow2 (b n : Z) (f : nat) :
  2 <= b -> 0 <= n < 2 ^ Z.of_nat (S f) -> 0 <= n / b < 2 ^ Z.of_nat f.
Proof.
  intros Hb [Hn0 Hn]. rewrite Nat2Z.inj_succ, Z.pow_succ_r in Hn by lia.
  split; [apply Z.div_pos; lia |].
  apply Z.div_lt_upper_bound; [lia |].
  assert (0 < 2 ^ Z.of_nat f) by (apply Z.pow_pos_nonneg; lia). nia.
Qed.

(** The digits of [n] give [n] back. *)
Lemma of_base_to_base (b : Z) (fuel : nat) (n : Z) :
  2 <= b -> 0 <= n < 2 ^ Z.of_nat fuel ->
  of_base b (to_base b fuel n) = n.
Proof.
  intros Hb. revert n. induction fuel as [| f IH]; intros n Hn.
  - cbn in *. lia.
  - destruct (Z.eq_dec n 0) as [-> | Hn0]; [reflexivity |].
    rewrite to_base_pos by lia. rewrite of_base_app.
    rewrite IH by (apply div_lt_pow2; [exact Hb | exact Hn]).
    pose proof (Z.div_mod n b). lia.
Qed.

Lemma no_leading_zero_app (l : list Z) (d : Z) :
  no_leading_zero (l ++ [d]) -> l <> [] -> no_leading_zero l.
Proof. destruct l; [congruence | cbn; auto]. Qed.

Lemma of_base_pos (b : Z) (l : list Z) :
  2 <= b -> Forall (fun d => 0 <= d < b) l -> no_leading_zero l -> l <> [] ->
  0 < of_base b l.
Proof.
  intros Hb. induction l as [| d l IH] using rev_ind; intros Hr Hz Hne;
    [congruence |].
  rewrite of_base_app. apply Forall_app in Hr as [Hl Hd].
  apply Forall_inv in Hd.
  destruct l as [| d0 l0].
  - cbn in *. lia.
  - assert (0 < of_base b (d0 :: l0)).
    { apply IH; [exact Hl | exact Hz | discriminate]. }
    nia.
Qed.

Lemma div_mod_digit (b q d : Z) :
  0 <= d < b -> (q * b + d) / b = q /\ (q * b + d) mod b = d.
Proof.
  intros Hd. split.
  - rewrite Z.div_add_l by lia. rewrite Z.div_small by lia. lia.
  - rewrite Z.add_comm, Z.mod_add by lia. apply Z.mod_small. lia.
Qed.

Lemma to_base_of_base (b : Z) (l : list Z) (fuel : nat) :
  2 <= b -> Forall (fun d => 0 <= d < b) l -> no_leading_zero l ->
  of_base b l < 2 ^ Z.of_nat fuel ->
  to_base b fuel (of_base b l) = l.
Proof.
  intros Hb. revert fuel.
  induction l as [| d l IH] using rev_ind; intros fuel Hr Hz Hlt.
  - apply to_base_zero. cbn. lia.
  - assert (Hpos : 0 < of_base b (l ++ [d])).
    { apply of_base_pos; auto. destruct l; discriminate. }
    apply Forall_app in Hr as [Hl Hd]. apply Forall_inv in Hd.
    rewrite of_base_app in *.
    assert (Hl0 : 0 <= of_base b l).
    { apply of_base_nonneg; [lia |]. eapply Forall_impl; [exact Hl |].
      cbn. intros; lia. }
    destruct fuel as [| f]; [cbn in Hlt; lia |].
    rewrite to_base_pos by exact Hpos.
    destruct (div_mod_digit b (of_base b l) d Hd) as [Hq Hr].
    rewrite Hq, Hr.
    f_equal. apply IH; [exact Hl | |].
    + destruct l as [| d0 l0]; [exact I |]. exact Hz.
    + assert (0 <= of_base b l * b + d < 2 ^ Z.of_nat (S f)) as Hrange by lia.
      apply (div_lt_pow2 b) in Hrange; [| exact Hb].
      rewrite Hq in Hrange. lia.
Qed.

Lemma digits_fuel_enough (n : Z) : 0 <= n -> n < 2 ^ Z.of_nat (digits_fuel n).
Proof.
  intros Hn. unfold digits_fuel.
  destruct (Z.eq_dec n 0) as [-> | Hn0]; [cbn; lia |].
  rewrite Nat2Z.inj_succ, Z2Nat.id by apply Z.log2_nonneg.
  apply Z.log2_spec. lia.
Qed.

(** The digits of a positive number start with a digit that is not zero. *)
Lemma to_base_no_leading_zero (b : Z) (fuel : nat) (n : Z) :
  2 <= b -> 0 <= n < 2 ^ Z.of_nat fuel -> no_leading_zero (to_base b fuel n).
Proof.
  intros Hb. revert n. induction fuel as [| f IH]; intros n Hn; [exact I |].
  destruct (Z.eq_dec n 0) as [-> | Hn0]; [exact I |].
  rewrite to_base_pos by lia.
  assert (Hq : 0 <= n / b < 2 ^ Z.of_nat f) by (apply div_lt_pow2; auto).
  specialize (IH _ Hq).
  destruct (to_base b f (n / b)) as [| d l] eqn:Hd; [| exact IH].
  cbn. assert (n / b = 0).
  { rewrite <- (of_base_to_base b f (n / b)) by auto. now rewrite Hd. }
  pose proof (Z.div_mod n b). lia.
Qed.

(** The first digit of a number between two consecutive powers. *)
Lemma to_base_head (b : Z) (k fuel : nat) (n : Z) :
  2 <= b -> n < 2 ^ Z.of_nat fuel ->
  b ^ Z.of_nat k <= n < b ^ Z.of_nat (S k) ->
  exists tl, to_base b fuel n = n / b ^ Z.of_nat k :: tl.
Proof.
  intros Hb. revert fuel n. induction k as [| k IH]; intros fuel n Hfuel Hn.
  - cbn in Hn. rewrite Z.pow_1_r in Hn.
    destruct fuel as [| f]; [cbn in Hfuel; lia |].
    rewrite to_base_pos by lia.
    rewrite (Z.div_small n b), (Z.mod_small n b) by lia.
    rewrite to_base_zero by lia. exists []. cbn. now rewrite Z.div_1_r.
  - assert (Hbk : 0 < b ^ Z.of_nat k) by (apply Z.pow_pos_nonneg; lia).
    rewrite !Nat2Z.inj_succ, !Z.pow_succ_r in Hn by lia.
    destruct fuel as [| f]; [cbn in Hfuel; nia |].
    rewrite to_base_pos by nia.
    destruct (IH f (n / b)) as [tl Htl].
    + apply (div_lt_pow2 b n f); [exact Hb | split; [nia | exact Hfuel]].
    + rewrite Nat2Z.inj_succ, Z.pow_succ_r by lia. split.
      * apply Z.div_le_lower_bound; lia.
      * apply Z.div_lt_upper_bound; lia.
    + rewrite Htl. exists (tl ++ [n mod b]).
      rewrite Nat2Z.inj_succ, Z.pow_succ_r by lia.
      rewrite Z.div_div by lia. reflexivity.
Qed.

Lemma of_base_bound (b : Z) (l : list Z) :
  2 <= b -> Forall (fun d => 0 <= d < b) l ->
  0 <= of_base b l < b ^ Z.of_nat (length l).
Proof.
  intros Hb. induction l as [| d l IH] using rev_ind; intros Hl; [cbn; lia |].
  apply Forall_app in Hl as [Hl Hd]. apply Forall_inv in Hd.
  rewrite of_base_app, length_app. cbn [length].
  replace (Z.of_nat (length l + 1)) with (Z.succ (Z.of_nat (length l))) by lia.
  rewrite Z.pow_succ_r by lia. specialize (IH Hl). nia.
Qed.

Lemma of_base_cons (b d : Z) (l : list Z) :
  of_base b (d :: l) = d * b ^ Z.of_nat (length l) + of_base b l.
Proof.
  induction l as [| x l IH] using rev_ind; [cbn; lia |].
  change (d :: l ++ [x]) with ((d :: l) ++ [x]).
  rewrite !of_base_app, IH, length_app. cbn [length].
  replace (Z.of_nat (length l + 1)) with (Z.succ (Z.of_nat (length l))) by lia.
  rewrite Z.pow_succ_r by lia. ring.
Qed.

Lemma Z_of_be_cons (b : byte) (l : bytes) :
  Z_of_be (b :: l) = Z_of_byte b * 256 ^ Z.of_nat (length l) + Z_of_be l.
Proof.
  rewrite !Z_of_be_of_base. cbn [map]. rewrite of_base_cons, length_map.
  reflexivity.
Qed.

Lemma Z_of_be_bound (l : bytes) : 0 <= Z_of_be l < 256 ^ Z.of_nat (length l).
Proof.
  rewrite Z_of_be_of_base, <- (length_map Z_of_byte l).
  apply of_base_bound; [lia |]. apply Forall_forall. intros d Hd.
  apply list_elem_of_In, in_map_iff in Hd as [x [<- _]]. apply Z_of_byte_range.
Qed.

(** ** Sizes of the hashes and of a tweaked key *)

Lemma sha256_length (msg : bytes) : length (Crypto.sha256 msg) = 32%nat.
Proof.
  unfold Crypto.sha256, Crypto.digest256.
  rewrite !length_app, !length_be_of_Z. reflexivity.
Qed.

Lemma ripemd160_length (msg : bytes) : length (Crypto.ripemd160 msg) = 20%nat.
Proof.
  unfold Crypto.ripemd160, Crypto.digest160.
  rewrite !length_app, !length_le_of_Z. reflexivity.
Qed.

Lemma xOnlyPointAddTweak_length (p tweak x : bytes) :
  Ecc.xOnlyPointAddTweak p tweak = Some x -> length x = 32%nat.
Proof.
  unfold Ecc.xOnlyPointAddTweak.
  destruct (negb (length p =? 32)%nat); [discriminate |].
  destruct (Ecc.lift_x (Z_of_be p)) as [pt |]; [| discriminate].
  destruct (Ecc.N <=? Z_of_be tweak); [discriminate |].
  destruct (Ecc.affine _) as [[x' y'] |]; [| discriminate].
  intros H. injection H as <-. reflexivity.
Qed.

(** The hash functions and the curve arithmetic stay folded in proofs;
    evaluation on concrete inputs goes through [vm_compute]. *)
#[global] Opaque Crypto.sha256 Crypto.ripemd160.
#[global] Opaque Ecc.isPoint Ecc.isXOnlyPoint Ecc.xOnlyPointAddTweak.

(** ** Lists *)

Lemma indexOf_nth (l : list ascii) (i : nat) (d : ascii) :
  NoDup l -> (i < length l)%nat -> indexOf (nth i l d) l = Some (Z.of_nat i).
Proof.
  intros Hnd. revert i. induction Hnd as [| a l Ha Hnd IH]; intros i Hi;
    [cbn in Hi; lia |].
  destruct i as [| i]; cbn [nth indexOf].
  - now rewrite Ascii.eqb_refl.
  - cbn in Hi. destruct (Ascii.eqb_spec (nth i l d) a) as [Heq | Hne].
    + exfalso. apply Ha. rewrite <- Heq. apply list_elem_of_In, nth_In. lia.
    + rewrite IH by lia. cbn. f_equal. lia.
Qed.

Lemma mapM_map_Some {A B : Type} (f : A -> option B) (g : B -> A) (l : list B) :
  Forall (fun x => f (g x) = Some x) l -> mapM f (map g l) = Some l.
Proof.
  induction 1 as [| x l Hx _ IH]; cbn; [reflexivity |].
  rewrite Hx. cbn. rewrite IH. reflexivity.
Qed.

Lemma leading_repeat {A : Type} (f : A -> bool) (x : A) (z : nat) (l : list A) :
  f x = true ->
  match l with [] => True | y :: _ => f y = false end ->
  leading f (repeat x z ++ l) = z.
Proof.
  intros Hx Hl. induction z as [| z IH]; cbn.
  - destruct l as [| y l]; [reflexivity |]. cbn. now rewrite Hl.
  - now rewrite Hx, IH.
Qed.

Lemma bytes_leading_zero (bs : bytes) :
  exists rest,
    bs = repeat x00 (leading (fun b => Z_of_byte b =? 0) bs) ++ rest
    /\ no_leading_zero (map Z_of_byte rest).
Proof.
  induction bs as [| b bs [rest [Hbs Hrest]]]; [exists []; split; [reflexivity | exact I] |].
  cbn [leading]. destruct (Z.eqb_spec (Z_of_byte b) 0) as [Hb | Hb].
  - exists rest. split; [| exact Hrest]. cbn. rewrite <- Hbs. f_equal.
    rewrite <- (byte_of_Z_of_byte b), Hb. reflexivity.
  - exists (b :: bs). split; [reflexivity | exact Hb].
Qed.

(** ** base-x and bs58check: decoding undoes encoding *)

Module Base58Props.

Lemma base58_alphabet_NoDup : NoDup Base58.ALPHABET.
Proof. apply (bool_decide_unpack _). vm_compute. exact I. Qed.

Lemma base58_indexOf_charAt (d : Z) :
  0 <= d < 58 -> indexOf (Base58.charAt d) Base58.ALPHABET = Some d.
Proof.
  intros Hd. unfold Base58.charAt.
  rewrite indexOf_nth; [f_equal; lia | apply base58_alphabet_NoDup |].
  change (length Base58.ALPHABET) with 58%nat. lia.
Qed.

Theorem decodeUnsafe_encode (source : bytes) :
  Base58.decodeUnsafe (Base58.encode source) = Some source.
Proof.
  unfold Base58.encode, Base58.decodeUnsafe.
  rewrite list_ascii_of_string_of_list_ascii.
  set (z := leading (fun b => Z_of_byte b =? 0) source).
  set (n := Z_of_be source).
  assert (Hn : 0 <= n).
  { unfold n. rewrite Z_of_be_of_base. apply of_base_nonneg; [lia |].
    apply Forall_forall. intros d Hd. apply list_elem_of_In, in_map_iff in Hd as [b [<- _]].
    apply Z_of_byte_range. }
  pose proof (digits_fuel_enough n Hn) as Hfuel.
  set (ds := to_base 58 (digits_fuel n) n).
  assert (Hds : Forall (fun d => 0 <= d < 58) ds) by (apply to_base_range; lia).
  assert (Hnz : no_leading_zero ds) by (apply to_base_no_leading_zero; lia).
  replace (repeat "1"%char z ++ map Base58.charAt ds)
    with (map Base58.charAt (repeat 0 z ++ ds))
    by (rewrite map_app, map_repeat; reflexivity).
  rewrite mapM_map_Some.
  2:{ apply Forall_app. split.
      - apply Forall_forall. intros d Hd. apply list_elem_of_In, repeat_spec in Hd as ->.
        reflexivity.
      - eapply Forall_impl; [exact Hds |]. intros d Hd. now apply base58_indexOf_charAt. }
  rewrite leading_repeat; [| reflexivity |].
  2:{ destruct ds as [| d ds']; [exact I |]. cbn in Hnz. now apply Z.eqb_neq. }
  rewrite of_base_zeros.
  assert (Hof : of_base 58 ds = n) by (apply of_base_to_base; lia).
  rewrite !Hof.
  destruct (bytes_leading_zero source) as [rest [Hsrc Hrest]].
  fold z in Hsrc.
  assert (Hval : n = of_base 256 (map Z_of_byte rest)).
  { unfold n. rewrite Hsrc at 1. rewrite Z_of_be_of_base, map_app, map_repeat.
    change (Z_of_byte x00) with 0. apply of_base_zeros. }
  assert (Hto : to_base 256 (digits_fuel n) n = map Z_of_byte rest).
  { transitivity (to_base 256 (digits_fuel n) (of_base 256 (map Z_of_byte rest)));
      [f_equal; exact Hval |].
    apply to_base_of_base; [lia | | exact Hrest | rewrite <- Hval; exact Hfuel].
    apply Forall_forall. intros d Hd.
    apply list_elem_of_In, in_map_iff in Hd as [b [<- _]]. apply Z_of_byte_range. }
  rewrite Hto, map_byte_of_Z_of_byte. now rewrite <- Hsrc.
Qed.

End Base58Props.

Lemma hash160_length (msg : bytes) : length (Crypto.hash160 msg) = 20%nat.
Proof. apply ripemd160_length. Qed.

Lemma hash256_length (msg : bytes) : length (Crypto.hash256 msg) = 32%nat.
Proof. apply sha256_length. Qed.

Module Bs58checkProps.

Lemma checksumFn_length (payload : bytes) :
  length (Bs58check.checksumFn payload) = 4%nat.
Proof.
  unfold Bs58check.checksumFn. rewrite length_firstn, hash256_length. reflexivity.
Qed.

Lemma decodeRaw_checksum (payload : bytes) :
  Bs58check.decodeRaw (payload ++ Bs58check.checksumFn payload) = Some payload.
Proof.
  unfold Bs58check.decodeRaw.
  rewrite length_app, checksumFn_length.
  replace (length payload + 4 - 4)%nat with (length payload) by lia.
  rewrite take_app_length, drop_app_length.
  unfold Bs58check.checksumFn.
  pose proof (hash256_length payload) as Hlen.
  destruct (Crypto.hash256 payload) as [| c0 [| c1 [| c2 [| c3 l]]]];
    try discriminate.
  cbn [firstn nth]. rewrite !Z.lxor_nilpotent. reflexivity.
Qed.

Theorem bs58check_decode_encode (payload : bytes) :
  Bs58check.decode (Bs58check.encode payload) = Ok payload.
Proof.
  unfold Bs58check.decode, Bs58check.encode.
  rewrite Base58Props.decodeUnsafe_encode, decodeRaw_checksum. reflexivity.
Qed.

End Bs58checkProps.

(** ** bitcoinjs-lib: base58check addresses *)

Module BitcoinProps.

Theorem fromBase58Check_toBase58Check (h : bytes) (v : Z) :
  length h = 20%nat -> 0 <= v < 256 ->
  Bitcoin.fromBase58Check (Bitcoin.toBase58Check h v)
  = Ok {| Bitcoin.hash := h; Bitcoin.version58 := v |}.
Proof.
  intros Hlen Hv. unfold Bitcoin.fromBase58Check, Bitcoin.toBase58Check.
  rewrite Bs58checkProps.bs58check_decode_encode. cbn [mbind result_bind length].
  rewrite Hlen. cbn [Nat.ltb Nat.leb nth skipn].
  now rewrite Z_of_byte_of_Z.
Qed.

End BitcoinProps.

(** ** The first character of a base58check address *)

Module Base58Head.

(** The string that encodes a buffer whose first byte is not zero starts
    with the leading base-58 digit of the buffer read as a number. *)
Lemma encode_head (b : byte) (l : bytes) (k : nat) (lo hi : Z) :
  Z_of_byte b <> 0 ->
  lo <= Z_of_be (b :: l) < hi ->
  58 ^ Z.of_nat k <= lo -> hi <= 58 ^ Z.of_nat (S k) ->
  exists d tl,
    Base58.encode (b :: l) = String (Base58.charAt d) tl
    /\ lo / 58 ^ Z.of_nat k <= d <= (hi - 1) / 58 ^ Z.of_nat k.
Proof.
  intros Hb Hn Hlo Hhi. unfold Base58.encode. cbn [leading].
  destruct (Z.eqb_spec (Z_of_byte b) 0) as [| _]; [contradiction |].
  cbn [repeat app].
  set (n := Z_of_be (b :: l)) in *.
  assert (H58 : 0 < 58 ^ Z.of_nat k) by (apply Z.pow_pos_nonneg; lia).
  destruct (to_base_head 58 k (digits_fuel n) n) as [tl Htl];
    [lia | apply digits_fuel_enough; lia | lia |].
  rewrite Htl. cbn [map string_of_list_ascii].
  do 2 eexists. split; [reflexivity |].
  split; apply Z.div_le_mono; lia.
Qed.

Lemma prefix_other (c a : ascii) (s t : string) :
  c <> a -> String.prefix (String a s) (String c t) = false.
Proof.
  intros Hne. cbn. destruct (ascii_dec a c) as [-> |]; [contradiction | reflexivity].
Qed.

Lemma not_bech32_prefixed (c : ascii) (t : string) :
  c <> "b"%char -> c <> "t"%char ->
  Address.isBech32Prefixed (String c t) = false.
Proof.
  intros Hb Ht. unfold Address.isBech32Prefixed.
  now rewrite !prefix_other.
Qed.

(** A base58check address made with one of the version bytes of the
    network tables starts with a character other than [b] and [t]. *)
Lemma toBase58Check_head (h : bytes) (v : Z) :
  length h = 20%nat ->
  v = 0x00 \/ v = 0x05 \/ v = 0x6f \/ v = 0xc4 ->
  exists c t,
    Bitcoin.toBase58Check h v = String c t /\ c <> "b"%char /\ c <> "t"%char.
Proof.
  intros Hlen Hv. unfold Bitcoin.toBase58Check, Bs58check.encode.
  change ((byte_of_Z v :: h) ++ Bs58check.checksumFn (byte_of_Z v :: h))
    with (byte_of_Z v :: (h ++ Bs58check.checksumFn (byte_of_Z v :: h))).
  set (l := h ++ Bs58check.checksumFn (byte_of_Z v :: h)).
  assert (Hl : length l = 24%nat).
  { unfold l. rewrite length_app, Hlen, Bs58checkProps.checksumFn_length.
    reflexivity. }
  destruct Hv as [-> | Hv].
  { (* a leading zero byte gives a leading '1' *)
    unfold Base58.encode. cbn [leading].
    change (Z_of_byte (byte_of_Z 0) =? 0) with true.
    cbn [repeat app string_of_list_ascii].
    do 2 eexists. split; [reflexivity | split; discriminate]. }
  pose proof (Z_of_be_cons (byte_of_Z v) l) as Hn. rewrite Hl in Hn.
  pose proof (Z_of_be_bound l) as Hb. rewrite Hl in Hb.
  assert (Hvb : Z_of_byte (byte_of_Z v) = v)
    by (apply Z_of_byte_of_Z; destruct Hv as [-> | [-> | ->]]; lia).
  rewrite Hvb in Hn.
  destruct Hv as [-> | [-> | ->]].
  - destruct (encode_head (byte_of_Z 5) l 33 (5 * 256 ^ 24) (6 * 256 ^ 24))
      as [d [tl [-> Hd]]]; [rewrite Hvb; lia | lia | vm_compute; discriminate
                            | vm_compute; discriminate |].
    change (5 * 256 ^ 24 / 58 ^ Z.of_nat 33) with 2 in Hd.
    change ((6 * 256 ^ 24 - 1) / 58 ^ Z.of_nat 33) with 2 in Hd.
    assert (d = 2) as -> by lia.
    do 2 eexists. split; [reflexivity | split; discriminate].
  - destruct (encode_head (byte_of_Z 111) l 33 (111 * 256 ^ 24) (112 * 256 ^ 24))
      as [d [tl [-> Hd]]]; [rewrite Hvb; lia | lia | vm_compute; discriminate
                            | vm_compute; discriminate |].
    change (111 * 256 ^ 24 / 58 ^ Z.of_nat 33) with 44 in Hd.
    change ((112 * 256 ^ 24 - 1) / 58 ^ Z.of_nat 33) with 45 in Hd.
    assert (d = 44 \/ d = 45) as [-> | ->] by lia;
      do 2 eexists; (split; [reflexivity | split; discriminate]).
  - destruct (encode_head (byte_of_Z 196) l 34 (196 * 256 ^ 24) (197 * 256 ^ 24))
      as [d [tl [-> Hd]]]; [rewrite Hvb; lia | lia | vm_compute; discriminate
                            | vm_compute; discriminate |].
    change (196 * 256 ^ 24 / 58 ^ Z.of_nat 34) with 1 in Hd.
    change ((197 * 256 ^ 24 - 1) / 58 ^ Z.of_nat 34) with 1 in Hd.
    assert (d = 1) as -> by lia.
    do 2 eexists. split; [reflexivity | split; discriminate].
Qed.

(** Such an address does not start with [bc1], [tb1] or [bcrt1]. *)
Theorem toBase58Check_not_bech32_prefixed (h : bytes) (v : Z) :
  length h = 20%nat ->
  v = 0x00 \/ v = 0x05 \/ v = 0x6f \/ v = 0xc4 ->
  Address.isBech32Prefixed (Bitcoin.toBase58Check h v) = false.
Proof.
  intros Hlen Hv.
  destruct (toBase58Check_head h v Hlen Hv) as (c & t & -> & Hb & Ht).
  now apply not_bech32_prefixed.
Qed.

End Base58Head.

(** ** bech32: the checksum *)

Module Bech32Checksum.

Import Bech32.

Lemma land_lxor_distr (a b m : Z) :
  Z.land (Z.lxor a b) m = Z.lxor (Z.land a m) (Z.land b m).
Proof.
  apply Z.bits_inj'. intros n _.
  rewrite !Z.lxor_spec, !Z.land_spec, Z.lxor_spec.
  destruct (Z.testbit a n), (Z.testbit b n), (Z.testbit m n); reflexivity.
Qed.

Lemma lxor_swap (a t g : Z) : Z.lxor (Z.lxor a t) g = Z.lxor (Z.lxor a g) t.
Proof.
  rewrite !Z.lxor_assoc. f_equal. apply Z.lxor_comm.
Qed.

Lemma lxor_cancel (x k : Z) : Z.lxor x (Z.lxor x k) = k.
Proof. now rewrite <- Z.lxor_assoc, Z.lxor_nilpotent, Z.lxor_0_l. Qed.

Lemma shiftr_small (t k : Z) : 0 <= k -> 0 <= t < 2 ^ k -> Z.shiftr t k = 0.
Proof.
  intros Hk Ht. rewrite Z.shiftr_div_pow2 by exact Hk. apply Z.div_small. exact Ht.
Qed.

Lemma land_ones_small (t k : Z) :
  0 <= k -> 0 <= t < 2 ^ k -> Z.land t (Z.ones k) = t.
Proof.
  intros Hk Ht. rewrite Z.land_ones by exact Hk. apply Z.mod_small. exact Ht.
Qed.

(** On a value below 2^25 a step of the checksum is a shift. *)
Lemma polymodStep_lxor_low (x t : Z) :
  0 <= t < 2 ^ 25 ->
  polymodStep (Z.lxor x t) = Z.lxor (polymodStep x) (Z.shiftl t 5).
Proof.
  intros Ht. unfold polymodStep.
  rewrite Z.shiftr_lxor, (shiftr_small t 25), Z.lxor_0_r by lia.
  change 0x1ffffff with (Z.ones 25).
  rewrite land_lxor_distr, (land_ones_small t 25), Z.shiftl_lxor by lia.
  rewrite !(lxor_swap _ (Z.shiftl t 5)). reflexivity.
Qed.

Lemma polymodStep_nonneg (x : Z) : 0 <= polymodStep x.
Proof.
  unfold polymodStep.
  repeat (apply Z.lxor_nonneg; split; intros _);
    try (apply Z.land_nonneg; right; lia).
  all: apply Z.shiftl_nonneg; apply Z.land_nonneg; right; lia.
Qed.

Lemma lxor_bound (a b k : Z) :
  0 <= k -> 0 <= a < 2 ^ k -> 0 <= b < 2 ^ k -> 0 <= Z.lxor a b < 2 ^ k.
Proof.
  intros Hk Ha Hb.
  assert (H0 : 0 <= Z.lxor a b) by (apply Z.lxor_nonneg; lia).
  split; [exact H0 |].
  rewrite <- (Z.mod_small a (2 ^ k)), <- (Z.mod_small b (2 ^ k)) by lia.
  rewrite <- !Z.land_ones, <- land_lxor_distr, Z.land_ones by lia.
  apply Z.mod_pos_bound. apply Z.pow_pos_nonneg; lia.
Qed.

Lemma land_bound (a m : Z) : 0 <= m -> 0 <= Z.land a m <= m.
Proof.
  intros Hm. split; [apply Z.land_nonneg; right; exact Hm |].
  destruct (Z.eq_dec (Z.land a m) 0) as [-> | Hne]; [exact Hm |].
  apply Z.ldiff_le; [exact Hm |].
  apply Z.bits_inj'. intros n _.
  rewrite Z.ldiff_spec, Z.land_spec, Z.bits_0.
  destruct (Z.testbit a n), (Z.testbit m n); reflexivity.
Qed.

Lemma polymodStep_bound (x : Z) : 0 <= polymodStep x < 2 ^ 30.
Proof.
  split; [apply polymodStep_nonneg |]. unfold polymodStep.
  repeat (apply lxor_bound; [lia | |]).
  - split; [apply Z.shiftl_nonneg; apply Z.land_nonneg; right; lia |].
    rewrite Z.shiftl_mul_pow2 by lia.
    pose proof (land_bound x 0x1ffffff). lia.
  - pose proof (land_bound (- Z.land (Z.shiftr (Z.shiftr x 25) 0) 1) 0x3b6a57b2). lia.
  - pose proof (land_bound (- Z.land (Z.shiftr (Z.shiftr x 25) 1) 1) 0x26508e6d). lia.
  - pose proof (land_bound (- Z.land (Z.shiftr (Z.shiftr x 25) 2) 1) 0x1ea119fa). lia.
  - pose proof (land_bound (- Z.land (Z.shiftr (Z.shiftr x 25) 3) 1) 0x3d4233dd). lia.
  - pose proof (land_bound (- Z.land (Z.shiftr (Z.shiftr x 25) 4) 1) 0x2a1462b3). lia.
Qed.

(** From here on a step of the checksum stays folded. *)
#[global] Opaque Bech32.polymodStep.

Lemma iter_6 {A : Type} (f : A -> A) (x : A) :
  Nat.iter 6 f x = f (f (f (f (f (f x))))).
Proof. reflexivity. Qed.

(** Five more bits of [e], from bit [k] up. *)
Lemma shiftr_chunk (e k : Z) :
  0 <= k ->
  Z.lxor (Z.shiftl (Z.shiftr e (k + 5)) 5) (Z.land (Z.shiftr e k) 0x1f)
  = Z.shiftr e k.
Proof.
  intros Hk. apply Z.bits_inj'. intros n Hn.
  rewrite Z.lxor_spec, Z.land_spec, Z.shiftl_spec by exact Hn.
  change 0x1f with (Z.ones 5).
  destruct (Z.lt_ge_cases n 5) as [Hlo | Hhi].
  - rewrite Z.testbit_neg_r by lia.
    rewrite Z.ones_spec_low by lia. now rewrite andb_true_r.
  - rewrite Z.ones_spec_high by lia.
    rewrite andb_false_r, xorb_false_r.
    rewrite !Z.shiftr_spec by lia. f_equal. lia.
Qed.

Lemma tail_step (x e k k' : Z) :
  k' = k + 5 -> 0 <= k -> k' <= 30 -> 0 <= e < 2 ^ 30 ->
  checksumStep (Z.lxor x (Z.shiftr e k')) (Z.land (Z.shiftr e k) 0x1f)
  = Z.lxor (polymodStep x) (Z.shiftr e k).
Proof.
  intros -> Hk Hk5 He. unfold checksumStep.
  rewrite polymodStep_lxor_low.
  - rewrite Z.lxor_assoc. f_equal. apply shiftr_chunk. exact Hk.
  - rewrite Z.shiftr_div_pow2 by lia. split.
    + apply Z.div_pos; [lia | apply Z.pow_pos_nonneg; lia].
    + apply Z.div_lt_upper_bound; [apply Z.pow_pos_nonneg; lia |].
      rewrite <- Z.pow_add_r by lia.
      apply Z.lt_le_trans with (2 ^ 30); [lia |].
      apply Z.pow_le_mono_r; lia.
Qed.

(** The six characters that [encode] appends bring the checksum of
    [decode] to the constant of the encoding. *)
Theorem checksum_closes (chk k : Z) :
  0 <= k < 2 ^ 30 ->
  fold_left checksumStep
    (map (fun i =>
            Z.land (Z.shiftr (Z.lxor (Nat.iter 6 polymodStep chk) k) ((5 - i) * 5))
              0x1f)
       [0; 1; 2; 3; 4; 5])
    chk
  = k.
Proof.
  intros Hk. set (final := Z.lxor (Nat.iter 6 polymodStep chk) k).
  assert (Hfinal : 0 <= final < 2 ^ 30).
  { unfold final. apply lxor_bound; [lia | | exact Hk].
    rewrite iter_6. apply polymodStep_bound. }
  cbn [map fold_left].
  change ((5 - 0) * 5) with 25. change ((5 - 1) * 5) with 20.
  change ((5 - 2) * 5) with 15. change ((5 - 3) * 5) with 10.
  change ((5 - 4) * 5) with 5. change ((5 - 5) * 5) with 0.
  replace chk with (Z.lxor chk (Z.shiftr final 30)) at 1
    by (rewrite (shiftr_small final 30) by lia; apply Z.lxor_0_r).
  rewrite (tail_step chk final 25 30) by lia.
  rewrite (tail_step _ final 20 25) by lia.
  rewrite (tail_step _ final 15 20) by lia.
  rewrite (tail_step _ final 10 15) by lia.
  rewrite (tail_step _ final 5 10) by lia.
  rewrite (tail_step _ final 0 5) by lia.
  rewrite Z.shiftr_0_r. unfold final. rewrite iter_6.
  apply lxor_cancel.
Qed.

End Bech32Checksum.

(** ** bech32: decoding undoes encoding *)

Module Bech32Props.

Import Bech32.

Lemma bech32_alphabet_NoDup : NoDup ALPHABET.
Proof. apply (bool_decide_unpack _). vm_compute. exact I. Qed.

Lemma charAt_In (v : Z) : 0 <= v < 32 -> In (charAt v) ALPHABET.
Proof.
  intros Hv. unfold charAt. apply nth_In.
  change (length ALPHABET) with 32%nat. lia.
Qed.

Lemma bech32_indexOf_charAt (v : Z) :
  0 <= v < 32 -> indexOf (charAt v) ALPHABET = Some v.
Proof.
  intros Hv. unfold charAt.
  rewrite indexOf_nth; [f_equal; lia | apply bech32_alphabet_NoDup |].
  change (length ALPHABET) with 32%nat. lia.
Qed.

Lemma ALPHABET_lower : Forall (fun c => lower c = c /\ c <> "1"%char) ALPHABET.
Proof. apply (bool_decide_unpack _). vm_compute. exact I. Qed.

Lemma map_lower_charAt (vs : list Z) :
  Forall (fun v => 0 <= v < 32) vs -> map lower (map charAt vs) = map charAt vs.
Proof.
  induction 1 as [| v vs Hv _ IH]; cbn [map]; [reflexivity |].
  rewrite IH. f_equal.
  pose proof ALPHABET_lower as Ha. rewrite Forall_forall in Ha.
  apply Ha, list_elem_of_In, charAt_In, Hv.
Qed.

Lemma separator_not_in_data (vs : list Z) :
  Forall (fun v => 0 <= v < 32) vs -> ~ In "1"%char (map charAt vs).
Proof.
  intros Hvs Hin. apply in_map_iff in Hin as [v [Hv Hin]].
  rewrite Forall_forall in Hvs. apply list_elem_of_In, Hvs in Hin.
  pose proof ALPHABET_lower as Ha. rewrite Forall_forall in Ha.
  apply (Ha (charAt v)); [apply list_elem_of_In, charAt_In, Hin | exact Hv].
Qed.

Lemma lastIndexOf_None (c : ascii) (l : list ascii) :
  ~ In c l -> lastIndexOf c l = None.
Proof.
  induction l as [| a l IH]; cbn [lastIndexOf]; [reflexivity |].
  intros Hin. rewrite IH by (intros H; apply Hin; now right).
  destruct (Ascii.eqb_spec a c) as [-> |]; [| reflexivity].
  exfalso. apply Hin. now left.
Qed.

Lemma lastIndexOf_app (c : ascii) (l1 l2 : list ascii) :
  ~ In c l2 -> lastIndexOf c (l1 ++ c :: l2) = Some (length l1).
Proof.
  intros Hin. induction l1 as [| a l1 IH]; cbn [app lastIndexOf length].
  - rewrite lastIndexOf_None by exact Hin. now rewrite Ascii.eqb_refl.
  - now rewrite IH.
Qed.

Lemma five_bit (x : Z) : (Z.shiftr x 5 =? 0) = true -> 0 <= x < 32.
Proof.
  intros H. apply Z.eqb_eq in H. rewrite Z.shiftr_div_pow2 in H by lia.
  change (2 ^ 5) with 32 in H.
  pose proof (Z.div_mod x 32). pose proof (Z.mod_pos_bound x 32). lia.
Qed.

Lemma ENCODING_CONST_bound (e : encoding) : 0 <= ENCODING_CONST e < 2 ^ 30.
Proof. destruct e; cbn; lia. Qed.

(** A string encoded with one encoding decodes to its prefix and words
    with that encoding, and fails the checksum of the other. *)
Theorem bech32_decode_encode (e e' : encoding) (pre : string) (ws : list Z) (s : string) :
  pre <> "" ->
  map lower (list_ascii_of_string pre) = list_ascii_of_string pre ->
  encode e pre ws = Ok s ->
  decode e' s
  = if encoding_eqb e e'
    then Ok {| prefix := pre; words := ws |}
    else Throw (Error "Invalid checksum").
Proof.
  intros Hne Hlower. unfold encode. rewrite Hlower.
  set (p := list_ascii_of_string pre).
  assert (Hp : p <> []).
  { unfold p. destruct pre; [contradiction | discriminate]. }
  destruct (LIMIT <? length p + 7 + length ws)%nat eqn:Hlimit; [discriminate |].
  destruct (prefixChk p) as [chk0 | err] eqn:Hchk0; [| discriminate].
  cbn [mbind result_bind].
  destruct (forallb (fun x => Z.shiftr x 5 =? 0) ws) eqn:Hbits; [| discriminate].
  cbn [negb].
  assert (Hws : Forall (fun v => 0 <= v < 32) ws).
  { apply Forall_forall. intros v Hv. apply five_bit.
    rewrite forallb_forall in Hbits. apply Hbits, list_elem_of_In, Hv. }
  set (chk := fold_left (fun chk x => Z.lxor (polymodStep chk) x) ws chk0).
  set (final := Z.lxor (Nat.iter 6 polymodStep chk) (ENCODING_CONST e)).
  set (tail := map (fun i => Z.land (Z.shiftr final ((5 - i) * 5)) 0x1f)
                 [0; 1; 2; 3; 4; 5]).
  assert (Htail : Forall (fun v => 0 <= v < 32) tail).
  { unfold tail. apply Forall_forall. intros v Hv.
    apply list_elem_of_In, in_map_iff in Hv as [i [<- _]].
    pose proof (Bech32Checksum.land_bound (Z.shiftr final ((5 - i) * 5)) 0x1f).
    lia. }
  assert (Hall : Forall (fun v => 0 <= v < 32) (ws ++ tail))
    by (apply Forall_app; split; assumption).
  intros Hs. injection Hs as <-.
  unfold decode. rewrite list_ascii_of_string_of_list_ascii.
  cbn [app].
  set (cs := p ++ "1"%char :: map charAt (ws ++ tail)).
  assert (Hlen : length cs = (length p + 7 + length ws)%nat).
  { unfold cs. rewrite length_app. cbn [length].
    rewrite length_map, length_app. unfold tail. cbn [length map]. lia. }
  rewrite Hlen, Hlimit.
  replace (length p + 7 + length ws <? 8)%nat with false
    by (symmetry; apply Nat.ltb_ge; destruct p; [congruence | cbn; lia]).
  assert (Hcs : map lower cs = cs).
  { unfold cs. rewrite map_app. cbn [map].
    rewrite map_lower_charAt by exact Hall. unfold p at 1. rewrite Hlower.
    reflexivity. }
  rewrite Hcs.
  rewrite (bool_decide_eq_true_2 (cs = cs)) by reflexivity. cbn [negb andb].
  unfold cs at 1.
  rewrite lastIndexOf_app by (apply separator_not_in_data; exact Hall).
  destruct (length p) as [| n] eqn:Hn;
    [destruct p; [congruence | discriminate] |].
  rewrite <- Hn.
  replace (firstn (length p) cs) with p by (unfold cs; now rewrite take_app_length).
  replace (skipn (S (length p)) cs) with (map charAt (ws ++ tail)).
  2:{ unfold cs. change (p ++ "1"%char :: map charAt (ws ++ tail))
        with (p ++ ["1"%char] ++ map charAt (ws ++ tail)).
      rewrite app_assoc.
      replace (S (length p)) with (length (p ++ ["1"%char]))
        by (rewrite length_app; cbn; lia).
      now rewrite drop_app_length. }
  rewrite length_map, length_app.
  replace (length ws + length tail <? 6)%nat with false
    by (symmetry; apply Nat.ltb_ge; unfold tail; cbn [length map]; lia).
  rewrite Hchk0. cbn [mbind result_bind].
  rewrite mapM_map_Some.
  2:{ eapply Forall_impl; [exact Hall |]. intros v Hv. now apply bech32_indexOf_charAt. }
  rewrite fold_left_app. fold chk.
  replace (fold_left (fun chk v => Z.lxor (polymodStep chk) v) tail chk)
    with (ENCODING_CONST e).
  2:{ symmetry. apply (Bech32Checksum.checksum_closes chk (ENCODING_CONST e)).
      apply ENCODING_CONST_bound. }
  replace (length (ws ++ tail) - 6)%nat with (length ws)
    by (rewrite length_app; unfold tail; cbn [length map]; lia).
  rewrite take_app_length.
  unfold p. rewrite string_of_list_ascii_of_string.
  destruct e, e'; reflexivity.
Qed.

End Bech32Props.

(** ** bech32: regrouping bits *)

Module Bech32Words.

Import Bech32.

Lemma maxV_ones (w : Z) : Z.shiftl 1 w - 1 = Z.ones w.
Proof. unfold Z.ones. lia. Qed.

Lemma length_fixed_digits (w : Z) (q : nat) (x : Z) :
  length (fixed_digits w q x) = q.
Proof.
  revert x. induction q as [| q IH]; intros x; cbn [fixed_digits]; [reflexivity |].
  rewrite length_app, IH. cbn. lia.
Qed.

Lemma fixed_digits_range (w : Z) (q : nat) (x : Z) :
  0 <= w -> Forall (fun d => 0 <= d < 2 ^ w) (fixed_digits w q x).
Proof.
  intros Hw. revert x. induction q as [| q IH]; intros x; cbn [fixed_digits];
    [constructor |].
  apply Forall_app. split; [apply IH |].
  constructor; [| constructor]. rewrite Z.land_ones by exact Hw.
  apply Z.mod_pos_bound. apply Z.pow_pos_nonneg; lia.
Qed.

Lemma fixed_digits_cons (w : Z) (q : nat) (x : Z) :
  0 <= w ->
  fixed_digits w (S q) x
  = Z.land (Z.shiftr x (w * Z.of_nat q)) (Z.ones w) :: fixed_digits w q x.
Proof.
  intros Hw. revert x. induction q as [| q IH]; intros x.
  - cbn [fixed_digits app]. now rewrite Z.mul_0_r, Z.shiftr_0_r.
  - change (fixed_digits w (S (S q)) x)
      with (fixed_digits w (S q) (Z.shiftr x w) ++ [Z.land x (Z.ones w)]).
    rewrite IH. cbn [app fixed_digits].
    rewrite Z.shiftr_shiftr by lia. do 3 f_equal. lia.
Qed.

Lemma fixed_digits_app (w : Z) (q k : nat) (x : Z) :
  0 <= w ->
  fixed_digits w (q + k) x
  = fixed_digits w q (Z.shiftr x (w * Z.of_nat k)) ++ fixed_digits w k x.
Proof.
  intros Hw. revert x. induction k as [| k IH]; intros x.
  - rewrite Nat.add_0_r, Z.mul_0_r, Z.shiftr_0_r. cbn [fixed_digits].
    now rewrite app_nil_r.
  - rewrite Nat.add_succ_r. cbn [fixed_digits].
    rewrite IH, Z.shiftr_shiftr by lia. rewrite <- app_assoc.
    do 3 f_equal. lia.
Qed.

Lemma of_base_fixed_digits (w : Z) (q : nat) (x : Z) :
  0 < w ->
  of_base (2 ^ w) (fixed_digits w q x) = x mod 2 ^ (w * Z.of_nat q).
Proof.
  intros Hw. revert x. induction q as [| q IH]; intros x.
  - cbn [fixed_digits]. rewrite Z.mul_0_r, Z.pow_0_r, Z.mod_1_r. reflexivity.
  - cbn [fixed_digits]. rewrite of_base_app, IH.
    rewrite Z.land_ones, Z.shiftr_div_pow2 by lia.
    replace (w * Z.of_nat (S q)) with (w + w * Z.of_nat q) by lia.
    rewrite Z.pow_add_r by lia.
    rewrite Z.rem_mul_r by (apply Z.pow_nonzero || apply Z.pow_pos_nonneg; lia).
    lia.
Qed.

Lemma fixed_digits_of_base (w : Z) (ds : list Z) :
  0 < w -> Forall (fun d => 0 <= d < 2 ^ w) ds ->
  fixed_digits w (length ds) (of_base (2 ^ w) ds) = ds.
Proof.
  intros Hw. induction ds as [| d ds IH] using rev_ind; intros Hds;
    [reflexivity |].
  apply Forall_app in Hds as [Hds Hd]. apply Forall_inv in Hd.
  rewrite length_app, Nat.add_comm. cbn [length Nat.add fixed_digits].
  rewrite of_base_app, Z.land_ones, Z.shiftr_div_pow2 by lia.
  destruct (div_mod_digit (2 ^ w) (of_base (2 ^ w) ds) d Hd) as [-> ->].
  now rewrite IH.
Qed.

(** The inner loop of [convert] pushes the digits that are complete. *)
Lemma drain_spec (fuel : nat) (w v bits : Z) :
  0 < w -> 0 <= bits -> (Z.to_nat (bits / w) <= fuel)%nat ->
  drain fuel w v bits
  = (fixed_digits w (Z.to_nat (bits / w)) (Z.shiftr v (bits mod w)), bits mod w).
Proof.
  intros Hw. revert bits. induction fuel as [| f IH]; intros bits Hbits Hfuel.
  - assert (Hq : bits / w = 0).
    { pose proof (Z.div_pos bits w Hbits Hw). lia. }
    rewrite Hq. cbn [drain Z.to_nat fixed_digits].
    assert (Hsmall : bits < w).
    { destruct (Z.lt_ge_cases bits w) as [| Hge]; [assumption |].
      assert (1 <= bits / w) by (apply Z.div_le_lower_bound; lia). lia. }
    now rewrite Z.mod_small by lia.
  - cbn [drain]. destruct (Z.leb_spec w bits) as [Hle | Hlt].
    + assert (Hq : (bits - w) / w = bits / w - 1).
      { replace bits with ((bits - w) + 1 * w) at 2 by lia.
        rewrite Z.div_add by lia. lia. }
      assert (Hr : (bits - w) mod w = bits mod w).
      { replace bits with ((bits - w) + 1 * w) at 2 by lia.
        now rewrite Z.mod_add by lia. }
      assert (Hq0 : 0 <= (bits - w) / w) by (apply Z.div_pos; lia).
      rewrite IH by lia. rewrite Hr, maxV_ones.
      replace (Z.to_nat (bits / w)) with (S (Z.to_nat ((bits - w) / w))) by lia.
      rewrite fixed_digits_cons by lia.
      rewrite Z.shiftr_shiftr by (apply Z.mul_nonneg_nonneg; lia).
      do 3 f_equal. rewrite Z2Nat.id by lia.
      pose proof (Z.div_mod (bits - w) w) as Hdm. rewrite Hr in Hdm. f_equal. lia.
    + rewrite Z.div_small, Z.mod_small by lia. reflexivity.
Qed.

Lemma lor_shiftl_digit (v d k : Z) :
  0 <= k -> 0 <= d < 2 ^ k -> Z.lor (Z.shiftl v k) d = v * 2 ^ k + d.
Proof.
  intros Hk Hd. rewrite <- Z.shiftl_mul_pow2 by exact Hk.
  rewrite <- Z.lxor_lor, <- Z.add_nocarry_lxor; try reflexivity.
  all: apply Z.bits_inj'; intros n Hn; rewrite Z.land_spec, Z.bits_0.
  all: destruct (Z.lt_ge_cases n k) as [Hlo | Hhi].
  all: try (rewrite Z.shiftl_spec_low by exact Hlo; reflexivity).
  all: rewrite andb_comm.
  all: replace (Z.testbit d n) with false; [reflexivity |].
  all: symmetry; destruct (Z.eq_dec d 0) as [-> | Hd0]; [apply Z.bits_0 |].
  all: apply Z.bits_above_log2; [lia |].
  all: apply Z.log2_lt_pow2; [lia |].
  all: apply Z.lt_le_trans with (2 ^ k); [lia | apply Z.pow_le_mono_r; lia].
Qed.

Section Convert.

Variables inBits outBits : Z.
Hypothesis HinBits : 0 < inBits.
Hypothesis HoutBits : 0 < outBits.

Lemma reads_nil : reads inBits outBits [] {| value := 0; nbits := 0; out := [] |}.
Proof.
  unfold reads. cbn [value nbits out length]. rewrite Z.mul_0_r.
  rewrite Z.mod_0_l, Z.div_0_l by lia. repeat split.
Qed.

Lemma reads_step (pre : list Z) (a : Acc) (d : Z) :
  0 <= d < 2 ^ inBits -> reads inBits outBits pre a -> reads inBits outBits (pre ++ [d]) (convert_step inBits outBits a d).
Proof.
  intros Hd (Hv & Hn & Ho). unfold convert_step.
  set (T := inBits * Z.of_nat (length pre)) in *.
  assert (HT : 0 <= T) by (unfold T; apply Z.mul_nonneg_nonneg; lia).
  pose proof (Z.mod_pos_bound T outBits HoutBits) as Hr.
  rewrite lor_shiftl_digit by lia.
  rewrite drain_spec; [| exact HoutBits | lia |].
  2:{ rewrite Hn. apply Z2Nat.inj_le; [apply Z.div_pos; lia | lia |].
      apply Z.div_le_upper_bound; [lia |]. nia. }
  unfold reads. cbn [value nbits out].
  rewrite length_app. cbn [length].
  replace (inBits * Z.of_nat (length pre + 1)) with (T + inBits) by (unfold T; lia).
  rewrite Hn, Z.add_mod_idemp_l by lia.
  split; [now rewrite of_base_app, Hv |]. split; [reflexivity |].
  rewrite Ho, Hn.
  set (v := value a * 2 ^ inBits + d).
  set (k := (T mod outBits + inBits) / outBits).
  assert (Hk : 0 <= k) by (apply Z.div_pos; lia).
  assert (Hq : 0 <= T / outBits) by (apply Z.div_pos; lia).
  assert (Hsplit : (T + inBits) / outBits = T / outBits + k).
  { unfold k. rewrite (Z.div_mod T outBits) at 1 by lia.
    replace (outBits * (T / outBits) + T mod outBits + inBits)
      with (T mod outBits + inBits + (T / outBits) * outBits) by lia.
    rewrite Z.div_add by lia. lia. }
  rewrite Hsplit, Z2Nat.inj_add by lia.
  rewrite fixed_digits_app by lia. f_equal. f_equal.
  rewrite Z.shiftr_shiftr by (apply Z.mul_nonneg_nonneg; lia).
  rewrite Z2Nat.id by exact Hk.
  replace ((T + inBits) mod outBits + outBits * k) with (inBits + T mod outBits).
  2:{ unfold k. pose proof (Z.div_mod (T mod outBits + inBits) outBits).
      rewrite <- (Z.add_mod_idemp_l T inBits outBits) by lia. lia. }
  rewrite <- Z.shiftr_shiftr by lia. f_equal.
  unfold v. rewrite Z.shiftr_div_pow2 by lia.
  now destruct (div_mod_digit (2 ^ inBits) (value a) d Hd) as [-> _].
Qed.

Lemma reads_fold (ds pre : list Z) (a : Acc) :
  Forall (fun d => 0 <= d < 2 ^ inBits) ds -> reads inBits outBits pre a ->
  reads inBits outBits (pre ++ ds) (fold_left (convert_step inBits outBits) ds a).
Proof.
  intros Hds. revert pre a.
  induction Hds as [| d ds Hd _ IH]; intros pre a Ha; cbn [fold_left].
  - now rewrite app_nil_r.
  - replace (pre ++ d :: ds) with ((pre ++ [d]) ++ ds) by now rewrite <- app_assoc.
    apply IH, reads_step; assumption.
Qed.

End Convert.

Lemma padding_spec (n : nat) :
  0 <= padding n < 5
  /\ 8 * Z.of_nat n + padding n = 5 * Z.of_nat (word_count n)
  /\ padding n = (if 0 <? (8 * Z.of_nat n) mod 5 then 5 - (8 * Z.of_nat n) mod 5 else 0)
  /\ Z.of_nat (word_count n)
     = (8 * Z.of_nat n) / 5 + (if 0 <? (8 * Z.of_nat n) mod 5 then 1 else 0).
Proof.
  unfold word_count, padding. set (T := 8 * Z.of_nat n).
  assert (HT : 0 <= T) by (unfold T; lia).
  pose proof (Z.mod_pos_bound T 5) as Hr.
  pose proof (Z.mod_pos_bound (- T) 5) as Hp.
  pose proof (Z.div_mod T 5) as HdT.
  assert (Hpad : (- T) mod 5 = if 0 <? T mod 5 then 5 - T mod 5 else 0).
  { destruct (Z.ltb_spec 0 (T mod 5)).
    - symmetry. apply Z.mod_unique with (- (T / 5) - 1); lia.
    - symmetry. apply Z.mod_unique with (- (T / 5)); lia. }
  assert (Hdiv : (T + (- T) mod 5) / 5
                 = T / 5 + (if 0 <? T mod 5 then 1 else 0)).
  { rewrite Hpad. destruct (Z.ltb_spec 0 (T mod 5)).
    - symmetry. apply Z.div_unique with 0; lia.
    - symmetry. apply Z.div_unique with 0; lia. }
  assert (0 <= T / 5) by (apply Z.div_pos; lia).
  rewrite Z2Nat.id by (rewrite Hdiv; destruct (0 <? T mod 5); lia).
  repeat split; try lia; try exact Hpad; try exact Hdiv.
  rewrite Hdiv, Hpad. destruct (Z.ltb_spec 0 (T mod 5)); lia.
Qed.

Lemma bytes_digits (data : bytes) :
  Forall (fun d => 0 <= d < 2 ^ 8) (map Z_of_byte data).
Proof.
  apply Forall_forall. intros d Hd.
  apply list_elem_of_In, in_map_iff in Hd as [b [<- _]]. apply Z_of_byte_range.
Qed.

Theorem toWords_digits (data : bytes) :
  toWords data
  = fixed_digits 5 (word_count (length data))
      (Z.shiftl (Z_of_be data) (padding (length data))).
Proof.
  unfold toWords, convert.
  pose proof (reads_fold 8 5 ltac:(lia) ltac:(lia) (map Z_of_byte data) []
                {| value := 0; nbits := 0; out := [] |}
                (bytes_digits data) (reads_nil 8 5 ltac:(lia)))
    as (Hv & Hn & Ho).
  cbn [app] in Hv, Hn, Ho. rewrite length_map in Hn, Ho.
  set (a := fold_left (convert_step 8 5) (map Z_of_byte data)
              {| value := 0; nbits := 0; out := [] |}) in *.
  change (2 ^ 8) with 256 in Hv. rewrite <- Z_of_be_of_base in Hv.
  destruct (padding_spec (length data)) as (Hp & Hsum & Hpad & Hcount).
  rewrite maxV_ones, Hn, Ho, Hn, Hv.
  assert (Hq : 0 <= 8 * Z.of_nat (length data) / 5) by (apply Z.div_pos; lia).
  rewrite Hpad. destruct (0 <? (8 * Z.of_nat (length data)) mod 5) eqn:Hr.
  - replace (word_count (length data))
      with (S (Z.to_nat (8 * Z.of_nat (length data) / 5))) by lia.
    cbn [fixed_digits]. f_equal.
    rewrite Z.shiftr_shiftl_r by lia. do 2 f_equal. lia.
  - apply Z.ltb_ge in Hr.
    pose proof (Z.mod_pos_bound (8 * Z.of_nat (length data)) 5).
    replace ((8 * Z.of_nat (length data)) mod 5) with 0 by lia.
    rewrite Z.shiftr_0_r, Z.shiftl_0_r. f_equal. lia.
Qed.

(** [fromWords] undoes [toWords]. *)
Theorem fromWords_toWords (data : bytes) : fromWords (toWords data) = Ok data.
Proof.
  rewrite toWords_digits.
  destruct (padding_spec (length data)) as (Hp & Hsum & _ & _).
  set (n := length data) in *. set (pad := padding n) in *.
  set (Q := word_count n) in *. set (V := Z_of_be data).
  pose proof (Z_of_be_bound data) as HV. fold V n in HV.
  set (ws := fixed_digits 5 Q (Z.shiftl V pad)).
  assert (Hws : Forall (fun d => 0 <= d < 2 ^ 5) ws)
    by (apply fixed_digits_range; lia).
  unfold fromWords, convert.
  pose proof (reads_fold 5 8 ltac:(lia) ltac:(lia) ws []
                {| value := 0; nbits := 0; out := [] |}
                Hws (reads_nil 5 8 ltac:(lia)))
    as (Hv & Hn & Ho).
  cbn [app] in Hv, Hn, Ho.
  set (a := fold_left (convert_step 5 8) ws {| value := 0; nbits := 0; out := [] |})
    in *.
  assert (Hlen : length ws = Q) by apply length_fixed_digits.
  rewrite Hlen in Hn, Ho.
  (* the accumulator holds the padded number *)
  assert (Hval : value a = Z.shiftl V pad).
  { rewrite Hv. unfold ws. rewrite of_base_fixed_digits by lia.
    apply Z.mod_small. rewrite Z.shiftl_mul_pow2 by lia.
    rewrite <- Hsum, Z.pow_add_r by lia.
    assert (0 < 2 ^ pad) by (apply Z.pow_pos_nonneg; lia).
    replace (256 ^ Z.of_nat n) with (2 ^ (8 * Z.of_nat n)) in HV
      by (rewrite Z.pow_mul_r by lia; reflexivity).
    nia. }
  assert (Hbits : nbits a = pad).
  { rewrite Hn, <- Hsum.
    replace (8 * Z.of_nat n + pad) with (pad + Z.of_nat n * 8) by lia.
    rewrite Z.mod_add by lia. apply Z.mod_small. lia. }
  assert (Hout : out a = map Z_of_byte data).
  { rewrite Ho, Hbits, Hval, <- Hsum.
    replace ((8 * Z.of_nat n + pad) / 8) with (Z.of_nat n).
    2:{ apply Z.div_unique with pad; lia. }
    rewrite Nat2Z.id, Z.shiftr_shiftl_l, Z.sub_diag, Z.shiftl_0_r by lia.
    unfold V. rewrite Z_of_be_of_base.
    replace n with (length (map Z_of_byte data)) by apply length_map.
    change 256 with (2 ^ 8).
    apply fixed_digits_of_base; [lia | apply bytes_digits]. }
  rewrite Hbits, Hval, Hout, maxV_ones.
  destruct (Z.leb_spec 5 pad) as [| _]; [lia |].
  rewrite Z.shiftl_shiftl by lia.
  replace (pad + (8 - pad)) with 8 by lia.
  rewrite Z.land_ones, Z.shiftl_mul_pow2 by lia.
  rewrite Z.mod_mul by lia. cbn [Z.eqb negb mbind result_bind].
  now rewrite map_byte_of_Z_of_byte.
Qed.

End Bech32Words.

(** ** bitcoinjs-lib: bech32 addresses *)

Module Bech32Address.

Lemma encode_shape (e : Bech32.encoding) (pre : string) (ws : list Z) (s : string) :
  Bech32.encode e pre ws = Ok s ->
  exists chars,
    s = string_of_list_ascii
          (map Bech32.lower (list_ascii_of_string pre) ++ "1"%char :: chars).
Proof.
  unfold Bech32.encode.
  destruct (_ <? _)%nat; [discriminate |].
  destruct (Bech32.prefixChk _); [| discriminate]. cbn [mbind result_bind].
  destruct (negb _); [discriminate |].
  intros H. injection H as <-. eexists. reflexivity.
Qed.

Theorem fromBech32_toBech32 (d : bytes) (v : Z) (pre s : string) :
  pre <> "" ->
  map Bech32.lower (list_ascii_of_string pre) = list_ascii_of_string pre ->
  Bitcoin.toBech32 d v pre = Ok s ->
  Bitcoin.fromBech32 s
  = Ok {| Bitcoin.version := Some v; Bitcoin.prefix := pre; Bitcoin.data := d |}.
Proof.
  intros Hne Hlower. unfold Bitcoin.toBech32, Bitcoin.fromBech32.
  destruct (v =? 0) eqn:Hv; intros Henc.
  - rewrite (Bech32Props.bech32_decode_encode _ Bech32.bech32 _ _ _ Hne Hlower Henc).
    cbn [encoding_eqb Bech32.words Bech32.prefix head hd_error
         Bitcoin.is_version negb mbind result_bind skipn].
    rewrite Hv. cbn [negb mbind result_bind].
    cbv beta iota delta [Bech32.words Bech32.prefix head skipn].
    rewrite Bech32Words.fromWords_toWords. reflexivity.
  - rewrite (Bech32Props.bech32_decode_encode _ Bech32.bech32 _ _ _ Hne Hlower Henc).
    rewrite (Bech32Props.bech32_decode_encode _ Bech32.bech32m _ _ _ Hne Hlower Henc).
    cbn [encoding_eqb Bech32.words Bech32.prefix head hd_error
         Bitcoin.is_version negb mbind result_bind skipn].
    rewrite Hv. cbn [negb mbind result_bind].
    cbv beta iota delta [Bech32.words Bech32.prefix head skipn].
    rewrite Bech32Words.fromWords_toWords. reflexivity.
Qed.

(** An address made for one of the three networks starts with [bc1],
    [tb1] or [bcrt1]. *)
Lemma toBech32_prefixed (d : bytes) (v : Z) (networkType : NetworkType) (s : string) :
  Bitcoin.toBech32 d v (Bitcoin.bech32 (networkTypeToNetwork networkType)) = Ok s ->
  Address.isBech32Prefixed s = true.
Proof.
  unfold Bitcoin.toBech32. intros Henc.
  apply encode_shape in Henc as [chars ->].
  destruct networkType, chars; reflexivity.
Qed.

End Bech32Address.

(** ** address.ts: decodeAddress *)

Module AddressProps.

Import Address.

(** [decodeAddress] in terms of the branch it takes. *)
Lemma decodeAddress_takenBranch (address : string) :
  decodeAddress address =
  match takenBranch address with
  | Ok (Some n, Some t) =>
      Ok {| networkType := n; addressType := t; dust := getAddressTypeDust t |}
  | _ => Ok fallback
  end.
Proof.
  unfold decodeAddress, takenBranch, isBech32Prefixed, bech32Branch, base58Branch.
  destruct (String.prefix "bc1" address || String.prefix "tb1" address
            || String.prefix "bcrt1" address).
  - destruct (Bitcoin.fromBech32 address) as [r | e]; cbn; [| reflexivity].
    destruct (bech32NetworkType r), (bech32AddressType r); reflexivity.
  - destruct (Bitcoin.fromBase58Check address) as [r | e]; cbn; [| reflexivity].
    destruct (base58Types r) as [[n |] [t |]]; reflexivity.
Qed.

Lemma bech32AddressType_not_P2SH (r : Bitcoin.Bech32Result) :
  bech32AddressType r <> Some P2SH.
Proof.
  unfold bech32AddressType.
  repeat match goal with |- context [if ?b then _ else _] => destruct b end;
    discriminate.
Qed.

Lemma base58Types_cases (r : Bitcoin.Base58CheckResult) :
  (exists n, base58Types r = (Some n, Some P2PKH))
  \/ (exists n, base58Types r = (Some n, Some P2SH_P2WPKH))
  \/ base58Types r = (None, None).
Proof.
  unfold base58Types.
  repeat match goal with |- context [if ?b then _ else _] => destruct b end;
    eauto.
Qed.

Lemma takenBranch_not_P2SH (address : string) (n : option NetworkType) :
  takenBranch address <> Ok (n, Some P2SH).
Proof.
  unfold takenBranch, bech32Branch, base58Branch.
  destruct (isBech32Prefixed address).
  - destruct (Bitcoin.fromBech32 address) as [r | e]; cbn; [| discriminate].
    intros H. injection H as _ H. exact (bech32AddressType_not_P2SH r H).
  - destruct (Bitcoin.fromBase58Check address) as [r | e]; cbn; [| discriminate].
    destruct (base58Types_cases r) as [[m H] | [[m H] | H]]; rewrite H;
      congruence.
Qed.



(** C4. [decodeAddress] returns the address type [P2SH] for no input: a
    base58check address whose version byte is in a network's [scriptHash]
    table is classified as [P2SH_P2WPKH]. *)
Theorem decodeAddress_never_P2SH (address : string) :
  (exists d, decodeAddress address = Ok d /\ addressType d <> P2SH)
  /\ (forall r,
        isBech32Prefixed address = false ->
        Bitcoin.fromBase58Check address = Ok r ->
        Bitcoin.version58 r = Bitcoin.scriptHash Bitcoin.bitcoin
        \/ Bitcoin.version58 r = Bitcoin.scriptHash Bitcoin.testnet
        \/ Bitcoin.version58 r = Bitcoin.scriptHash Bitcoin.regtest ->
        exists d, decodeAddress address = Ok d /\ addressType d = P2SH_P2WPKH).
Proof.
  split.
  - rewrite decodeAddress_takenBranch.
    pose proof (takenBranch_not_P2SH address) as Hn.
    destruct (takenBranch address) as [[[n |] [t |]] | e];
      try (eexists; split; [reflexivity | discriminate]).
    eexists; split; [reflexivity |]. cbn. intros ->. exact (Hn (Some n) eq_refl).
  - intros r Hpre Hdec Hv. rewrite decodeAddress_takenBranch.
    unfold takenBranch, base58Branch. rewrite Hpre, Hdec. cbn.
    unfold base58Types.
    destruct Hv as [-> | [-> | ->]]; cbn; eexists; split; reflexivity.
Qed.

(** A [P2SH] address of the test network. *)
Lemma decodeAddress_never_P2SH_witness :
  exists d,
    decodeAddress "2NAUYAHhujozruyzpsFRP63mbrdaU5wnEpN" = Ok d
    /\ addressType d = P2SH_P2WPKH.
Proof.
  apply (proj2 (decodeAddress_never_P2SH "2NAUYAHhujozruyzpsFRP63mbrdaU5wnEpN")
           {| Bitcoin.hash :=
                Buffer.from_hex "bcfeb728b584253d5f3f70bcb780e9ef218a68f4";
              Bitcoin.version58 := 0xc4 |});
    [vm_compute; reflexivity | vm_compute; reflexivity | right; left; reflexivity].
Defined.

(** C5. The [dust] of a decoded address is a function of its address type
    alone: 294 for [P2WPKH], 330 for [P2TR], 546 for every other type,
    [UNKNOWN] included. *)
Theorem decodeAddress_dust (address : string) :
  exists d,
    decodeAddress address = Ok d
    /\ dust d = getAddressTypeDust (addressType d)
    /\ dust d = match addressType d with
                | P2WPKH => 294
                | P2TR => 330
                | P2PKH | P2SH_P2WPKH | P2WSH | P2SH | UNKNOWN => 546
                end.
Proof.
  rewrite decodeAddress_takenBranch.
  destruct (takenBranch address) as [[[n |] [t |]] | e];
    (eexists; split; [reflexivity |]); split; reflexivity.
Qed.

End AddressProps.

(** ** address.ts: from a public key to an address and back *)

Module RoundTrip.

Import Address Samples.

Lemma decode_base58 (h : bytes) (v : Z) :
  length h = 20%nat ->
  v = 0x00 \/ v = 0x05 \/ v = 0x6f \/ v = 0xc4 ->
  takenBranch (Bitcoin.toBase58Check h v)
  = Ok (base58Types {| Bitcoin.hash := h; Bitcoin.version58 := v |}).
Proof.
  intros Hlen Hv. unfold takenBranch, base58Branch.
  rewrite Base58Head.toBase58Check_not_bech32_prefixed by assumption.
  rewrite BitcoinProps.fromBase58Check_toBase58Check; [reflexivity | exact Hlen |].
  destruct Hv as [-> | [-> | [-> | ->]]]; lia.
Qed.

Lemma decode_bech32 (d : bytes) (v : Z) (networkType : NetworkType) (s : string) :
  Bitcoin.toBech32 d v (Bitcoin.bech32 (networkTypeToNetwork networkType)) = Ok s ->
  takenBranch s
  = Ok (Some networkType,
        bech32AddressType
          {| Bitcoin.version := Some v;
             Bitcoin.prefix := Bitcoin.bech32 (networkTypeToNetwork networkType);
             Bitcoin.data := d |}).
Proof.
  intros Henc. unfold takenBranch, bech32Branch.
  rewrite (Bech32Address.toBech32_prefixed _ _ _ _ Henc).
  rewrite (Bech32Address.fromBech32_toBech32 d v
             (Bitcoin.bech32 (networkTypeToNetwork networkType)) s);
    [| | | exact Henc].
  - cbn [mbind result_bind]. destruct networkType; reflexivity.
  - destruct networkType; discriminate.
  - destruct networkType; reflexivity.
Qed.

Lemma address_truthy (a b : string) :
  (if truthy (Some a) then Ok a else Throw (newTxBuildError UNSUPPORTED_ADDRESS_TYPE))
  = Ok b -> a = b.
Proof. destruct (truthy (Some a)); [congruence | discriminate]. Qed.




End RoundTrip.

(** ** address.ts: publicKeyToAddress returns on the keys the library accepts *)

Module Succeeds.

Import Address.


Lemma toWords_length (d : bytes) :
  length (Bech32.toWords d) = word_count (length d).
Proof. rewrite Bech32Words.toWords_digits. apply Bech32Words.length_fixed_digits. Qed.



Lemma tweakKey_Some (x tweaked : bytes) :
  Bitcoin.tweakKey x = Some tweaked ->
  length x = 32%nat /\ length tweaked = 32%nat.
Proof.
  unfold Bitcoin.tweakKey.
  destruct (length x =? 32)%nat eqn:Hlen; [| discriminate].
  cbn [negb]. intros H. split; [now apply Nat.eqb_eq |].
  eapply xOnlyPointAddTweak_length. exact H.
Qed.

Lemma truthy_String (c : ascii) (t : string) : truthy (Some (String c t)) = true.
Proof. reflexivity. Qed.


End Succeeds.


(** ** transaction/utxo.ts: utxoToInput *)

Module UtxoProps.

Import Address Utxo Samples.

(** C6. For a [P2WPKH] or [P2SH] UTXO, [utxoToInput] succeeds with an
    input that holds the signing reference ([hash] = txid, [index] = vout)
    and the witness UTXO (value and script bytes), and neither
    [tapInternalKey] nor [redeemScript]; for a [P2PKH], [P2WSH] or [UNKNOWN]
    UTXO it fails with [UNSUPPORTED_ADDRESS_TYPE]. *)
Theorem utxoToInput_plain_or_unsupported (utxo : Utxo) :
  match addressType utxo with
  | P2WPKH =>
      utxoToInput utxo
      = Ok (plainInput utxo (Buffer.from_hex (remove0x (scriptPk utxo))))
  | P2SH =>
      utxoToInput utxo = Ok (plainInput utxo (Buffer.from_hex (scriptPk utxo)))
  | P2PKH | P2WSH | UNKNOWN =>
      utxoToInput utxo = Throw (TxBuildError UNSUPPORTED_ADDRESS_TYPE None)
  | P2TR | P2SH_P2WPKH => True
  end.
Proof.
  unfold utxoToInput, plainInput. destruct (addressType utxo); reflexivity || exact I.
Qed.

(** C2, refuted as stated: a [P2SH_P2WPKH] UTXO that carries a public key,
    here a valid uncompressed one, is rejected by [payments.p2wpkh], so
    [utxoToInput] does not succeed. *)
Lemma utxoToInput_pubkey_supplied_counterexample :
  addressType wrapped_utxo = P2SH_P2WPKH
  /\ pubkey wrapped_utxo = Some uncompressed_generator_key
  /\ Ecc.isPoint (Buffer.from_hex uncompressed_generator_key) = true
  /\ utxoToInput wrapped_utxo = Throw (TypeError "Invalid pubkey for p2wpkh").
Proof. vm_compute. repeat split; reflexivity. Qed.

(** C2, amended. For a [P2TR] or [P2SH_P2WPKH] UTXO: without a public key
    (absent or empty) [utxoToInput] fails with [MISSING_PUBKEY] carrying
    the UTXO's address; a [P2TR] UTXO with a non-empty public key gives an
    input with [tapInternalKey], the x-only form of the key, and no
    [redeemScript]; a [P2SH_P2WPKH] UTXO whose public key decodes, as it
    is written, to a compressed key gives an input with [redeemScript], the
    P2WPKH script of the key, and no [tapInternalKey]. *)
Theorem utxoToInput_pubkey_amended (utxo : Utxo)
    (Htype : addressType utxo = P2TR \/ addressType utxo = P2SH_P2WPKH) :
  (truthy (pubkey utxo) = false ->
     utxoToInput utxo = Throw (TxBuildError MISSING_PUBKEY (Some (address utxo))))
  /\ (forall pk,
        pubkey utxo = Some pk -> pk <> "" -> addressType utxo = P2TR ->
        exists input,
          utxoToInput utxo = Ok input
          /\ Psbt.tapInternalKey (data input)
             = Some (toXOnly (Buffer.from_hex (remove0x pk)))
          /\ Psbt.redeemScript (data input) = None)
  /\ (forall pk,
        pubkey utxo = Some pk -> pk <> "" -> addressType utxo = P2SH_P2WPKH ->
        Ecc.isPoint (Buffer.from_hex pk) = true ->
        length (Buffer.from_hex pk) = 33%nat ->
        exists input,
          utxoToInput utxo = Ok input
          /\ Psbt.redeemScript (data input)
             = Some ([x00; x14] ++ Crypto.hash160 (Buffer.from_hex pk))
          /\ Psbt.tapInternalKey (data input) = None).
Proof.
  unfold utxoToInput. repeat split.
  - intros Hno. destruct Htype as [-> | ->];
      destruct (pubkey utxo) as [pk |]; try reflexivity;
      cbn in Hno |- *; rewrite Hno; reflexivity.
  - intros pk Hpk Hne ->. rewrite Hpk.
    destruct pk as [| c pk]; [contradiction |]. cbn.
    eexists. split; [reflexivity |]. split; reflexivity.
  - intros pk Hpk Hne -> Hpoint Hlen. rewrite Hpk.
    destruct pk as [| c pk]; [contradiction |].
    cbn [truthy negb]. unfold Bitcoin.p2wpkh.
    rewrite Hpoint, Hlen. cbn.
    eexists. split; [reflexivity |]. split; reflexivity.
Qed.

(** The three parts at concrete UTXOs: a taproot UTXO without and with its
    key, and a wrapped-segwit UTXO with its compressed key. *)
Lemma utxoToInput_pubkey_amended_witness :
  utxoToInput taproot_utxo
  = Throw (TxBuildError MISSING_PUBKEY (Some (address taproot_utxo)))
  /\ (exists input,
        utxoToInput (withPubkey taproot_utxo (Some generator_key)) = Ok input
        /\ Psbt.tapInternalKey (data input)
           = Some (toXOnly (Buffer.from_hex (remove0x generator_key)))
        /\ Psbt.redeemScript (data input) = None)
  /\ (exists input,
        utxoToInput (withPubkey wrapped_utxo (Some generator_key)) = Ok input
        /\ Psbt.redeemScript (data input)
           = Some ([x00; x14] ++ Crypto.hash160 (Buffer.from_hex generator_key))
        /\ Psbt.tapInternalKey (data input) = None).
Proof.
  split; [| split].
  - apply (proj1 (utxoToInput_pubkey_amended taproot_utxo (or_introl eq_refl))).
    reflexivity.
  - apply (proj1 (proj2 (utxoToInput_pubkey_amended
                           (withPubkey taproot_utxo (Some generator_key))
                           (or_introl eq_refl))) generator_key);
      [reflexivity | discriminate | reflexivity].
  - apply (proj2 (proj2 (utxoToInput_pubkey_amended
                           (withPubkey wrapped_utxo (Some generator_key))
                           (or_intror eq_refl))) generator_key);
      [reflexivity | discriminate | reflexivity | vm_compute; reflexivity
      | vm_compute; reflexivity].
Defined.

(** ** transaction/utxo.ts: fillUtxoPubkey *)

(** C8. [fillUtxoPubkey] is idempotent: applied twice with the same map
    and options it gives what it gives applied once, whatever
    [isP2trScript] answers. *)
Theorem fillUtxoPubkey_idempotent (isP2trScript : string -> bool) (utxo : Utxo)
    (pubkeyMap : AddressToPubkeyMap) (options : option FillOptions) :
  (fillUtxoPubkey isP2trScript utxo pubkeyMap options
     ≫= fun filled => fillUtxoPubkey isP2trScript filled pubkeyMap options)
  = fillUtxoPubkey isP2trScript utxo pubkeyMap options.
Proof.
  unfold fillUtxoPubkey.
  destruct (isP2trScript (scriptPk utxo)) eqn:Hscript; cbn [andb].
  - destruct (truthy (pubkey utxo)) eqn:Hpk; cbn [negb].
    + cbn. rewrite Hscript, Hpk. reflexivity.
    + destruct (requiresPubkey options) eqn:Hreq; cbn [andb];
        destruct (truthy (pubkeyMap !! address utxo)) eqn:Hmap; cbn [negb];
        try reflexivity; cbn;
        rewrite ?Hscript, ?Hpk, ?Hmap; cbn; rewrite ?Hreq, ?Hmap; reflexivity.
  - cbn. rewrite Hscript. reflexivity.
Qed.

(** ** transaction/utxo.ts: the ['0x'] prefix in utxoToInput *)

Lemma remove0x_prefixed (s : string) : remove0x ("0x" ++ s) = s.
Proof. reflexivity. Qed.

Lemma remove0x_unprefixed (s : string) :
  String.prefix "0x" s = false -> remove0x s = s.
Proof.
  intros H. destruct s as [| a s]; [reflexivity |].
  destruct a as [[] [] [] [] [] [] [] []]; try reflexivity.
  destruct s as [| b s]; [reflexivity |].
  destruct b as [[] [] [] [] [] [] [] []]; try reflexivity.
  cbn in H. destruct s; discriminate.
Qed.




(** ** transaction/utxo.ts: prepareUtxoInputs *)

Lemma mapM_result_Forall2 {A B : Type} (f : A -> result B) (l : list A)
    (k : list B) :
  mapM f l = Ok k -> Forall2 (fun a b => f a = Ok b) l k.
Proof.
  revert k. induction l as [| a l IH]; intros k H; cbn in H.
  - injection H as <-. constructor.
  - destruct (f a) as [b | e] eqn:Hfa; [| discriminate]. cbn in H.
    destruct (mapM f l) as [k' | e]; [| discriminate]. cbn in H.
    injection H as <-. constructor; auto.
Qed.

(** When a promise rejects, [Promise.all] rejects, with the reason of one
    of the promises that reject. *)
Lemma firstRejection_In {A : Type} (outcomes : list (result A))
    (settled : list nat) (e : exn) :
  firstRejection outcomes settled = Some e -> In (Throw e) outcomes.
Proof.
  induction settled as [| i rest IH]; cbn; [discriminate |].
  destruct (outcomes !! i) as [[a | e'] |] eqn:Hi; auto.
  intros H. injection H as ->.
  apply list_elem_of_In. eapply list_elem_of_lookup_2. exact Hi.
Qed.








Example prepareUtxoInputs_two_utxos :
  prepareUtxoInputs Script.isP2trScript two_utxos [0%nat; 1%nat]
  = Throw (TxBuildError UNCONFIRMED_UTXO
             (Some "hash: bc5168a4f90116fada921e185d4b018e784dc0f6266e539a3c092321c932700a, index: 2")).
Proof. vm_compute. reflexivity. Qed.

Example prepareUtxoInputs_confirmed :
  prepareUtxoInputs Script.isP2trScript
    {| utxos := [taproot_utxo];
       source := second_unconfirmed;
       props_requirePubkey := Some true;
       requireConfirmed := Some true;
       pubkeyMap := Some {[ address taproot_utxo := generator_key ]} |} [0%nat]
  = Ok [withPubkey taproot_utxo (Some generator_key)].
Proof. vm_compute. reflexivity. Qed.

End UtxoProps.

(** ** transaction/utxo.ts: what utxoToInput returns and how it fails *)

Module UtxoInputs.

Import Address Utxo Samples.

(** X1. An input that [utxoToInput] returns carries the UTXO itself, its
    txid as [hash], its vout as [index] and its value as the value of the
    witness UTXO; it has a [tapInternalKey] exactly for a [P2TR] UTXO and a
    [redeemScript] exactly for a [P2SH_P2WPKH] one. *)
Theorem utxoToInput_carries_utxo (u : Utxo) (input : TxInput) :
  utxoToInput u = Ok input ->
  utxo input = u
  /\ Psbt.hash (data input) = txid u
  /\ Psbt.index (data input) = vout u
  /\ Psbt.value (Psbt.witnessUtxo (data input)) = value u
  /\ (is_Some (Psbt.tapInternalKey (data input)) <-> addressType u = P2TR)
  /\ (is_Some (Psbt.redeemScript (data input)) <-> addressType u = P2SH_P2WPKH).
Proof.
  unfold utxoToInput.
  destruct (addressType u) eqn:Htype; try discriminate.
  - intros H. injection H as <-. cbn.
    repeat split; try (intros [? ?]; discriminate); discriminate.
  - destruct (pubkey u) as [pk |]; [| discriminate].
    destruct (negb _); [discriminate |].
    intros H. injection H as <-. cbn.
    repeat split; eauto; try (intros [? ?]; discriminate); discriminate.
  - destruct (pubkey u) as [pk |]; [| discriminate].
    destruct (negb _); [discriminate |].
    destruct (Bitcoin.p2wpkh _ _) as [redeemData | e]; [| discriminate].
    intros H. injection H as <-. cbn.
    repeat split; eauto; try (intros [? ?]; discriminate); discriminate.
  - intros H. injection H as <-. cbn.
    repeat split; try (intros [? ?]; discriminate); discriminate.
Qed.

Lemma utxoToInput_carries_utxo_witness :
  exists input,
    utxoToInput (withPubkey taproot_utxo (Some generator_key)) = Ok input
    /\ utxo input = withPubkey taproot_utxo (Some generator_key)
    /\ Psbt.hash (data input) = txid taproot_utxo
    /\ Psbt.index (data input) = vout taproot_utxo
    /\ Psbt.value (Psbt.witnessUtxo (data input)) = value taproot_utxo
    /\ (is_Some (Psbt.tapInternalKey (data input)) <-> P2TR = P2TR)
    /\ (is_Some (Psbt.redeemScript (data input)) <-> P2TR = P2SH_P2WPKH).
Proof.
  eexists. split; [vm_compute; reflexivity |].
  apply (utxoToInput_carries_utxo (withPubkey taproot_utxo (Some generator_key))).
  vm_compute. reflexivity.
Defined.



End UtxoInputs.

(** ** transaction/utxo.ts: fillUtxoPubkey *)

Module FillPubkey.

Import Address Utxo Samples.

Section WithScript.

Variable isP2trScript : string -> bool.

(** The UTXO with its [pubkey] replaced, as the assignment
    [newUtxo.pubkey = pubkey] leaves it. *)
Lemma fillUtxoPubkey_cases (u : Utxo) (m : AddressToPubkeyMap)
    (o : option FillOptions) :
  fillUtxoPubkey isP2trScript u m o =
  if isP2trScript (scriptPk u) && negb (truthy (pubkey u))
  then
    if truthy (m !! address u)
    then Ok (withPubkey u (m !! address u))
    else if requiresPubkey o
         then Throw (TxBuildError MISSING_PUBKEY (Some (address u)))
         else Ok u
  else Ok u.
Proof.
  unfold fillUtxoPubkey, withPubkey.
  destruct (isP2trScript (scriptPk u) && negb (truthy (pubkey u))); [| reflexivity].
  destruct (requiresPubkey o), (truthy (m !! address u)); reflexivity.
Qed.

(** X3. [fillUtxoPubkey] changes nothing but the [pubkey]: the UTXO it
    returns has the fields of the given one, and either is the given one or
    is a UTXO that is taproot by its script and had no key, with the entry
    of the map for its address as its key. A key that is there is never
    replaced. *)
Theorem fillUtxoPubkey_frame (u filled : Utxo) (m : AddressToPubkeyMap)
    (o : option FillOptions) :
  fillUtxoPubkey isP2trScript u m o = Ok filled ->
  txid filled = txid u /\ vout filled = vout u /\ value filled = value u
  /\ scriptPk filled = scriptPk u /\ addressType filled = addressType u
  /\ address filled = address u
  /\ (filled = u
      \/ (isP2trScript (scriptPk u) = true /\ truthy (pubkey u) = false
          /\ pubkey filled = m !! address u /\ truthy (pubkey filled) = true)).
Proof.
  rewrite fillUtxoPubkey_cases.
  destruct (isP2trScript (scriptPk u)) eqn:Hs; cbn [andb].
  - destruct (truthy (pubkey u)) eqn:Hp; cbn [negb].
    + intros H. injection H as <-. repeat split; auto.
    + destruct (truthy (m !! address u)) eqn:Hm.
      * intros H. injection H as <-. cbn. repeat split; auto.
      * destruct (requiresPubkey o); [discriminate |].
        intros H. injection H as <-. repeat split; auto.
  - intros H. injection H as <-. repeat split; auto.
Qed.

Lemma fillUtxoPubkey_Throw (u : Utxo) (m : AddressToPubkeyMap)
    (o : option FillOptions) (e : exn) :
  fillUtxoPubkey isP2trScript u m o = Throw e ->
  isP2trScript (scriptPk u) = true
  /\ truthy (pubkey u) = false
  /\ requiresPubkey o = true
  /\ truthy (m !! address u) = false
  /\ e = TxBuildError MISSING_PUBKEY (Some (address u)).
Proof.
  rewrite fillUtxoPubkey_cases.
  destruct (isP2trScript (scriptPk u)), (truthy (pubkey u)),
    (truthy (m !! address u)), (requiresPubkey o); cbn [andb negb];
    try discriminate.
  intros H. injection H as <-. auto.
Qed.

(** X4. [fillUtxoPubkey] fails exactly when the UTXO is taproot by its
    script, has no key of its own, the map has none for its address, and
    the key is required; the failure is [MISSING_PUBKEY] with the address.
    An empty string counts as no key, in the UTXO and in the map. *)
Theorem fillUtxoPubkey_throws_iff (u : Utxo) (m : AddressToPubkeyMap)
    (o : option FillOptions) (e : exn) :
  fillUtxoPubkey isP2trScript u m o = Throw e
  <-> isP2trScript (scriptPk u) = true
      /\ truthy (pubkey u) = false
      /\ requiresPubkey o = true
      /\ truthy (m !! address u) = false
      /\ e = TxBuildError MISSING_PUBKEY (Some (address u)).
Proof.
  split; [apply fillUtxoPubkey_Throw |].
  intros (Hs & Hp & Hr & Hm & ->).
  rewrite fillUtxoPubkey_cases, Hs, Hp, Hr, Hm. reflexivity.
Qed.

(** X5. A [P2TR] UTXO with a taproot script that [fillUtxoPubkey] accepts
    when the key is required carries a key, its own or that of the map,
    and [utxoToInput] turns it into an input whose [tapInternalKey] is the
    x-only form of that key. *)
Theorem fillUtxoPubkey_then_utxoToInput (u filled : Utxo)
    (m : AddressToPubkeyMap) :
  addressType u = P2TR ->
  isP2trScript (scriptPk u) = true ->
  fillUtxoPubkey isP2trScript u m (Some {| requirePubkey := Some true |}) = Ok filled ->
  exists pk,
    pubkey filled = Some pk /\ pk <> ""
    /\ (pubkey u = Some pk \/ (truthy (pubkey u) = false /\ m !! address u = Some pk))
    /\ utxoToInput filled
       = Ok {| data :=
                 {| Psbt.hash := txid u;
                    Psbt.index := vout u;
                    Psbt.witnessUtxo :=
                      {| Psbt.value := value u;
                         Psbt.script := Buffer.from_hex (remove0x (scriptPk u)) |};
                    Psbt.tapInternalKey :=
                      Some (toXOnly (Buffer.from_hex (remove0x pk)));
                    Psbt.redeemScript := None |};
               utxo := filled |}.
Proof.
  intros Htype Hscript. rewrite fillUtxoPubkey_cases, Hscript.
  cbn [andb requiresPubkey default].
  destruct (pubkey u) as [[| c pk] |] eqn:Hpk; cbn [truthy negb].
  - destruct (m !! address u) as [[| c' pk'] |] eqn:Hm; cbn [truthy]; try discriminate.
    intros H. injection H as <-.
    exists (String c' pk'). split; [reflexivity |]. split; [discriminate |].
    split; [right; split; reflexivity |].
    unfold utxoToInput. cbn. rewrite Htype. reflexivity.
  - intros H. injection H as <-.
    exists (String c pk). split; [exact Hpk |]. split; [discriminate |].
    split; [left; reflexivity |].
    unfold utxoToInput. rewrite Htype, Hpk. reflexivity.
  - destruct (m !! address u) as [[| c' pk'] |] eqn:Hm; cbn [truthy]; try discriminate.
    intros H. injection H as <-.
    exists (String c' pk'). split; [reflexivity |]. split; [discriminate |].
    split; [right; split; reflexivity |].
    unfold utxoToInput. cbn. rewrite Htype. reflexivity.
Qed.

(** X6. [fillUtxoPubkey] looks at taproot scripts only: a [P2SH_P2WPKH]
    UTXO without its key passes it unchanged, even when the key is
    required, and [utxoToInput] then fails on it with [MISSING_PUBKEY]. *)
Theorem fillUtxoPubkey_skips_wrapped_segwit (u : Utxo) (m : AddressToPubkeyMap)
    (o : option FillOptions) :
  addressType u = P2SH_P2WPKH ->
  isP2trScript (scriptPk u) = false ->
  truthy (pubkey u) = false ->
  fillUtxoPubkey isP2trScript u m o = Ok u
  /\ utxoToInput u = Throw (TxBuildError MISSING_PUBKEY (Some (address u))).
Proof.
  intros Htype Hscript Hpk. split.
  - rewrite fillUtxoPubkey_cases, Hscript. reflexivity.
  - unfold utxoToInput. rewrite Htype.
    destruct (pubkey u) as [pk |]; [| reflexivity].
    rewrite Hpk. reflexivity.
Qed.

End WithScript.

(** A taproot UTXO whose key comes from the map. *)
Lemma fillUtxoPubkey_frame_witness :
  txid (withPubkey taproot_utxo (Some generator_key)) = txid taproot_utxo
  /\ vout (withPubkey taproot_utxo (Some generator_key)) = vout taproot_utxo
  /\ value (withPubkey taproot_utxo (Some generator_key)) = value taproot_utxo
  /\ scriptPk (withPubkey taproot_utxo (Some generator_key)) = scriptPk taproot_utxo
  /\ addressType (withPubkey taproot_utxo (Some generator_key))
     = addressType taproot_utxo
  /\ address (withPubkey taproot_utxo (Some generator_key)) = address taproot_utxo
  /\ (withPubkey taproot_utxo (Some generator_key) = taproot_utxo
      \/ (Script.isP2trScript (scriptPk taproot_utxo) = true
          /\ truthy (pubkey taproot_utxo) = false
          /\ pubkey (withPubkey taproot_utxo (Some generator_key))
             = ({[ address taproot_utxo := generator_key ]} : AddressToPubkeyMap)
                 !! address taproot_utxo
          /\ truthy (pubkey (withPubkey taproot_utxo (Some generator_key))) = true)).
Proof.
  apply (fillUtxoPubkey_frame Script.isP2trScript taproot_utxo
           (withPubkey taproot_utxo (Some generator_key))
           {[ address taproot_utxo := generator_key ]} None).
  vm_compute. reflexivity.
Defined.

Lemma fillUtxoPubkey_then_utxoToInput_witness :
  exists pk,
    pubkey (withPubkey taproot_utxo (Some generator_key)) = Some pk /\ pk <> ""
    /\ (pubkey taproot_utxo = Some pk
        \/ (truthy (pubkey taproot_utxo) = false
            /\ ({[ address taproot_utxo := generator_key ]} : AddressToPubkeyMap)
                 !! address taproot_utxo = Some pk))
    /\ utxoToInput (withPubkey taproot_utxo (Some generator_key))
       = Ok {| data :=
                 {| Psbt.hash := txid taproot_utxo;
                    Psbt.index := vout taproot_utxo;
                    Psbt.witnessUtxo :=
                      {| Psbt.value := value taproot_utxo;
                         Psbt.script :=
                           Buffer.from_hex (remove0x (scriptPk taproot_utxo)) |};
                    Psbt.tapInternalKey :=
                      Some (toXOnly (Buffer.from_hex (remove0x pk)));
                    Psbt.redeemScript := None |};
               utxo := withPubkey taproot_utxo (Some generator_key) |}.
Proof.
  apply (fillUtxoPubkey_then_utxoToInput Script.isP2trScript taproot_utxo
           (withPubkey taproot_utxo (Some generator_key))
           {[ address taproot_utxo := generator_key ]});
    vm_compute; reflexivity.
Defined.

(** A wrapped-segwit UTXO without its key. *)
Lemma fillUtxoPubkey_skips_wrapped_segwit_witness :
  fillUtxoPubkey Script.isP2trScript (withPubkey wrapped_utxo None) ∅
    (Some {| requirePubkey := Some true |})
  = Ok (withPubkey wrapped_utxo None)
  /\ utxoToInput (withPubkey wrapped_utxo None)
     = Throw (TxBuildError MISSING_PUBKEY (Some (address wrapped_utxo))).
Proof.
  apply (fillUtxoPubkey_skips_wrapped_segwit Script.isP2trScript
           (withPubkey wrapped_utxo None) ∅
           (Some {| requirePubkey := Some true |}));
    vm_compute; reflexivity.
Defined.

End FillPubkey.

(** ** transaction/utxo.ts: prepareUtxoInputs *)

Module Prepare.

Import Address Utxo Samples.

Lemma mapM_result_Throw {A B : Type} (f : A -> result B) (l : list A) (e : exn) :
  mapM f l = Throw e ->
  exists before a after,
    l = before ++ a :: after
    /\ Forall (fun x => exists y, f x = Ok y) before
    /\ f a = Throw e.
Proof.
  induction l as [| a l IH]; cbn; [discriminate |].
  destruct (f a) as [b | e'] eqn:Hfa; cbn.
  - destruct (mapM f l) as [k | e'] eqn:Hl; cbn; [discriminate |].
    intros H. injection H as ->.
    destruct (IH eq_refl) as (before & a' & after & -> & Hall & Ha').
    exists (a :: before), a', after. split; [reflexivity |].
    split; [constructor; eauto | exact Ha'].
  - intros H. injection H as ->.
    exists [], a, l. split; [reflexivity |]. split; [constructor | exact Hfa].
Qed.

Lemma Forall2_mapM_result {A B : Type} (f : A -> result B) (l : list A)
    (k : list B) :
  Forall2 (fun a b => f a = Ok b) l k -> mapM f l = Ok k.
Proof.
  induction 1 as [| a b l k Hab _ IH]; cbn; [reflexivity |].
  rewrite Hab. cbn. rewrite IH. reflexivity.
Qed.

Lemma Forall2_In_r {A B : Type} (R : A -> B -> Prop) (l : list A) (k : list B)
    (b : B) :
  Forall2 R l k -> In b k -> exists a, In a l /\ R a b.
Proof.
  induction 1 as [| a b' l k Hab _ IH]; intros Hin; [destruct Hin |].
  destruct Hin as [<- | Hin].
  - exists a. split; [now left | exact Hab].
  - destruct (IH Hin) as (a' & Ha' & HR). exists a'. split; [now right | exact HR].
Qed.

Lemma mapM_id_Ok {A : Type} (outcomes : list (result A)) (vs : list A) :
  mapM (fun o => o) outcomes = Ok vs <-> outcomes = map Ok vs.
Proof.
  split.
  - intros H. apply UtxoProps.mapM_result_Forall2 in H.
    induction H as [| o v l k Hov _ IH]; cbn; [reflexivity |]. now rewrite Hov, IH.
  - intros ->. apply Forall2_mapM_result.
    induction vs as [| v vs IH]; cbn; constructor; auto.
Qed.

Lemma firstRejection_map_Ok {A : Type} (vs : list A) (settled : list nat) :
  firstRejection (map Ok vs) settled = None.
Proof.
  induction settled as [| i rest IH]; cbn; [reflexivity |].
  rewrite list_lookup_fmap. destruct (vs !! i); cbn; exact IH.
Qed.

(** [Promise.all] resolves exactly when every promise resolves, whatever
    the order in which they settle. *)
Lemma promiseAll_Ok {A : Type} (outcomes : list (result A)) (settled : list nat)
    (vs : list A) :
  promiseAll outcomes settled = Ok vs <-> outcomes = map Ok vs.
Proof.
  unfold promiseAll. split.
  - destruct (firstRejection outcomes settled); [discriminate |].
    apply mapM_id_Ok.
  - intros ->. rewrite firstRejection_map_Ok. now apply mapM_id_Ok.
Qed.

Lemma mapM_id_Throw {A : Type} (outcomes : list (result A)) (e : exn) :
  mapM (fun o => o) outcomes = Throw e -> In (Throw e) outcomes.
Proof.
  intros H. apply mapM_result_Throw in H as (before & a & after & -> & _ & ->).
  apply in_elt.
Qed.

Lemma promiseAll_Throw {A : Type} (outcomes : list (result A)) (settled : list nat)
    (e : exn) :
  promiseAll outcomes settled = Throw e -> In (Throw e) outcomes.
Proof.
  unfold promiseAll.
  destruct (firstRejection outcomes settled) as [e' |] eqn:Hfirst.
  - intros H. injection H as <-. eapply UtxoProps.firstRejection_In. exact Hfirst.
  - apply mapM_id_Throw.
Qed.

Lemma confirmationCheck_Ok (source : DataSource) (u : Utxo) (r : unit) :
  confirmationCheck source u = Ok r
  <-> isTransactionConfirmed source (txid u) = Ok true.
Proof.
  unfold confirmationCheck.
  destruct (isTransactionConfirmed source (txid u)) as [[] | e]; cbn;
    destruct r; split; intros H; congruence.
Qed.

Section WithScript.

Variable isP2trScript : string -> bool.

Lemma prepareUtxoInputs_steps (props : PrepareProps) (settled : list nat) :
  prepareUtxoInputs isP2trScript props settled =
  (filled ← filledUtxos isP2trScript props;
   if default false (requireConfirmed props)
   then
     _ ← promiseAll (map (confirmationCheck (source props)) filled) settled;
     Ok filled
   else Ok filled).
Proof. reflexivity. Qed.

Lemma fillUtxoPubkey_filledFrom (u filled : Utxo) (m : AddressToPubkeyMap)
    (o : option FillOptions) :
  fillUtxoPubkey isP2trScript u m o = Ok filled -> filledFrom m u filled.
Proof.
  rewrite FillPubkey.fillUtxoPubkey_cases. unfold filledFrom.
  destruct (isP2trScript (scriptPk u)); cbn [andb].
  - destruct (truthy (pubkey u)) eqn:Hp; cbn [negb].
    + intros H. injection H as <-. now left.
    + destruct (truthy (m !! address u)) eqn:Hm.
      * intros H. injection H as <-. right. auto.
      * destruct (requiresPubkey o); [discriminate |].
        intros H. injection H as <-. now left.
  - intros H. injection H as <-. now left.
Qed.

Lemma filledFrom_txid (m : AddressToPubkeyMap) (u filled : Utxo) :
  filledFrom m u filled -> txid filled = txid u.
Proof. intros [-> | (_ & _ & ->)]; reflexivity. Qed.

Lemma filledUtxos_Forall2 (props : PrepareProps) (filled : list Utxo) :
  filledUtxos isP2trScript props = Ok filled ->
  Forall2 (filledFrom (default ∅ (pubkeyMap props))) (utxos props) filled.
Proof.
  intros H. apply UtxoProps.mapM_result_Forall2 in H.
  eapply Forall2_impl; [exact H |].
  intros u f Hf. eapply fillUtxoPubkey_filledFrom. exact Hf.
Qed.

Lemma Forall2_txids (m : AddressToPubkeyMap) (l filled : list Utxo) :
  Forall2 (filledFrom m) l filled -> map txid filled = map txid l.
Proof.
  induction 1 as [| u f l k Hf _ IH]; cbn; [reflexivity |].
  rewrite IH, (filledFrom_txid _ _ _ Hf). reflexivity.
Qed.

Lemma checks_Ok (source : DataSource) (l : list Utxo) (vs : list unit) :
  map (confirmationCheck source) l = map Ok vs ->
  Forall (fun t => isTransactionConfirmed source t = Ok true) (map txid l).
Proof.
  revert vs. induction l as [| u l IH]; intros vs H; cbn; [constructor |].
  destruct vs as [| v vs]; [discriminate |]. cbn in H. injection H as Hu Hl.
  constructor; [eapply confirmationCheck_Ok; exact Hu | eapply IH; exact Hl].
Qed.

Lemma Ok_checks (source : DataSource) (l : list Utxo) :
  Forall (fun t => isTransactionConfirmed source t = Ok true) (map txid l) ->
  map (confirmationCheck source) l = map Ok (map (fun _ => tt) l).
Proof.
  induction l as [| u l IH]; cbn; [reflexivity |].
  intros H. apply Forall_cons in H as [Hu Hl].
  rewrite (IH Hl). f_equal. now apply confirmationCheck_Ok.
Qed.

Lemma prepareUtxoInputs_Ok_filled (props : PrepareProps) (settled : list nat)
    (out : list Utxo) :
  prepareUtxoInputs isP2trScript props settled = Ok out ->
  filledUtxos isP2trScript props = Ok out.
Proof.
  rewrite prepareUtxoInputs_steps.
  destruct (filledUtxos isP2trScript props) as [filled | e];
    cbn [mbind result_bind]; [| discriminate].
  destruct (default false (requireConfirmed props)); [| exact id].
  destruct (promiseAll _ settled); cbn [mbind result_bind];
    [exact id | discriminate].
Qed.

Lemma prepareUtxoInputs_Ok_confirmed (props : PrepareProps) (settled : list nat)
    (out : list Utxo) :
  prepareUtxoInputs isP2trScript props settled = Ok out ->
  default false (requireConfirmed props) = true ->
  forall u, In u (utxos props) ->
    isTransactionConfirmed (source props) (txid u) = Ok true.
Proof.
  intros H Hreq u Hu. pose proof (prepareUtxoInputs_Ok_filled _ _ _ H) as Hfilled.
  pose proof (Forall2_txids _ _ _ (filledUtxos_Forall2 _ _ Hfilled)) as Htx.
  rewrite prepareUtxoInputs_steps, Hfilled, Hreq in H. cbn [mbind result_bind] in H.
  destruct (promiseAll _ settled) as [vs | e] eqn:Hall; [| discriminate].
  apply promiseAll_Ok, checks_Ok in Hall. rewrite Htx, Forall_forall in Hall.
  apply Hall, list_elem_of_In, in_map, Hu.
Qed.

Lemma filledUtxos_confirmed_Ok (props : PrepareProps) (settled : list nat)
    (out : list Utxo) :
  filledUtxos isP2trScript props = Ok out ->
  (default false (requireConfirmed props) = true ->
   forall u, In u (utxos props) ->
     isTransactionConfirmed (source props) (txid u) = Ok true) ->
  prepareUtxoInputs isP2trScript props settled = Ok out.
Proof.
  intros Hfilled Hconf.
  pose proof (Forall2_txids _ _ _ (filledUtxos_Forall2 _ _ Hfilled)) as Htx.
  rewrite prepareUtxoInputs_steps, Hfilled. cbn [mbind result_bind].
  destruct (default false (requireConfirmed props)); [| reflexivity].
  assert (Hok : promiseAll (map (confirmationCheck (source props)) out) settled
                = Ok (map (fun _ => tt) out)).
  { apply promiseAll_Ok, Ok_checks. rewrite Htx. apply Forall_forall.
    intros t Ht. apply list_elem_of_In, in_map_iff in Ht as (u & <- & Hu).
    now apply Hconf. }
  rewrite Hok. reflexivity.
Qed.

(** X7. The call returns exactly when the first step accepts every UTXO and,
    if confirmation is required, the source reports every transaction of
    the batch as confirmed; it then returns the batch of the first step,
    whatever the order in which the checks settle. *)
Theorem prepareUtxoInputs_returns_iff (props : PrepareProps)
    (settled : list nat) (out : list Utxo) :
  prepareUtxoInputs isP2trScript props settled = Ok out
  <-> filledUtxos isP2trScript props = Ok out
      /\ (default false (requireConfirmed props) = true ->
          forall u, In u (utxos props) ->
            isTransactionConfirmed (source props) (txid u) = Ok true).
Proof.
  split.
  - intros H. split;
      [eapply prepareUtxoInputs_Ok_filled | eapply prepareUtxoInputs_Ok_confirmed];
      exact H.
  - intros [Hfilled Hconf]. now apply filledUtxos_confirmed_Ok.
Qed.

(** X8. Every failure of the call is one of three: [MISSING_PUBKEY] for the
    first UTXO of the batch that is taproot by its script and has a key
    neither of its own nor in the map, when a key is required;
    [UNCONFIRMED_UTXO] for a UTXO of the batch that the source reports as
    unconfirmed, when confirmation is required; or, then too, the error
    with which the source answers the query for a UTXO of the batch. *)
Theorem prepareUtxoInputs_failures (props : PrepareProps) (settled : list nat)
    (e : exn) :
  prepareUtxoInputs isP2trScript props settled = Throw e ->
  (default false (props_requirePubkey props) = true
   /\ exists before u after,
        utxos props = before ++ u :: after
        /\ Forall (fun x =>
                     exists y,
                       fillUtxoPubkey isP2trScript x (default ∅ (pubkeyMap props))
                         (Some {| requirePubkey := props_requirePubkey props |})
                       = Ok y) before
        /\ isP2trScript (scriptPk u) = true
        /\ truthy (pubkey u) = false
        /\ truthy (default ∅ (pubkeyMap props) !! address u) = false
        /\ e = TxBuildError MISSING_PUBKEY (Some (address u)))
  \/ (default false (requireConfirmed props) = true
      /\ exists u,
           In u (utxos props)
           /\ ((isTransactionConfirmed (source props) (txid u) = Ok false
                /\ e = TxBuildError UNCONFIRMED_UTXO (Some (unconfirmedComment u)))
               \/ isTransactionConfirmed (source props) (txid u) = Throw e)).
Proof.
  rewrite prepareUtxoInputs_steps.
  destruct (filledUtxos isP2trScript props) as [filled | e'] eqn:Hfilled;
    cbn [mbind result_bind].
  - destruct (default false (requireConfirmed props)); [| discriminate].
    destruct (promiseAll _ settled) as [vs | e'] eqn:Hall;
      cbn [mbind result_bind]; [discriminate |].
    intros H. injection H as ->. right. split; [reflexivity |].
    apply promiseAll_Throw, in_map_iff in Hall as (f & Hcheck & Hf).
    pose proof (filledUtxos_Forall2 _ _ Hfilled) as Hall2.
    destruct (Forall2_In_r _ _ _ _ Hall2 Hf) as (u & Hu & Hfrom).
    exists u. split; [exact Hu |].
    assert (Hsame : txid f = txid u /\ vout f = vout u)
      by (destruct Hfrom as [-> | (_ & _ & ->)]; split; reflexivity).
    destruct Hsame as [Ht Hv]. unfold confirmationCheck in Hcheck.
    rewrite Ht, Hv in Hcheck.
    destruct (isTransactionConfirmed (source props) (txid u)) as [[] | e'];
      cbn in Hcheck; try discriminate.
    + left. split; [reflexivity |]. injection Hcheck as <-. reflexivity.
    + right. congruence.
  - intros H. injection H as ->. left.
    apply mapM_result_Throw in Hfilled as (before & u & after & Hl & Hbefore & Hu).
    apply FillPubkey.fillUtxoPubkey_Throw in Hu as (Hs & Hp & Hr & Hm & ->).
    split; [exact Hr |]. exists before, u, after. auto 10.
Qed.

(** X9. The call returns the batch in its order, one UTXO for one, each as it
    was or with the [pubkey] it lacked taken from the map. *)
Theorem prepareUtxoInputs_in_order (props : PrepareProps) (settled : list nat)
    (out : list Utxo) :
  prepareUtxoInputs isP2trScript props settled = Ok out ->
  length out = length (utxos props)
  /\ Forall2 (filledFrom (default ∅ (pubkeyMap props))) (utxos props) out.
Proof.
  intros H. apply prepareUtxoInputs_Ok_filled in H.
  apply filledUtxos_Forall2 in H. split; [| exact H].
  symmetry. eapply Forall2_length. exact H.
Qed.

(** X10. When a key is required, every UTXO of the returned batch that is
    taproot by its script carries a key. *)
Theorem prepareUtxoInputs_taproot_keys (props : PrepareProps)
    (settled : list nat) (out : list Utxo) :
  default false (props_requirePubkey props) = true ->
  prepareUtxoInputs isP2trScript props settled = Ok out ->
  Forall (fun f => isP2trScript (scriptPk f) = true -> truthy (pubkey f) = true) out.
Proof.
  intros Hreq H. apply prepareUtxoInputs_Ok_filled in H.
  apply UtxoProps.mapM_result_Forall2 in H.
  induction H as [| u f l k Hf _ IH]; constructor; [| exact IH].
  rewrite FillPubkey.fillUtxoPubkey_cases in Hf.
  cbn [requiresPubkey requirePubkey] in Hf.
  rewrite Hreq in Hf. intros Hs.
  destruct (isP2trScript (scriptPk u)) eqn:Hsu; cbn [andb] in Hf.
  - destruct (truthy (pubkey u)) eqn:Hp; cbn [negb] in Hf.
    + injection Hf as <-. exact Hp.
    + destruct (truthy (default ∅ (pubkeyMap props) !! address u)) eqn:Hm;
        [| discriminate].
      injection Hf as <-. exact Hm.
  - injection Hf as <-. congruence.
Qed.

Lemma fillUtxoPubkey_again (u filled : Utxo) (m : AddressToPubkeyMap)
    (o : option FillOptions) :
  fillUtxoPubkey isP2trScript u m o = Ok filled ->
  fillUtxoPubkey isP2trScript filled m o = Ok filled.
Proof.
  rewrite !FillPubkey.fillUtxoPubkey_cases.
  destruct (isP2trScript (scriptPk u)) eqn:Hs; cbn [andb].
  - destruct (truthy (pubkey u)) eqn:Hp; cbn [negb].
    + intros H. injection H as <-. rewrite Hs, Hp. reflexivity.
    + destruct (truthy (m !! address u)) eqn:Hm.
      * intros H. injection H as <-. cbn. rewrite Hs, Hm. reflexivity.
      * destruct (requiresPubkey o) eqn:Hr; [discriminate |].
        intros H. injection H as <-. rewrite Hs, Hp, Hm. reflexivity.
  - intros H. injection H as <-. rewrite Hs. reflexivity.
Qed.

(** X11. Preparing a prepared batch again, with the same map, requirements and
    source, returns it unchanged. *)
Theorem prepareUtxoInputs_idempotent (props : PrepareProps)
    (settled settled' : list nat) (out : list Utxo) :
  prepareUtxoInputs isP2trScript props settled = Ok out ->
  prepareUtxoInputs isP2trScript (withUtxos props out) settled' = Ok out.
Proof.
  intros H0. pose proof (prepareUtxoInputs_Ok_filled _ _ _ H0) as H.
  pose proof (prepareUtxoInputs_Ok_confirmed _ _ _ H0) as Hconf.
  pose proof (filledUtxos_Forall2 _ _ H) as Hall2.
  apply filledUtxos_confirmed_Ok; cbn [withUtxos requireConfirmed utxos source].
  - unfold filledUtxos in *. cbn [withUtxos utxos pubkeyMap props_requirePubkey].
    apply UtxoProps.mapM_result_Forall2 in H. apply Forall2_mapM_result.
    clear -H. induction H as [| u f l k Hf _ IH]; constructor; [| exact IH].
    eapply fillUtxoPubkey_again. exact Hf.
  - intros Hreq f Hf.
    destruct (Forall2_In_r _ _ _ _ Hall2 Hf) as (u & Hu & Hfrom).
    rewrite (filledFrom_txid _ _ _ Hfrom). apply Hconf; [exact Hreq | exact Hu].
Qed.

End WithScript.

Import Batches.

Lemma prepareUtxoInputs_failures_witness :
  (default false (props_requirePubkey keyless_batch) = true
   /\ exists before u after,
        utxos keyless_batch = before ++ u :: after
        /\ Forall (fun x =>
                     exists y,
                       fillUtxoPubkey Script.isP2trScript x
                         (default ∅ (pubkeyMap keyless_batch))
                         (Some {| requirePubkey := props_requirePubkey keyless_batch |})
                       = Ok y) before
        /\ Script.isP2trScript (scriptPk u) = true
        /\ truthy (pubkey u) = false
        /\ truthy (default ∅ (pubkeyMap keyless_batch) !! address u) = false
        /\ TxBuildError MISSING_PUBKEY (Some (address taproot_utxo))
           = TxBuildError MISSING_PUBKEY (Some (address u)))
  \/ (default false (requireConfirmed keyless_batch) = true
      /\ exists u,
           In u (utxos keyless_batch)
           /\ ((isTransactionConfirmed (source keyless_batch) (txid u) = Ok false
                /\ TxBuildError MISSING_PUBKEY (Some (address taproot_utxo))
                   = TxBuildError UNCONFIRMED_UTXO (Some (unconfirmedComment u)))
               \/ isTransactionConfirmed (source keyless_batch) (txid u)
                  = Throw (TxBuildError MISSING_PUBKEY (Some (address taproot_utxo))))).
Proof.
  apply (prepareUtxoInputs_failures Script.isP2trScript keyless_batch [0%nat; 1%nat]).
  vm_compute. reflexivity.
Defined.

Lemma prepareUtxoInputs_in_order_witness :
  length keyed_batch_prepared = length (utxos keyed_batch)
  /\ Forall2 (filledFrom (default ∅ (pubkeyMap keyed_batch))) (utxos keyed_batch)
       keyed_batch_prepared.
Proof.
  apply (prepareUtxoInputs_in_order Script.isP2trScript keyed_batch [1%nat; 0%nat]).
  vm_compute. reflexivity.
Defined.

Lemma prepareUtxoInputs_taproot_keys_witness :
  Forall (fun f => Script.isP2trScript (scriptPk f) = true -> truthy (pubkey f) = true)
    keyed_batch_prepared.
Proof.
  apply (prepareUtxoInputs_taproot_keys Script.isP2trScript keyed_batch
           [0%nat; 1%nat]); vm_compute; reflexivity.
Defined.

Lemma prepareUtxoInputs_idempotent_witness :
  prepareUtxoInputs Script.isP2trScript (withUtxos keyed_batch keyed_batch_prepared)
    [1%nat; 0%nat]
  = Ok keyed_batch_prepared.
Proof.
  apply (prepareUtxoInputs_idempotent Script.isP2trScript keyed_batch
           [0%nat; 1%nat]).
  vm_compute. reflexivity.
Defined.

End Prepare.

(** ** address.ts: the map from addresses to public keys *)

Module PubkeyMap.

Import Address Utxo Samples.

(** X12. Looking an address up in the map that [addAddressToPubkeyMap]
    returns gives the added key at the added address, when that key is
    neither absent nor empty, and what the given map holds everywhere
    else. *)
Theorem addAddressToPubkeyMap_lookup (m : AddressToPubkeyMap)
    (a a' : string) (pk : option string) :
  addAddressToPubkeyMap m a pk !! a'
  = if truthy pk && bool_decide (a' = a) then pk else m !! a'.
Proof.
  unfold addAddressToPubkeyMap.
  destruct pk as [[| c pk] |]; cbn [truthy andb]; try reflexivity.
  destruct (bool_decide_reflect (a' = a)) as [-> | Hne].
  - apply lookup_insert_eq.
  - apply lookup_insert_ne. congruence.
Qed.

Lemma lookup_added (m : AddressToPubkeyMap) (a pk : string) :
  pk <> "" -> addAddressToPubkeyMap m a (Some pk) !! a = Some pk.
Proof.
  intros Hpk. destruct pk as [| c pk]; [contradiction |]. apply lookup_insert_eq.
Qed.

(** X13. A key added with [addAddressToPubkeyMap] for the address of a
    UTXO that is taproot by its script and has no key is the key that
    [fillUtxoPubkey] gives this UTXO, whatever the map held before and
    whatever the options. *)
Theorem addAddressToPubkeyMap_fills (isP2trScript : string -> bool) (u : Utxo)
    (m : AddressToPubkeyMap) (pk : string) (o : option FillOptions) :
  isP2trScript (scriptPk u) = true ->
  truthy (pubkey u) = false ->
  pk <> "" ->
  fillUtxoPubkey isP2trScript u (addAddressToPubkeyMap m (address u) (Some pk)) o
  = Ok (withPubkey u (Some pk)).
Proof.
  intros Hs Hp Hpk. rewrite FillPubkey.fillUtxoPubkey_cases, Hs, Hp.
  cbn [andb negb]. rewrite lookup_added by exact Hpk.
  destruct pk as [| c pk]; [contradiction | reflexivity].
Qed.

Lemma addAddressToPubkeyMap_fills_witness :
  fillUtxoPubkey Script.isP2trScript taproot_utxo
    (addAddressToPubkeyMap ∅ (address taproot_utxo) (Some generator_key))
    (Some {| requirePubkey := Some true |})
  = Ok (withPubkey taproot_utxo (Some generator_key)).
Proof.
  apply (addAddressToPubkeyMap_fills Script.isP2trScript taproot_utxo ∅
           generator_key (Some {| requirePubkey := Some true |}));
    [vm_compute; reflexivity | reflexivity | discriminate].
Defined.

End PubkeyMap.

(** ** address.ts: what publicKeyToAddress returns *)

Module Generated.

Import Address Utxo Samples.

(** The address that [publicKeyToAddress] returns, by address type. *)
Lemma publicKeyToAddress_Ok (publicKey : string) (t : AddressType)
    (n : NetworkType) (a : string) :
  publicKeyToAddress publicKey t n = Ok a ->
  publicKey <> ""
  /\ match t with
     | P2PKH =>
         Ecc.isPoint (Buffer.from_hex (remove0x publicKey)) = true
         /\ a = Bitcoin.toBase58Check
                  (Crypto.hash160 (Buffer.from_hex (remove0x publicKey)))
                  (Bitcoin.pubKeyHash (networkTypeToNetwork n))
     | P2WPKH =>
         Ecc.isPoint (Buffer.from_hex (remove0x publicKey)) = true
         /\ length (Buffer.from_hex (remove0x publicKey)) = 33%nat
         /\ Bitcoin.toBech32
              (Crypto.hash160 (Buffer.from_hex (remove0x publicKey))) 0
              (Bitcoin.bech32 (networkTypeToNetwork n)) = Ok a
     | P2TR =>
         exists tweaked,
           Bitcoin.tweakKey (toXOnly (Buffer.from_hex (remove0x publicKey)))
           = Some tweaked
           /\ Ecc.isXOnlyPoint tweaked = true
           /\ Bitcoin.toBech32 tweaked 1 (Bitcoin.bech32 (networkTypeToNetwork n))
              = Ok a
     | P2SH_P2WPKH =>
         Ecc.isPoint (Buffer.from_hex (remove0x publicKey)) = true
         /\ length (Buffer.from_hex (remove0x publicKey)) = 33%nat
         /\ a = Bitcoin.toBase58Check
                  (Crypto.hash160
                     ([x00; x14]
                        ++ Crypto.hash160 (Buffer.from_hex (remove0x publicKey))))
                  (Bitcoin.scriptHash (networkTypeToNetwork n))
     | P2WSH | P2SH | UNKNOWN => False
     end.
Proof.
  unfold publicKeyToAddress, publicKeyToPayment.
  destruct publicKey as [| c0 k0]; [discriminate |].
  rewrite Succeeds.truthy_String. cbn [negb].
  set (pubkey := Buffer.from_hex (remove0x (String c0 k0))).
  intros H. split; [discriminate |]. revert H.
  destruct t; try discriminate.
  - unfold Bitcoin.p2pkh.
    destruct (Ecc.isPoint pubkey); cbn [negb]; [| discriminate].
    cbn [mbind result_bind Bitcoin.address]. intros H.
    apply RoundTrip.address_truthy in H as <-. split; reflexivity.
  - unfold Bitcoin.p2wpkh.
    destruct (Ecc.isPoint pubkey); cbn [negb]; [| discriminate].
    destruct (length pubkey =? 33)%nat eqn:Hlen; cbn [negb]; [| discriminate].
    cbn [mbind result_bind Bitcoin.address].
    destruct (Bitcoin.toBech32 _ _ _) as [a' | err]; [| discriminate].
    cbn [mbind result_bind]. intros H. apply RoundTrip.address_truthy in H as <-.
    split; [reflexivity |]. split; [now apply Nat.eqb_eq | reflexivity].
  - unfold Bitcoin.p2tr.
    destruct (negb (length (toXOnly pubkey) =? 32)%nat); [discriminate |].
    destruct (Bitcoin.tweakKey (toXOnly pubkey)) as [tweaked |]; [| discriminate].
    destruct (Ecc.isXOnlyPoint tweaked) eqn:Hx; cbn [negb]; [| discriminate].
    cbn [mbind result_bind Bitcoin.address].
    destruct (Bitcoin.toBech32 _ _ _) as [a' | err] eqn:Henc; [| discriminate].
    cbn [mbind result_bind]. intros H. apply RoundTrip.address_truthy in H as <-.
    exists tweaked. split; [reflexivity |]. split; [exact Hx | exact Henc].
  - unfold Bitcoin.p2wpkh.
    destruct (Ecc.isPoint pubkey); cbn [negb]; [| discriminate].
    destruct (length pubkey =? 33)%nat eqn:Hlen; cbn [negb]; [| discriminate].
    cbn [mbind result_bind]. unfold Bitcoin.p2sh.
    destruct (_ <? 1)%nat; [discriminate |].
    destruct (520 <? _)%nat; [discriminate |].
    cbn [mbind result_bind Bitcoin.address Bitcoin.output]. intros H.
    apply RoundTrip.address_truthy in H as <-.
    split; [reflexivity |]. split; [now apply Nat.eqb_eq | reflexivity].
Qed.

Lemma table_pubKeyHash (n : NetworkType) :
  Bitcoin.pubKeyHash (networkTypeToNetwork n) = 0x00
  \/ Bitcoin.pubKeyHash (networkTypeToNetwork n) = 0x05
  \/ Bitcoin.pubKeyHash (networkTypeToNetwork n) = 0x6f
  \/ Bitcoin.pubKeyHash (networkTypeToNetwork n) = 0xc4.
Proof. destruct n; cbn; auto. Qed.

Lemma table_scriptHash (n : NetworkType) :
  Bitcoin.scriptHash (networkTypeToNetwork n) = 0x00
  \/ Bitcoin.scriptHash (networkTypeToNetwork n) = 0x05
  \/ Bitcoin.scriptHash (networkTypeToNetwork n) = 0x6f
  \/ Bitcoin.scriptHash (networkTypeToNetwork n) = 0xc4.
Proof. destruct n; cbn; auto. Qed.

(** The branch of [decodeAddress] on a returned address. *)
Lemma publicKeyToAddress_takenBranch (publicKey : string) (t : AddressType)
    (n : NetworkType) (a : string) :
  publicKeyToAddress publicKey t n = Ok a ->
  takenBranch a = Ok (Some (decodedNetworkType t n), Some t).
Proof.
  intros H. apply publicKeyToAddress_Ok in H as [_ H].
  destruct t; try contradiction.
  - destruct H as [_ ->].
    rewrite RoundTrip.decode_base58;
      [| apply hash160_length | apply table_pubKeyHash].
    destruct n; reflexivity.
  - destruct H as (_ & _ & Henc).
    rewrite (RoundTrip.decode_bech32 _ _ _ _ Henc).
    unfold bech32AddressType. cbn [Bitcoin.version Bitcoin.data Bitcoin.is_version].
    rewrite hash160_length. reflexivity.
  - destruct H as (tweaked & Htweak & _ & Henc).
    rewrite (RoundTrip.decode_bech32 _ _ _ _ Henc).
    unfold bech32AddressType. cbn [Bitcoin.version Bitcoin.data Bitcoin.is_version].
    destruct (Succeeds.tweakKey_Some _ _ Htweak) as [_ ->]. reflexivity.
  - destruct H as (_ & _ & ->).
    rewrite RoundTrip.decode_base58;
      [| apply hash160_length | apply table_scriptHash].
    destruct n; reflexivity.
Qed.


(** X18. [getAddressType] gives back the address type of every address that
    [publicKeyToAddress] returns. *)
Theorem publicKeyToAddress_getAddressType (publicKey : string)
    (t : AddressType) (n : NetworkType) (a : string) :
  publicKeyToAddress publicKey t n = Ok a -> getAddressType a = Ok t.
Proof.
  intros H. apply publicKeyToAddress_takenBranch in H.
  unfold getAddressType. rewrite AddressProps.decodeAddress_takenBranch, H.
  reflexivity.
Qed.

Lemma publicKeyToAddress_getAddressType_witness :
  getAddressType "bc1pmfr3p9j00pfxjh0zmgp99y8zftmd3s5pmedqhyptwy6lm87hf5sspknck9"
  = Ok P2TR.
Proof.
  apply (publicKeyToAddress_getAddressType generator_key P2TR MAINNET).
  vm_compute. reflexivity.
Defined.

(** X19. [isSupportedFromAddress] accepts the addresses that
    [publicKeyToAddress] returns, those of type [P2PKH] excepted. *)
Theorem publicKeyToAddress_isSupportedFromAddress (publicKey : string)
    (t : AddressType) (n : NetworkType) (a : string) :
  publicKeyToAddress publicKey t n = Ok a ->
  isSupportedFromAddress a = Ok (negb (bool_decide (t = P2PKH))).
Proof.
  intros H. pose proof (publicKeyToAddress_Ok _ _ _ _ H) as [_ Ht].
  apply publicKeyToAddress_takenBranch in H.
  unfold isSupportedFromAddress. rewrite AddressProps.decodeAddress_takenBranch, H.
  destruct t; try contradiction; reflexivity.
Qed.

Lemma publicKeyToAddress_isSupportedFromAddress_witness :
  isSupportedFromAddress "mrCDrCybB6J1vRfbwM5hemdJz73FwDBC8r" = Ok false.
Proof.
  apply (publicKeyToAddress_isSupportedFromAddress generator_key P2PKH REGTEST).
  vm_compute. reflexivity.
Defined.

(** X20. [isSupportedFromAddress] raises for no string, and answers [true]
    exactly for the strings that [getAddressType] classifies as [P2WPKH],
    [P2TR] or [P2SH_P2WPKH]; its test for [P2SH] decides nothing. *)
Theorem isSupportedFromAddress_iff (a : string) :
  exists t,
    getAddressType a = Ok t
    /\ t <> P2SH
    /\ isSupportedFromAddress a
       = Ok (bool_decide (t = P2WPKH) || bool_decide (t = P2TR)
             || bool_decide (t = P2SH_P2WPKH)).
Proof.
  unfold getAddressType, isSupportedFromAddress.
  rewrite AddressProps.decodeAddress_takenBranch.
  pose proof (AddressProps.takenBranch_not_P2SH a) as Hn.
  destruct (takenBranch a) as [[[n |] [t |]] | e]; cbn;
    try (exists UNKNOWN; split; [reflexivity | split; [discriminate | reflexivity]]).
  exists t. split; [reflexivity |].
  assert (Ht : t <> P2SH) by (intros ->; exact (Hn (Some n) eq_refl)).
  split; [exact Ht |]. destruct t; try reflexivity. contradiction.
Qed.




End Generated.

(** ** address.ts: the key as it is written *)

Module KeyText.

Import Address Utxo Samples.

Lemma from_hex_unprefixed (s : string) :
  Buffer.from_hex s <> [] -> String.prefix "0x" s = false.
Proof.
  intros H. destruct s as [| a [| b rest]];
    [reflexivity | exfalso; apply H; reflexivity |].
  cbn [String.prefix].
  destruct (ascii_dec "0" a) as [<- |]; [| reflexivity].
  destruct (ascii_dec "x" b) as [<- |]; [| reflexivity].
  exfalso. apply H. reflexivity.
Qed.

Lemma remove0x_from_hex (s : string) :
  Buffer.from_hex s <> [] -> remove0x s = s.
Proof. intros H. now apply UtxoProps.remove0x_unprefixed, from_hex_unprefixed. Qed.

Lemma length_nonempty {A : Type} (l : list A) (n : nat) :
  length l = S n -> l <> [].
Proof. intros H ->. discriminate. Qed.

(** X16. [publicKeyToAddress] reads a key with and without the ['0x'] prefix
    alike. *)
Theorem publicKeyToAddress_0x_prefix (publicKey : string) (t : AddressType)
    (n : NetworkType) :
  publicKey <> "" ->
  String.prefix "0x" publicKey = false ->
  publicKeyToAddress ("0x" ++ publicKey) t n = publicKeyToAddress publicKey t n.
Proof.
  intros Hne Hpre. unfold publicKeyToAddress, publicKeyToPayment.
  destruct publicKey as [| c k]; [contradiction |].
  rewrite UtxoProps.remove0x_prefixed, (UtxoProps.remove0x_unprefixed _ Hpre).
  reflexivity.
Qed.

Lemma publicKeyToAddress_0x_prefix_witness :
  publicKeyToAddress ("0x" ++ generator_key) P2WPKH TESTNET
  = publicKeyToAddress generator_key P2WPKH TESTNET.
Proof.
  apply (publicKeyToAddress_0x_prefix generator_key P2WPKH TESTNET);
    [discriminate | reflexivity].
Defined.

(** X17. A taproot address is made from the 32 bytes that follow the first byte
    of a 33-byte key, whatever that byte is: the key with its parity byte
    and the x-only key have the same address. *)
Theorem publicKeyToAddress_P2TR_first_byte (a b : ascii) (hi lo : Z)
    (xonly : string) (n : NetworkType) :
  Buffer.unhex a = Some hi ->
  Buffer.unhex b = Some lo ->
  length (Buffer.from_hex xonly) = 32%nat ->
  publicKeyToAddress (String a (String b xonly)) P2TR n
  = publicKeyToAddress xonly P2TR n.
Proof.
  intros Ha Hb Hlen.
  assert (Hx : remove0x xonly = xonly)
    by (eapply remove0x_from_hex, length_nonempty; exact Hlen).
  assert (Hfull : Buffer.from_hex (String a (String b xonly))
                  = byte_of_Z (16 * hi + lo) :: Buffer.from_hex xonly)
    by (cbn [Buffer.from_hex]; rewrite Ha, Hb; reflexivity).
  assert (Hr : remove0x (String a (String b xonly)) = String a (String b xonly))
    by (apply remove0x_from_hex; rewrite Hfull; discriminate).
  unfold publicKeyToAddress, publicKeyToPayment.
  rewrite Hr, Hx, Hfull.
  destruct xonly as [| c k]; [discriminate |].
  rewrite !Succeeds.truthy_String. cbn [negb].
  set (x := Buffer.from_hex (String c k)) in *.
  assert (Hto : toXOnly (byte_of_Z (16 * hi + lo) :: x) = toXOnly x).
  { unfold toXOnly, Buffer.subarray. cbn [length]. rewrite Hlen.
    cbn [Nat.eqb Nat.sub skipn]. rewrite <- Hlen. apply firstn_all. }
  rewrite Hto. reflexivity.
Qed.

Lemma publicKeyToAddress_P2TR_first_byte_witness :
  publicKeyToAddress generator_key P2TR MAINNET
  = publicKeyToAddress
      "79be667ef9dcbbac55a06295ce870b07029bfcdb2dce28d959f2815b16f81798"
      P2TR MAINNET.
Proof.
  apply (publicKeyToAddress_P2TR_first_byte "0" "2" 0 2
           "79be667ef9dcbbac55a06295ce870b07029bfcdb2dce28d959f2815b16f81798"
           MAINNET); reflexivity.
Defined.

End KeyText.

(** ** address.ts: decodeAddress on segwit addresses *)

Module Segwit.

Import Address Utxo Samples.

(** X21. [decodeAddress] on the address of a witness program, made for one of
    the three networks: a program of version 0 is [P2WPKH] at 20 bytes and
    [P2WSH] at 32, a program of version 1 is [P2TR] at 32 bytes, each with
    the network of its prefix; any other address, valid as it may be, is
    [UNKNOWN] on [MAINNET]. *)
Theorem decodeAddress_toBech32 (program : bytes) (v : Z) (n : NetworkType)
    (a : string) :
  Bitcoin.toBech32 program v (Bitcoin.bech32 (networkTypeToNetwork n)) = Ok a ->
  decodeAddress a
  = Ok (if (v =? 0) && (length program =? 20)%nat
        then {| Address.networkType := n;
                Address.addressType := P2WPKH;
                dust := 294 |}
        else if (v =? 0) && (length program =? 32)%nat
        then {| Address.networkType := n;
                Address.addressType := P2WSH;
                dust := 546 |}
        else if (v =? 1) && (length program =? 32)%nat
        then {| Address.networkType := n;
                Address.addressType := P2TR;
                dust := 330 |}
        else {| Address.networkType := MAINNET;
                Address.addressType := UNKNOWN;
                dust := 546 |}).
Proof.
  intros Henc. rewrite AddressProps.decodeAddress_takenBranch.
  rewrite (RoundTrip.decode_bech32 _ _ _ _ Henc).
  unfold bech32AddressType. cbn [Bitcoin.version Bitcoin.data Bitcoin.is_version].
  destruct (v =? 0) eqn:Hv0; cbn [andb].
  - destruct (length program =? 20)%nat; [reflexivity |].
    destruct (length program =? 32)%nat; [reflexivity |].
    apply Z.eqb_eq in Hv0 as ->. reflexivity.
  - destruct (v =? 1); cbn [andb]; [| reflexivity].
    destruct (length program =? 32)%nat; reflexivity.
Qed.

(** A program of version 2 on the test network. *)
Lemma decodeAddress_toBech32_witness :
  Bitcoin.toBech32 (Buffer.from_hex "751e76e8199196d454941c45d1b3a323") 2 "tb"
  = Ok "tb1zw508d6qejxtdg4y5r3zarvaryv5p829g"
  /\ decodeAddress "tb1zw508d6qejxtdg4y5r3zarvaryv5p829g"
     = Ok {| Address.networkType := MAINNET;
             Address.addressType := UNKNOWN;
             dust := 546 |}.
Proof.
  assert (H : Bitcoin.toBech32 (Buffer.from_hex "751e76e8199196d454941c45d1b3a323")
                2 "tb"
              = Ok "tb1zw508d6qejxtdg4y5r3zarvaryv5p829g")
    by (vm_compute; reflexivity).
  split; [exact H |].
  exact (decodeAddress_toBech32 _ 2 TESTNET _ H).
Defined.

End Segwit.

(** ** utxo.ts and address.ts: the input of a UTXO and the address of its key *)

Module InputAddress.

Import Address Utxo Samples.



(** X23. The taproot address of a key commits to the tweak of the internal key
    that [utxoToInput] attaches to a [P2TR] UTXO with that key: the witness
    program of the address is the tweaked key. *)
Theorem utxoToInput_tapInternalKey_address (u : Utxo) (n : NetworkType)
    (input : TxInput) (pk a : string) :
  addressType u = P2TR ->
  pubkey u = Some pk ->
  utxoToInput u = Ok input ->
  publicKeyToAddress pk P2TR n = Ok a ->
  exists internal tweaked,
    Psbt.tapInternalKey (data input) = Some internal
    /\ Bitcoin.tweakKey internal = Some tweaked
    /\ Bitcoin.fromBech32 a
       = Ok {| Bitcoin.version := Some 1;
               Bitcoin.prefix := Bitcoin.bech32 (networkTypeToNetwork n);
               Bitcoin.data := tweaked |}.
Proof.
  intros Htype Hpk Hin Ha.
  apply Generated.publicKeyToAddress_Ok in Ha as (Hne & tweaked & Htweak & _ & Henc).
  unfold utxoToInput in Hin. rewrite Htype, Hpk in Hin.
  destruct pk as [| c k]; [contradiction |].
  rewrite Succeeds.truthy_String in Hin. cbn [negb] in Hin. injection Hin as <-.
  exists (toXOnly (Buffer.from_hex (remove0x (String c k)))), tweaked.
  split; [reflexivity |]. split; [exact Htweak |].
  apply Bech32Address.fromBech32_toBech32; [| | exact Henc]; destruct n;
    reflexivity || discriminate.
Qed.

Lemma utxoToInput_tapInternalKey_address_witness :
  exists internal tweaked,
    Psbt.tapInternalKey (data Batches.taproot_input) = Some internal
    /\ Bitcoin.tweakKey internal = Some tweaked
    /\ Bitcoin.fromBech32
         "bc1pmfr3p9j00pfxjh0zmgp99y8zftmd3s5pmedqhyptwy6lm87hf5sspknck9"
       = Ok {| Bitcoin.version := Some 1;
               Bitcoin.prefix := Bitcoin.bech32 (networkTypeToNetwork MAINNET);
               Bitcoin.data := tweaked |}.
Proof.
  apply (utxoToInput_tapInternalKey_address
           (withPubkey taproot_utxo (Some generator_key)) MAINNET
           Batches.taproot_input generator_key);
    vm_compute; reflexivity.
Defined.

End InputAddress.

(** ** bitcoinjs-lib: a long string is no base58check address *)

Module Base58Long.

Import Address Utxo Samples.

Lemma indexOf_range (c : ascii) (l : list ascii) (v : Z) :
  indexOf c l = Some v -> 0 <= v < Z.of_nat (length l).
Proof.
  revert v. induction l as [| x l IH]; intros v; cbn [indexOf]; [discriminate |].
  destruct (Ascii.eqb c x).
  - intros H. injection H as <-. cbn [length]. lia.
  - destruct (indexOf c l) as [w |]; [| discriminate]. cbn [option_map].
    intros H. injection H as <-. specialize (IH w eq_refl). cbn [length]. lia.
Qed.

Lemma indexOf_zero (c x : ascii) (l : list ascii) :
  indexOf c (x :: l) = Some 0 -> c = x.
Proof.
  cbn [indexOf]. destruct (Ascii.eqb_spec c x) as [-> | Hne]; [reflexivity |].
  destruct (indexOf c l) as [w |] eqn:Hw; [| discriminate].
  apply indexOf_range in Hw. cbn [option_map]. intros H. injection H as H. lia.
Qed.

Lemma mapM_cons_Some {A B : Type} (f : A -> option B) (c : A) (cs : list A)
    (ds : list B) :
  mapM f (c :: cs) = Some ds ->
  exists d ds', f c = Some d /\ mapM f cs = Some ds' /\ ds = d :: ds'.
Proof.
  cbn. destruct (f c) as [d |]; [| discriminate]. cbn.
  destruct (mapM f cs) as [ds' |]; [| discriminate]. cbn.
  intros H. injection H as <-. eauto.
Qed.

Lemma mapM_indexOf_range (alphabet cs : list ascii) (ds : list Z) :
  mapM (fun c => indexOf c alphabet) cs = Some ds ->
  length ds = length cs
  /\ Forall (fun d => 0 <= d < Z.of_nat (length alphabet)) ds.
Proof.
  revert ds. induction cs as [| c cs IH]; intros ds.
  - cbn. intros H. injection H as <-. split; [reflexivity | constructor].
  - intros H. apply mapM_cons_Some in H as (d & ds' & Hd & Hds' & ->).
    destruct (IH ds' Hds') as [Hlen Hall].
    split; [cbn [length]; now rewrite Hlen |].
    constructor; [eapply indexOf_range; exact Hd | exact Hall].
Qed.

(** The bytes of a number from [256 ^ k] up are more than [k]. *)
Lemma to_base_256_long (n : Z) (k : nat) :
  256 ^ Z.of_nat k <= n ->
  (k < length (to_base 256 (digits_fuel n) n))%nat.
Proof.
  intros Hn.
  assert (H0 : 0 < 256 ^ Z.of_nat k) by (apply Z.pow_pos_nonneg; lia).
  assert (Hn0 : 0 <= n) by lia.
  assert (Hof : of_base 256 (to_base 256 (digits_fuel n) n) = n).
  { apply of_base_to_base; [lia |]. split; [exact Hn0 |].
    now apply digits_fuel_enough. }
  assert (Hb : 0 <= of_base 256 (to_base 256 (digits_fuel n) n)
               < 256 ^ Z.of_nat (length (to_base 256 (digits_fuel n) n))).
  { apply of_base_bound; [lia |]. apply to_base_range. lia. }
  rewrite Hof in Hb.
  destruct (Nat.lt_ge_cases k (length (to_base 256 (digits_fuel n) n)))
    as [Hlt | Hge]; [exact Hlt | exfalso].
  assert (256 ^ Z.of_nat (length (to_base 256 (digits_fuel n) n))
          <= 256 ^ Z.of_nat k) by (apply Z.pow_le_mono_r; lia).
  lia.
Qed.

Lemma fromBase58Check_long (c : ascii) (rest : string) :
  c <> "1"%char ->
  (35 <= String.length rest)%nat ->
  exists e, Bitcoin.fromBase58Check (String c rest) = Throw e.
Proof.
  intros Hc Hlen. unfold Bitcoin.fromBase58Check, Bs58check.decode, Base58.decodeUnsafe.
  destruct (mapM _ (list_ascii_of_string (String c rest))) as [ds |] eqn:Hds;
    [| cbn; eauto].
  (* the digits *)
  cbn [list_ascii_of_string] in Hds.
  apply mapM_cons_Some in Hds as (d0 & ds' & Hd0 & Hds' & ->).
  assert (Hd0pos : 1 <= d0).
  { pose proof (indexOf_range _ _ _ Hd0) as Hr.
    destruct (Z.eq_dec d0 0) as [-> | Hne]; [| lia].
    exfalso. apply Hc. exact (indexOf_zero _ _ _ Hd0). }
  pose proof (mapM_indexOf_range _ _ _ Hds') as [Hrl Hrrange].
  assert (Hr35 : (35 <= length ds')%nat).
  { rewrite Hrl. clear -Hlen. revert Hlen. generalize 35%nat.
    induction rest as [| a r IH]; intros k; cbn; [lia |].
    destruct k; [lia |]. intros H. apply le_n_S, IH. lia. }
  set (n := of_base 58 (d0 :: ds')).
  assert (Hn : 256 ^ Z.of_nat 25 <= n).
  { unfold n. rewrite of_base_cons.
    assert (0 <= of_base 58 ds').
    { apply of_base_nonneg; [lia |]. eapply Forall_impl; [exact Hrrange |].
      cbn. intros; lia. }
    assert (58 ^ 35 <= 58 ^ Z.of_nat (length ds'))
      by (apply Z.pow_le_mono_r; lia).
    assert (256 ^ Z.of_nat 25 <= 58 ^ 35) by (vm_compute; discriminate).
    nia. }
  pose proof (to_base_256_long n 25 Hn) as Hlong.
  cbn [leading]. replace (d0 =? 0) with false by (symmetry; apply Z.eqb_neq; lia).
  cbn [repeat app].
  set (buffer := map byte_of_Z (to_base 256 (digits_fuel n) n)).
  assert (Hbuf : (25 < length buffer)%nat) by (unfold buffer; now rewrite length_map).
  unfold Bs58check.decodeRaw.
  destruct (_ =? 0); [| cbn; eauto].
  cbn [mbind result_bind].
  assert (Hpay : length (firstn (length buffer - 4) buffer) = (length buffer - 4)%nat)
    by (apply firstn_length_le; lia).
  rewrite Hpay.
  destruct (Nat.ltb_spec (length buffer - 4) 21); [lia |].
  destruct (Nat.ltb_spec 21 (length buffer - 4)); [eauto | lia].
Qed.

End Base58Long.

(** ** address.ts: from an address to its script *)

Module ScriptOf.

Import Address Utxo Samples.

Lemma length_string_of_list_ascii (l : list ascii) :
  String.length (string_of_list_ascii l) = length l.
Proof. induction l as [| c l IH]; cbn; [reflexivity | now rewrite IH]. Qed.

(** The size of a bech32 string. *)
Lemma encode_length (e : Bech32.encoding) (pre : string) (ws : list Z) (s : string) :
  Bech32.encode e pre ws = Ok s ->
  String.length s = (String.length pre + 7 + length ws)%nat.
Proof.
  unfold Bech32.encode.
  destruct (_ <? _)%nat; [discriminate |].
  destruct (Bech32.prefixChk _); [| discriminate]. cbn [mbind result_bind].
  destruct (negb _); [discriminate |].
  set (tail := map _ [0; 1; 2; 3; 4; 5]).
  assert (Htail : length tail = 6%nat) by (unfold tail; now rewrite length_map).
  clearbody tail.
  intros H. apply (f_equal (fun r => match r with
                                     | Ok x => String.length x
                                     | Throw _ => O
                                     end)) in H.
  cbv beta iota in H. rewrite <- H.
  rewrite length_string_of_list_ascii, length_app, length_map, length_app.
  rewrite length_map, length_app, Htail. cbn [length].
  rewrite <- (length_string_of_list_ascii (list_ascii_of_string pre)).
  rewrite string_of_list_ascii_of_string. lia.
Qed.

(** The address of a witness program of 20 or 32 bytes is too long for a
    base58check address. *)
Lemma toBech32_not_base58 (d : bytes) (v : Z) (n : NetworkType) (a : string) :
  length d = 20%nat \/ length d = 32%nat ->
  Bitcoin.toBech32 d v (Bitcoin.bech32 (networkTypeToNetwork n)) = Ok a ->
  exists e, Bitcoin.fromBase58Check a = Throw e.
Proof.
  intros Hd Henc. unfold Bitcoin.toBech32 in Henc.
  pose proof (encode_length _ _ _ _ Henc) as Hlen.
  apply Bech32Address.encode_shape in Henc as [chars Hshape].
  cbn [length] in Hlen. rewrite Succeeds.toWords_length in Hlen.
  assert (Hwords : (32 <= word_count (length d))%nat)
    by (destruct Hd as [-> | ->]; vm_compute; lia).
  assert (Hpre : exists c rest,
             map Bech32.lower (list_ascii_of_string
                                 (Bitcoin.bech32 (networkTypeToNetwork n)))
             = c :: rest /\ c <> "1"%char)
    by (destruct n; do 2 eexists; (split; [reflexivity | discriminate])).
  destruct Hpre as (c & rest & Hpre & Hc). rewrite Hpre in Hshape.
  cbn [app string_of_list_ascii] in Hshape. subst a.
  apply Base58Long.fromBase58Check_long; [exact Hc |].
  cbn [String.length] in Hlen. lia.
Qed.

(** [toOutputScript] on a base58check address. *)
Lemma toOutputScript_base58 (h : bytes) (v : Z) (network : Bitcoin.Network) :
  length h = 20%nat -> 0 <= v < 256 ->
  Bitcoin.toOutputScript (Bitcoin.toBase58Check h v) network
  = if v =? Bitcoin.pubKeyHash network
    then Ok ([x76; xa9; x14] ++ h ++ [x88; xac])
    else if v =? Bitcoin.scriptHash network
    then Ok ([xa9; x14] ++ h ++ [x87])
    else Throw (Error (Bitcoin.toBase58Check h v ++ " has no matching Script")).
Proof.
  intros Hlen Hv. unfold Bitcoin.toOutputScript.
  rewrite BitcoinProps.fromBase58Check_toBase58Check by assumption.
  reflexivity.
Qed.

(** [toOutputScript] on the address of a witness program of version 0 or
    1, made for one of the three networks. *)
Lemma toOutputScript_bech32 (d : bytes) (v : Z) (n : NetworkType)
    (network : Bitcoin.Network) (a : string) :
  length d = 20%nat \/ length d = 32%nat ->
  v = 0 \/ v = 1 ->
  Bitcoin.toBech32 d v (Bitcoin.bech32 (networkTypeToNetwork n)) = Ok a ->
  Bitcoin.toOutputScript a network
  = if negb (String.eqb (Bitcoin.bech32 (networkTypeToNetwork n))
               (Bitcoin.bech32 network))
    then Throw (Error (a ++ " has an invalid prefix"))
    else if v =? 0
    then Ok ((if (length d =? 20)%nat then [x00; x14] else [x00; x20]) ++ d)
    else if (length d =? 32)%nat
    then
      if negb (Ecc.isXOnlyPoint d)
      then Throw (TypeError "Invalid pubkey for p2tr")
      else Ok ([x51; x20] ++ d)
    else Throw (Error (a ++ " has no matching Script")).
Proof.
  intros Hd Hv Henc. unfold Bitcoin.toOutputScript.
  destruct (toBech32_not_base58 _ _ _ _ Hd Henc) as [e ->].
  assert (Hdec : Bitcoin.fromBech32 a
                 = Ok {| Bitcoin.version := Some v;
                         Bitcoin.prefix := Bitcoin.bech32 (networkTypeToNetwork n);
                         Bitcoin.data := d |}).
  { apply Bech32Address.fromBech32_toBech32; [| | exact Henc]; destruct n;
      reflexivity || discriminate. }
  rewrite Hdec.
  cbn [Bitcoin.prefix Bitcoin.version Bitcoin.data Bitcoin.is_version].
  destruct (negb _); [reflexivity |].
  destruct Hv as [-> | ->]; cbn [Z.eqb Pos.eqb].
  - destruct Hd as [-> | ->]; reflexivity.
  - reflexivity.
Qed.

(** X24. The script of an address that [publicKeyToPayment] gives for a network
    is, for that network, the output script of the payment. *)
Theorem publicKeyToPayment_scriptPublicKey (publicKey : string)
    (t : AddressType) (n : NetworkType) (payment : Bitcoin.Payment) (a : string) :
  publicKeyToPayment publicKey t n = Ok (Some payment) ->
  Bitcoin.address payment = Ok a ->
  addressToScriptPublicKey a n = Ok (Bitcoin.output payment).
Proof.
  unfold publicKeyToPayment, addressToScriptPublicKey.
  destruct (negb (truthy (Some publicKey))); [discriminate |].
  set (pubkey := Buffer.from_hex (remove0x publicKey)).
  destruct t; try discriminate.
  - (* P2PKH *)
    unfold Bitcoin.p2pkh. destruct (negb (Ecc.isPoint pubkey)); [discriminate |].
    cbn [mbind result_bind]. intros H. injection H as <-.
    cbn [Bitcoin.address Bitcoin.output]. intros H. injection H as <-.
    rewrite toOutputScript_base58;
      [| apply hash160_length | destruct n; cbn; lia].
    now rewrite Z.eqb_refl.
  - (* P2WPKH *)
    unfold Bitcoin.p2wpkh. destruct (negb (Ecc.isPoint pubkey)); [discriminate |].
    destruct (negb (length pubkey =? 33)%nat); [discriminate |].
    cbn [mbind result_bind]. intros H. injection H as <-.
    cbn [Bitcoin.address Bitcoin.output]. intros Henc.
    rewrite (toOutputScript_bech32 _ 0 n _ _ (or_introl (hash160_length pubkey))
               (or_introl eq_refl) Henc).
    rewrite String.eqb_refl, hash160_length. reflexivity.
  - (* P2TR *)
    unfold Bitcoin.p2tr.
    destruct (negb (length (toXOnly pubkey) =? 32)%nat); [discriminate |].
    destruct (Bitcoin.tweakKey (toXOnly pubkey)) as [tweaked |] eqn:Htweak;
      [| discriminate].
    destruct (Ecc.isXOnlyPoint tweaked) eqn:Hx; cbn [negb]; [| discriminate].
    cbn [mbind result_bind]. intros H. injection H as <-.
    cbn [Bitcoin.address Bitcoin.output]. intros Henc.
    destruct (Succeeds.tweakKey_Some _ _ Htweak) as [_ Hlen].
    rewrite (toOutputScript_bech32 _ 1 n _ _ (or_intror Hlen)
               (or_intror eq_refl) Henc).
    rewrite String.eqb_refl, Hlen, Hx. reflexivity.
  - (* P2SH_P2WPKH *)
    unfold Bitcoin.p2wpkh. destruct (negb (Ecc.isPoint pubkey)); [discriminate |].
    destruct (negb (length pubkey =? 33)%nat); [discriminate |].
    cbn [mbind result_bind]. unfold Bitcoin.p2sh.
    destruct (_ <? 1)%nat; [discriminate |].
    destruct (520 <? _)%nat; [discriminate |].
    cbn [mbind result_bind]. intros H. injection H as <-.
    cbn [Bitcoin.address Bitcoin.output]. intros H. injection H as <-.
    rewrite toOutputScript_base58;
      [| apply hash160_length | destruct n; cbn; lia].
    rewrite Z.eqb_refl.
    replace (Bitcoin.scriptHash (networkTypeToNetwork n)
             =? Bitcoin.pubKeyHash (networkTypeToNetwork n)) with false
      by (destruct n; reflexivity).
    reflexivity.
Qed.

Lemma publicKeyToPayment_scriptPublicKey_witness :
  addressToScriptPublicKey "3JvL6Ymt8MVWiCNHC7oWU6nLeHNJKLZGLN" MAINNET
  = Ok (Buffer.from_hex "a914bcfeb728b584253d5f3f70bcb780e9ef218a68f487").
Proof.
  apply (publicKeyToPayment_scriptPublicKey generator_key P2SH_P2WPKH MAINNET
           {| Bitcoin.address := Ok "3JvL6Ymt8MVWiCNHC7oWU6nLeHNJKLZGLN";
              Bitcoin.output :=
                Buffer.from_hex "a914bcfeb728b584253d5f3f70bcb780e9ef218a68f487" |});
    vm_compute; reflexivity.
Defined.





(** ** address.ts and utxo.ts: the script in hexadecimal *)

Lemma unhex_hexdigit (d : Z) :
  0 <= d < 16 -> Buffer.unhex (Buffer.hexdigit d) = Some d.
Proof.
  intros Hd.
  assert (Hcases : d = 0 \/ d = 1 \/ d = 2 \/ d = 3 \/ d = 4 \/ d = 5 \/ d = 6
                   \/ d = 7 \/ d = 8 \/ d = 9 \/ d = 10 \/ d = 11 \/ d = 12
                   \/ d = 13 \/ d = 14 \/ d = 15) by lia.
  repeat destruct Hcases as [-> | Hcases]; try reflexivity.
  subst d. reflexivity.
Qed.

(** [Buffer.from(buf.toString('hex'), 'hex')] is the buffer. *)
Lemma from_hex_to_hex (bs : bytes) : Buffer.from_hex (Buffer.to_hex bs) = bs.
Proof.
  induction bs as [| b bs IH]; [reflexivity |].
  cbn [Buffer.to_hex Buffer.from_hex].
  pose proof (Z_of_byte_range b) as Hb.
  rewrite !unhex_hexdigit.
  - rewrite IH. f_equal. rewrite <- (byte_of_Z_of_byte b) at 3. f_equal.
    pose proof (Z.div_mod (Z_of_byte b) 16). lia.
  - apply Z.mod_pos_bound. lia.
  - split; [apply Z.div_pos; lia | apply Z.div_lt_upper_bound; lia].
Qed.

Lemma to_hex_unprefixed (bs : bytes) : remove0x (Buffer.to_hex bs) = Buffer.to_hex bs.
Proof.
  destruct bs as [| b bs]; [reflexivity |].
  apply KeyText.remove0x_from_hex. rewrite from_hex_to_hex. discriminate.
Qed.

(** X26. A UTXO whose [scriptPk] is what [addressToScriptPublicKeyHex] returns
    for an address gets, in every branch of [utxoToInput], the script of
    that address as its witness script. *)
Theorem addressToScriptPublicKeyHex_utxoToInput (a : string) (n : NetworkType)
    (u : Utxo) (input : TxInput) :
  addressToScriptPublicKeyHex a n = Ok (scriptPk u) ->
  utxoToInput u = Ok input ->
  addressToScriptPublicKey a n
  = Ok (Psbt.script (Psbt.witnessUtxo (data input))).
Proof.
  unfold addressToScriptPublicKeyHex.
  destruct (addressToScriptPublicKey a n) as [script | e]; [| discriminate].
  cbn [mbind result_bind]. intros Hhex. injection Hhex as Hhex.
  unfold utxoToInput. rewrite <- Hhex, to_hex_unprefixed, from_hex_to_hex.
  destruct (addressType u); try discriminate.
  - intros H. injection H as <-. reflexivity.
  - destruct (pubkey u) as [pk |]; [| discriminate].
    destruct (negb _); [discriminate |].
    intros H. injection H as <-. reflexivity.
  - destruct (pubkey u) as [pk |]; [| discriminate].
    destruct (negb _); [discriminate |].
    destruct (Bitcoin.p2wpkh _ _) as [redeemData | e]; [| discriminate].
    cbn [mbind result_bind]. intros H. injection H as <-. reflexivity.
  - intros H. injection H as <-. reflexivity.
Qed.

Lemma addressToScriptPublicKeyHex_utxoToInput_witness :
  addressToScriptPublicKey "tb1qw508d6qejxtdg4y5r3zarvary0c5xw7kxpjzsx" TESTNET
  = Ok (Psbt.script
          (Psbt.witnessUtxo
             (data (plainInput p2wpkh_utxo
                      (Buffer.from_hex (scriptPk p2wpkh_utxo)))))).
Proof.
  apply (addressToScriptPublicKeyHex_utxoToInput
           "tb1qw508d6qejxtdg4y5r3zarvary0c5xw7kxpjzsx" TESTNET p2wpkh_utxo);
    vm_compute; reflexivity.
Defined.

(** The scripts of the examples of BIP 173 and BIP 350. *)
Example addressToScriptPublicKeyHex_p2wsh :
  addressToScriptPublicKeyHex
    "bc1qrp33g0q5c5txsp9arysrx4k6zdkfs4nce4xj0gdcccefvpysxf3qccfmv3" MAINNET
  = Ok "00201863143c14c5166804bd19203356da136c985678cd4d27a1b8c6329604903262".
Proof. vm_compute. reflexivity. Qed.

Example addressToScriptPublicKeyHex_version_2 :
  addressToScriptPublicKeyHex "bc1zw508d6qejxtdg4y5r3zarvaryvaxxpcs" MAINNET
  = Ok "5210751e76e8199196d454941c45d1b3a323".
Proof. vm_compute. reflexivity. Qed.

Example addressToScriptPublicKey_other_network :
  addressToScriptPublicKey "1BgGZ9tcN4rm9KBzDn7KprQz87SZ26SAMH" TESTNET
  = Throw (Error "1BgGZ9tcN4rm9KBzDn7KprQz87SZ26SAMH has no matching Script")
  /\ addressToScriptPublicKey "tb1qw508d6qejxtdg4y5r3zarvary0c5xw7kxpjzsx" MAINNET
     = Throw (Error "tb1qw508d6qejxtdg4y5r3zarvary0c5xw7kxpjzsx has an invalid prefix").
Proof. split; vm_compute; reflexivity. Qed.

End ScriptOf.

(** ** address.ts: decodeAddress and isValidAddress *)

Module Validity.

Import Address Utxo Samples.











Example isValidAddress_not_a_point :
  getAddressType "bc1plllllllllllllllllllllllllllllllllllllllllllllllllllsr7rg6v"
  = Ok P2TR
  /\ isValidAddress "bc1plllllllllllllllllllllllllllllllllllllllllllllllllllsr7rg6v"
       MAINNET
     = Ok false.
Proof. split; vm_compute; reflexivity. Qed.

(** X28. [decodeAddress] reports the regression-test network for segwit
    addresses only: a base58check address is never [REGTEST], its version
    bytes being those of the test network, which is tested first. *)
Theorem decodeAddress_regtest_segwit (a : string) (d : DecodedAddress) :
  decodeAddress a = Ok d ->
  Address.networkType d = REGTEST ->
  isBech32Prefixed a = true
  /\ (Address.addressType d = P2WPKH \/ Address.addressType d = P2WSH
      \/ Address.addressType d = P2TR).
Proof.
  rewrite AddressProps.decodeAddress_takenBranch.
  unfold takenBranch, bech32Branch, base58Branch.
  destruct (isBech32Prefixed a).
  - destruct (Bitcoin.fromBech32 a) as [r | e]; cbn [mbind result_bind];
      [| intros H; injection H as <-; discriminate].
    destruct (bech32NetworkType r) as [n |];
      [| intros H; injection H as <-; discriminate].
    destruct (bech32AddressType r) as [t |] eqn:Ht;
      [| intros H; injection H as <-; discriminate].
    intros H. injection H as <-. intros _. split; [reflexivity |].
    cbn [Address.addressType]. unfold bech32AddressType in Ht.
    repeat match type of Ht with
           | (if ?b then _ else _) = _ => destruct b
           end; try discriminate; injection Ht as <-; auto.
  - destruct (Bitcoin.fromBase58Check a) as [r | e]; cbn [mbind result_bind];
      [| intros H; injection H as <-; discriminate].
    unfold base58Types.
    change (Bitcoin.pubKeyHash Bitcoin.regtest)
      with (Bitcoin.pubKeyHash Bitcoin.testnet).
    change (Bitcoin.scriptHash Bitcoin.regtest)
      with (Bitcoin.scriptHash Bitcoin.testnet).
    repeat match goal with
           | |- context [if ?b then _ else _] => destruct b
           end; intros H; injection H as <-; discriminate.
Qed.

Lemma decodeAddress_regtest_segwit_witness :
  isBech32Prefixed "bcrt1qw508d6qejxtdg4y5r3zarvary0c5xw7kygt080" = true
  /\ (P2WPKH = P2WPKH \/ P2WPKH = P2WSH \/ P2WPKH = P2TR).
Proof.
  apply (decodeAddress_regtest_segwit "bcrt1qw508d6qejxtdg4y5r3zarvary0c5xw7kygt080"
           {| Address.networkType := REGTEST;
              Address.addressType := P2WPKH;
              dust := 294 |});
    vm_compute; reflexivity.
Defined.

End Validity.
